(** * telegram-recordatorios-bot: a shallow embedding of [bot.py]

    The bot is a rule-based Spanish reminder assistant.  This development
    embeds its interpreter (a cascade of regular expressions), its
    SQLite-backed reminder store, the per-chat continuation dictionary,
    the callback and text handlers and the scheduler tick, and proves the
    properties the specification states about them.

    Conventions of the embedding.
    - A Python [str] is a list of Unicode code points ([text]).  The
      character tables ([str.lower], [\d], [\w], the digits of [int]) are
      Python's on Basic Latin and Latin-1 Supplement (U+0000 to U+00FF),
      which covers Spanish.  Beyond U+00FF they are not Python's: there
      Python knows further digits (Arabic-Indic, fullwidth, ...), further
      letters and further upper-case letters, which the tables leave
      out.  The statements that run the interpreter on an arbitrary text
      therefore take the text in [latin1], or in [covered], which also
      bounds its length by that of a Telegram message.  The whitespace
      table is Python's complete one.
    - A regular expression is a value of [re]; [rmatch] is a backtracking
      matcher with Python's priorities (leftmost start, first alternative
      first, greedy repetition).
    - An aware [datetime] is its wall-clock microsecond count together
      with its UTC offset; the configured zone is a fixed-offset zone
      (the default, America/Bogota, is UTC-5 all year).  Dates beyond
      the year 9999 ([OverflowError]) are not modelled.
    - A Python [int] is a [Z].  SQLite stores 64-bit integers and
      [sqlite3] raises [OverflowError] on others; the statements that
      bind a number read from a message or a button take it as a
      [sqlite_integer].
    - The [reminders] table is the list of its rows in rowid order.  A
      timestamp column holds the instant whose ISO text SQLite stores;
      where SQL compares or sorts timestamps it does so on that text.
    - [context.user_data] is a [gmap] from the dictionary key to the
      stored payload.
    - A handler reads the clock once: it takes the instant [now], and so
      does a tick.  A tick runs without other handlers interleaved.
    - [dateparser.parse] and the transport are parameters.
    - Outbound messages are one constructor per message template, carrying
      the interpolated values. *)

From Stdlib Require Import ZArith List String Ascii Bool Lia Sorted.
From stdpp Require Import gmap strings.
Import ListNotations.

Local Open Scope Z_scope.

(** ** Text *)

Module Text.

Definition text := list Z.

Definition byte_val (a : ascii) : Z := Z.of_N (N_of_ascii a).

(** UTF-8 decoding of a source literal into code points. *)
Fixpoint utf8_go (bs : list ascii) (pending : nat) (acc : Z) : text :=
  match bs with
  | [] => []
  | a :: t =>
      let b := byte_val a in
      match pending with
      | O =>
          if b <? 128 then b :: utf8_go t 0 0
          else if b <? 224 then utf8_go t 1 (b - 192)
          else if b <? 240 then utf8_go t 2 (b - 224)
          else utf8_go t 3 (b - 240)
      | S p =>
          let acc' := acc * 64 + (b - 128) in
          match p with
          | O => acc' :: utf8_go t 0 0
          | S _ => utf8_go t p acc'
          end
      end
  end.

Definition u (s : string) : text := utf8_go (list_ascii_of_string s) 0 0.

Definition in_range (lo hi c : Z) : bool := (lo <=? c) && (c <=? hi).

(** [str.lower], one code point at a time.  The table is Python's up to
    U+00FF; the upper-case letters beyond (Cyrillic, Greek, the Kelvin
    sign, ...) are left as they are, which is not what Python does. *)
Definition lower_cp (c : Z) : Z :=
  if in_range 65 90 c then c + 32
  else if in_range 192 222 c && negb (c =? 215) then c + 32
  else c.

Definition lower (s : text) : text := map lower_cp s.

(** [str.isspace], also the class [\s]. *)
Definition is_space (c : Z) : bool :=
  in_range 9 13 c || in_range 28 32 c || (c =? 133) || (c =? 160)
  || (c =? 5760) || in_range 8192 8202 c || (c =? 8232) || (c =? 8233)
  || (c =? 8239) || (c =? 8287) || (c =? 12288).

(** The class [\d], and the digits [int] reads.  The table is Python's
    up to U+00FF; the decimal digits of other scripts, which Python also
    accepts, are not in it. *)
Definition is_digit (c : Z) : bool := in_range 48 57 c.

(** The class [\w]: alphanumeric or underscore.  The table is Python's
    up to U+00FF; the letters and numbers beyond are not in it. *)
Definition is_word (c : Z) : bool :=
  in_range 48 57 c || in_range 65 90 c || in_range 97 122 c || (c =? 95)
  || (c =? 170) || (c =? 178) || (c =? 179) || (c =? 181) || (c =? 185)
  || (c =? 186) || in_range 188 190 c || in_range 192 214 c
  || in_range 216 246 c || in_range 248 255 c.

Fixpoint text_eqb (a b : text) : bool :=
  match a, b with
  | [], [] => true
  | x :: a', y :: b' => (x =? y) && text_eqb a' b'
  | _, _ => false
  end.

Fixpoint startswith (p s : text) : bool :=
  match p, s with
  | [], _ => true
  | x :: p', y :: s' => (x =? y) && startswith p' s'
  | _ :: _, [] => false
  end.

(** [w in s] for strings. *)
Fixpoint contains (w s : text) : bool :=
  startswith w s ||
  match s with
  | [] => false
  | _ :: s' => contains w s'
  end.

(** [any(w in s for w in ws)] *)
Definition any_in (ws : list text) (s : text) : bool :=
  existsb (fun w => contains w s) ws.

(** [s in {...}] for a set of strings. *)
Definition member (s : text) (ws : list text) : bool :=
  existsb (text_eqb s) ws.

Fixpoint lstrip_by (p : Z -> bool) (s : text) : text :=
  match s with
  | c :: s' => if p c then lstrip_by p s' else s
  | [] => []
  end.

Definition rstrip_by (p : Z -> bool) (s : text) : text :=
  rev (lstrip_by p (rev s)).

Definition strip_by (p : Z -> bool) (s : text) : text :=
  rstrip_by p (lstrip_by p s).

(** [s.strip()] *)
Definition strip (s : text) : text := strip_by is_space s.

(** [s.strip(chars)] *)
Definition strip_chars (chars : text) (s : text) : text :=
  strip_by (fun c => existsb (Z.eqb c) chars) s.

(** [int(s)] for a string of decimal digits; [None] is [ValueError]. *)
Fixpoint digits_value (acc : Z) (s : text) : option Z :=
  match s with
  | [] => Some acc
  | c :: s' => if is_digit c then digits_value (acc * 10 + (c - 48)) s' else None
  end.

(** Single underscores between digits are accepted by [int]. *)
Fixpoint drop_underscores (after_digit : bool) (s : text) : option text :=
  match s with
  | [] => if after_digit then Some [] else None
  | c :: s' =>
      if c =? 95 then
        if after_digit then drop_underscores false s' else None
      else option_map (cons c) (drop_underscores true s')
  end.

(** [int(s)]: surrounding whitespace, an optional sign, decimal digits. *)
Definition python_int (s : text) : option Z :=
  let body (t : text) : option Z :=
    match drop_underscores false t with
    | Some (c :: d) => digits_value 0 (c :: d)
    | _ => None
    end in
  match strip s with
  | 45 :: t => option_map Z.opp (body t)
  | 43 :: t => body t
  | t => body t
  end.

(** [str(n)] for a non-negative integer, padded with zeros to [width]. *)
Fixpoint digits_of (fuel : nat) (n : Z) (acc : text) : text :=
  match fuel with
  | O => acc
  | S f =>
      let acc' := (48 + n mod 10) :: acc in
      if n / 10 =? 0 then acc' else digits_of f (n / 10) acc'
  end.

Definition str_of_nonneg (n : Z) : text := digits_of (S (Z.to_nat n)) n [].

Definition zero_pad (width : nat) (n : Z) : text :=
  let d := str_of_nonneg n in
  repeat 48 (width - length d) ++ d.

End Text.
Import Text.

(** ** Regular expressions *)

Module Re.

Inductive re : Type :=
| Eps
| Chr (p : Z -> bool)
| Seq (a b : re)
| Alt (a b : re)
| Star (a : re)
| Bnd
| Bol
| Grp (n : nat) (a : re).

Record mstate := MState {
  m_prev : option Z;
  m_rest : text;
  m_caps : list (nat * text)
}.

Definition word_before (s : mstate) : bool :=
  match m_prev s with Some c => is_word c | None => false end.

Definition word_after (s : mstate) : bool :=
  match m_rest s with c :: _ => is_word c | [] => false end.

Definition consumed (from to : mstate) : text :=
  firstn (length (m_rest from) - length (m_rest to))%nat (m_rest from).

(** Backtracking matcher in continuation-passing style: [k] is what must
    still match after [r].  A repetition tries one more iteration before
    it tries to stop (greedy), and an iteration has to consume input. *)
Fixpoint rmatch {A : Type} (r : re) (k : mstate -> option A) (s : mstate)
  {struct r} : option A :=
  match r with
  | Eps => k s
  | Chr p =>
      match m_rest s with
      | c :: t => if p c then k (MState (Some c) t (m_caps s)) else None
      | [] => None
      end
  | Seq a b => rmatch a (rmatch b k) s
  | Alt a b =>
      match rmatch a k s with
      | Some x => Some x
      | None => rmatch b k s
      end
  | Star a =>
      (fix loop (fuel : nat) (s : mstate) {struct fuel} : option A :=
         match fuel with
         | O => k s
         | S fuel' =>
             match rmatch a (fun s' =>
                     if (length (m_rest s') <? length (m_rest s))%nat
                     then loop fuel' s' else None) s with
             | Some x => Some x
             | None => k s
             end
         end) (length (m_rest s)) s
  | Bnd => if xorb (word_before s) (word_after s) then k s else None
  | Bol => match m_prev s with None => k s | Some _ => None end
  | Grp n a =>
      rmatch a (fun s' =>
        k (MState (m_prev s') (m_rest s') ((n, consumed s s') :: m_caps s'))) s
  end.

(** Pattern syntax. *)
Definition lit (c : Z) : re := Chr (Z.eqb c).
Definition lit_i (c : Z) : re := Chr (fun x => lower_cp x =? lower_cp c).
Definition digit : re := Chr is_digit.
Definition space : re := Chr is_space.
Definition one_of (cs : text) : re := Chr (fun x => existsb (Z.eqb x) cs).
Definition none_of (cs : text) : re := Chr (fun x => negb (existsb (Z.eqb x) cs)).
Definition opt (a : re) : re := Alt a Eps.
Definition plus (a : re) : re := Seq a (Star a).

Fixpoint seqs (l : list re) : re :=
  match l with
  | [] => Eps
  | [a] => a
  | a :: l' => Seq a (seqs l')
  end.

Fixpoint alts (a : re) (l : list re) : re :=
  match l with
  | [] => a
  | b :: l' => Alt a (alts b l')
  end.

(** A literal string, and a literal string under [re.IGNORECASE]. *)
Definition str (s : string) : re := seqs (map lit (u s)).
Definition str_i (s : string) : re := seqs (map lit_i (u s)).

(** [a{n}], [a{0,n}] and [a{m,n}] *)
Fixpoint times (n : nat) (a : re) : re :=
  match n with
  | O => Eps
  | S n' => Seq a (times n' a)
  end.

Fixpoint upto (n : nat) (a : re) : re :=
  match n with
  | O => Eps
  | S n' => opt (Seq a (upto n' a))
  end.

Definition between (m n : nat) (a : re) : re := Seq (times m a) (upto (n - m) a).
Definition at_least (m : nat) (a : re) : re := Seq (times m a) (Star a).

(** A word of a fixed list: [(w1|w2|...)]. *)
Definition words (ws : list string) : re :=
  match map str ws with
  | [] => Eps
  | a :: l => alts a l
  end.

Definition words_i (ws : list string) : re :=
  match map str_i ws with
  | [] => Eps
  | a :: l => alts a l
  end.

(** A match: the text matched and the groups. *)
Record rematch := ReMatch {
  group0 : text;
  groups : list (nat * text)
}.

Definition group (n : nat) (m : rematch) : option text :=
  option_map snd (find (fun g => Nat.eqb (fst g) n) (groups m)).

Definition match_at (r : re) (prev : option Z) (s : text) : option rematch :=
  let s0 := MState prev s [] in
  rmatch r (fun s' => Some (ReMatch (consumed s0 s') (m_caps s'))) s0.

(** [re.match(r, s)] *)
Definition re_match (r : re) (s : text) : option rematch := match_at r None s.

(** [re.search(r, s)]: the leftmost match. *)
Fixpoint search_from (r : re) (prev : option Z) (s : text) : option rematch :=
  match match_at r prev s with
  | Some m => Some m
  | None =>
      match s with
      | [] => None
      | c :: t => search_from r (Some c) t
      end
  end.

Definition re_search (r : re) (s : text) : option rematch := search_from r None s.

Definition matches (r : re) (s : text) : bool :=
  match re_search r s with Some _ => true | None => false end.

(** [re.finditer(r, s)]: the non-overlapping matches from left to right.
    [skip] counts the characters still inside the previous match.  The
    patterns of this program never match the empty string; an empty match
    is recorded and the scan moves on by one character. *)
Fixpoint finditer_from (r : re) (prev : option Z) (s : text) (skip : nat)
  : list rematch :=
  match s with
  | [] =>
      match skip, match_at r prev [] with
      | O, Some m => [m]
      | _, _ => []
      end
  | c :: t =>
      match skip with
      | S n => finditer_from r (Some c) t n
      | O =>
          match match_at r prev s with
          | Some m => m :: finditer_from r (Some c) t (length (group0 m) - 1)
          | None => finditer_from r (Some c) t 0
          end
      end
  end.

(** [re.findall(r, s)] for a pattern without groups. *)
Definition re_findall (r : re) (s : text) : list text :=
  map group0 (finditer_from r None s 0).

(** [re.findall(r, s)] for a pattern with one group. *)
Definition re_findall1 (r : re) (s : text) : list text :=
  map (fun m => match group 1 m with Some g => g | None => [] end)
      (finditer_from r None s 0).

(** [re.sub(r, repl, s)] with a replacement function. *)
Fixpoint sub_from (r : re) (repl : rematch -> text) (prev : option Z)
  (s : text) (skip : nat) : text :=
  match s with
  | [] =>
      match skip, match_at r prev [] with
      | O, Some m => repl m
      | _, _ => []
      end
  | c :: t =>
      match skip with
      | S n => sub_from r repl (Some c) t n
      | O =>
          match match_at r prev s with
          | Some m =>
              match group0 m with
              | [] => repl m ++ c :: sub_from r repl (Some c) t 0
              | _ :: g => repl m ++ sub_from r repl (Some c) t (length g)
              end
          | None => c :: sub_from r repl (Some c) t 0
          end
      end
  end.

Definition re_sub_with (r : re) (repl : rematch -> text) (s : text) : text :=
  sub_from r repl None s 0.

Definition re_sub (r : re) (repl : text) (s : text) : text :=
  re_sub_with r (fun _ => repl) s.

End Re.
Import Re.

(** ** Dates and times *)

Module Time.

(** [calendar.isleap] *)
Definition isleap (year : Z) : bool :=
  (year mod 4 =? 0) && (negb (year mod 100 =? 0) || (year mod 400 =? 0)).

(** [calendar.monthrange(year, month)[1]]; [None] is [IllegalMonthError]. *)
Definition month_days (year month : Z) : option Z :=
  if (1 <=? month) && (month <=? 12) then
    Some (if month =? 2 then (if isleap year then 29 else 28)
          else if (month =? 4) || (month =? 6) || (month =? 9) || (month =? 11)
               then 30 else 31)
  else None.

(** Days from 1970-01-01 to a proleptic Gregorian date, and back. *)
Definition days_from_civil (y m d : Z) : Z :=
  let y' := if m <=? 2 then y - 1 else y in
  let era := y' / 400 in
  let yoe := y' - era * 400 in
  let doy := (153 * (if 2 <? m then m - 3 else m + 9) + 2) / 5 + d - 1 in
  let doe := yoe * 365 + yoe / 4 - yoe / 100 + doy in
  era * 146097 + doe - 719468.

Definition civil_from_days (z : Z) : Z * Z * Z :=
  let z' := z + 719468 in
  let era := z' / 146097 in
  let doe := z' - era * 146097 in
  let yoe := (doe - doe / 1460 + doe / 36524 - doe / 146096) / 365 in
  let doy := doe - (365 * yoe + yoe / 4 - yoe / 100) in
  let mp := (5 * doy + 2) / 153 in
  let d := doy - (153 * mp + 2) / 5 + 1 in
  let m := if mp <? 10 then mp + 3 else mp - 9 in
  (yoe + era * 400 + (if m <=? 2 then 1 else 0), m, d).

Definition us_per_second : Z := 1000000.
Definition us_per_minute : Z := 60 * us_per_second.
Definition us_per_hour : Z := 60 * us_per_minute.
Definition us_per_day : Z := 24 * us_per_hour.

(** An aware datetime: the microseconds of its wall clock counted from
    1970-01-01 00:00 on that clock, and its UTC offset in minutes. *)
Record datetime := DateTime {
  wall : Z;
  utcoffset : Z
}.

(** [datetime(year, month, day, hour, minute, tzinfo=tz)]; [None] is
    [ValueError]. *)
Definition datetime_new (year month day hour minute off : Z) : option datetime :=
  match month_days year month with
  | Some dim =>
      if (1 <=? year) && (year <=? 9999) && (1 <=? day) && (day <=? dim)
         && (0 <=? hour) && (hour <=? 23) && (0 <=? minute) && (minute <=? 59)
      then Some (DateTime (days_from_civil year month day * us_per_day
                           + hour * us_per_hour + minute * us_per_minute) off)
      else None
  | None => None
  end.

Definition dt_date (dt : datetime) : Z * Z * Z := civil_from_days (wall dt / us_per_day).
Definition dt_year (dt : datetime) : Z := fst (fst (dt_date dt)).
Definition dt_month (dt : datetime) : Z := snd (fst (dt_date dt)).
Definition dt_day (dt : datetime) : Z := snd (dt_date dt).
Definition dt_hour (dt : datetime) : Z := (wall dt mod us_per_day) / us_per_hour.
Definition dt_minute (dt : datetime) : Z := (wall dt mod us_per_hour) / us_per_minute.
Definition dt_second (dt : datetime) : Z := (wall dt mod us_per_minute) / us_per_second.
Definition dt_microsecond (dt : datetime) : Z := wall dt mod us_per_second.

(** The instant a datetime denotes, in microseconds since the epoch. *)
Definition instant (dt : datetime) : Z := wall dt - utcoffset dt * us_per_minute.

(** [dt.astimezone(tz)] *)
Definition astimezone (off : Z) (dt : datetime) : datetime :=
  DateTime (instant dt + off * us_per_minute) off.

(** [datetime.now(timezone.utc)] when the clock reads [now]. *)
Definition at_utc (now : Z) : datetime := DateTime now 0.

(** [dt + timedelta(...)]: wall-clock arithmetic, the zone is kept. *)
Definition dt_add (dt : datetime) (delta : Z) : datetime :=
  DateTime (wall dt + delta) (utcoffset dt).

Definition timedelta_minutes (n : Z) : Z := n * us_per_minute.
Definition timedelta_hours (n : Z) : Z := n * us_per_hour.

(** [dt.astimezone(timezone.utc).isoformat().replace("+00:00", "Z")] as a
    function of the instant: [YYYY-MM-DDTHH:MM:SS[.ffffff]Z]. *)
Definition utc_iso_text (t : Z) : text :=
  let dt := at_utc t in
  zero_pad 4 (dt_year dt) ++ u "-" ++ zero_pad 2 (dt_month dt) ++ u "-"
  ++ zero_pad 2 (dt_day dt) ++ u "T" ++ zero_pad 2 (dt_hour dt) ++ u ":"
  ++ zero_pad 2 (dt_minute dt) ++ u ":" ++ zero_pad 2 (dt_second dt)
  ++ (if dt_microsecond dt =? 0 then [] else u "." ++ zero_pad 6 (dt_microsecond dt))
  ++ u "Z".

(** Comparison of two TEXT values in SQLite (binary collation). *)
Fixpoint text_leb (a b : text) : bool :=
  match a, b with
  | [], _ => true
  | _ :: _, [] => false
  | x :: a', y :: b' => (x <? y) || ((x =? y) && text_leb a' b')
  end.

(** A timestamp column holds the instant whose [utc_iso] text SQLite
    stores; SQL compares two timestamps as texts. *)
Definition sql_le (a b : Z) : bool := text_leb (utc_iso_text a) (utc_iso_text b).

End Time.
Import Time.

(** ** The reminders table *)

Inductive status := Pending | Done | Deleted.
Inductive category := General | Pago.

Definition status_eqb (a b : status) : bool :=
  match a, b with
  | Pending, Pending | Done, Done | Deleted, Deleted => true
  | _, _ => false
  end.

Definition category_eqb (a b : category) : bool :=
  match a, b with
  | General, General | Pago, Pago => true
  | _, _ => false
  end.

(** A row of [reminders].  The timestamp columns hold instants. *)
Record reminder := Reminder {
  r_id : Z;
  r_chat_id : Z;
  r_task : text;
  r_due_utc : Z;
  r_status : status;
  r_amount_cop : option Z;
  r_category : category;
  r_created_utc : option Z;
  r_completed_utc : option Z;
  r_retry_count : Z;
  r_last_sent_utc : option Z
}.

Definition table := list reminder.

(** [UPDATE reminders SET ... WHERE cond] *)
Definition sql_update (cond : reminder -> bool) (set : reminder -> reminder)
  (db : table) : table :=
  map (fun r => if cond r then set r else r) db.

(** [ORDER BY due_utc ASC]: a stable sort on the stored text. *)
Fixpoint insert_by_due (r : reminder) (l : list reminder) : list reminder :=
  match l with
  | [] => [r]
  | x :: l' =>
      if sql_le (r_due_utc x) (r_due_utc r) then x :: insert_by_due r l'
      else r :: l
  end.

Definition order_by_due (l : list reminder) : list reminder :=
  fold_left (fun acc r => insert_by_due r acc) l [].

(** [AUTOINCREMENT]: one more than the largest id ever used; rows are
    never removed. *)
Definition next_id (db : table) : Z :=
  fold_left (fun m r => Z.max m (r_id r)) db 0 + 1.

Definition insert_reminder (now : Z) (chat_id : Z) (task : text)
  (due_local : datetime) (amount_cop : option Z) (cat : category) (db : table)
  : table * (Z * Z) :=
  let created := now in
  let due_utc := instant due_local in
  let rid := next_id db in
  (db ++ [Reminder rid chat_id task due_utc Pending amount_cop cat
                   (Some created) None 0 None],
   (rid, due_utc)).

(** [SET due_utc=?, status='pending', retry_count=0, last_sent_utc=NULL] *)
Definition set_rescheduled (due_utc : Z) (r : reminder) : reminder :=
  Reminder (r_id r) (r_chat_id r) (r_task r) due_utc Pending
    (r_amount_cop r) (r_category r) (r_created_utc r)
    (r_completed_utc r) 0 None.

Definition update_reminder_time (chat_id rid : Z) (new_due_local : datetime)
  (db : table) : table * option Z :=
  let due_utc := instant new_due_local in
  match find (fun r => (r_chat_id r =? chat_id) && (r_id r =? rid)
                       && negb (status_eqb (r_status r) Deleted)) db with
  | None => (db, None)
  | Some _ =>
      (sql_update (fun r => (r_chat_id r =? chat_id) && (r_id r =? rid))
         (set_rescheduled due_utc) db,
       Some due_utc)
  end.

(** The six selected columns are read off the returned rows.  Every
    status value is a non-empty string, so [if status:] holds exactly
    when a status is passed. *)
Definition fetch_reminders (chat_id : Z) (st : option status) (limit : nat)
  (db : table) : list reminder :=
  match st with
  | Some s =>
      firstn limit (order_by_due
        (List.filter (fun r => (r_chat_id r =? chat_id)
                               && status_eqb (r_status r) s) db))
  | None =>
      firstn limit (order_by_due
        (List.filter (fun r => (r_chat_id r =? chat_id)
                               && negb (status_eqb (r_status r) Deleted)) db))
  end.

Definition fetch_range (chat_id : Z) (start_local end_local : datetime)
  (cat : option category) (db : table) : list reminder :=
  let start_utc := instant start_local in
  let end_utc := instant end_local in
  match cat with
  | Some c =>
      order_by_due
        (List.filter (fun r => (r_chat_id r =? chat_id)
                               && negb (status_eqb (r_status r) Deleted)
                               && category_eqb (r_category r) c
                               && sql_le start_utc (r_due_utc r)
                               && sql_le (r_due_utc r) end_utc) db)
  | None =>
      order_by_due
        (List.filter (fun r => (r_chat_id r =? chat_id)
                               && negb (status_eqb (r_status r) Deleted)
                               && sql_le start_utc (r_due_utc r)
                               && sql_le (r_due_utc r) end_utc) db)
  end.

Definition set_done (now : Z) (r : reminder) : reminder :=
  Reminder (r_id r) (r_chat_id r) (r_task r) (r_due_utc r) Done
    (r_amount_cop r) (r_category r) (r_created_utc r) (Some now)
    (r_retry_count r) (r_last_sent_utc r).

Definition mark_done (now : Z) (chat_id : Z) (rid : option Z) (db : table)
  : table * option (Z * text) :=
  let row :=
    match rid with
    | None =>
        hd_error (order_by_due
          (List.filter (fun r => (r_chat_id r =? chat_id)
                                 && status_eqb (r_status r) Pending) db))
    | Some rid =>
        find (fun r => (r_chat_id r =? chat_id) && (r_id r =? rid)
                       && status_eqb (r_status r) Pending) db
    end in
  match row with
  | None => (db, None)
  | Some row =>
      (sql_update (fun r => (r_chat_id r =? chat_id) && (r_id r =? r_id row))
         (set_done now) db,
       Some (r_id row, r_task row))
  end.

Definition set_deleted (r : reminder) : reminder :=
  Reminder (r_id r) (r_chat_id r) (r_task r) (r_due_utc r) Deleted
    (r_amount_cop r) (r_category r) (r_created_utc r) (r_completed_utc r)
    (r_retry_count r) (r_last_sent_utc r).

Definition delete_reminder (chat_id rid : Z) (db : table)
  : table * option (Z * text) :=
  match find (fun r => (r_chat_id r =? chat_id) && (r_id r =? rid)
                       && negb (status_eqb (r_status r) Deleted)) db with
  | None => (db, None)
  | Some row =>
      (sql_update (fun r => (r_chat_id r =? chat_id) && (r_id r =? rid))
         set_deleted db,
       Some (r_id row, r_task row))
  end.

(** ** Interpreter *)

Definition ch (s : string) : Z := hd 0 (u s).

Definition CONFIRM_WORDS : list text :=
  map u ["ya"; "listo"; "hecho"; "ok"; "okey"; "confirmo"; "pagado";
         "realizado"; "ya lo hice"; "ya lo pagué"; "ya lo pague"]%string.

Definition MONTHS_ES : list (string * Z) :=
  [("enero", 1); ("febrero", 2); ("marzo", 3); ("abril", 4); ("mayo", 5);
   ("junio", 6); ("julio", 7); ("agosto", 8); ("septiembre", 9);
   ("setiembre", 9); ("octubre", 10); ("noviembre", 11);
   ("diciembre", 12)]%string.

Record ParsedCreate := MkParsedCreate {
  pc_task : text;
  pc_due_local : option datetime;
  pc_amount_cop : option Z;
  pc_category : category
}.

Definition looks_like_confirm (txt : text) : bool :=
  let t := lower (strip txt) in
  existsb (fun w => text_eqb t w || contains w t) CONFIRM_WORDS.

(** [\b\d{1,2}\s*(am|pm)\b] *)
Definition re_ampm : re :=
  seqs [Bnd; between 1 2 digit; Star space; Grp 1 (words ["am"; "pm"]); Bnd]%string.

Definition text_has_time_hints (txt : text) : bool :=
  let tl := lower txt in
  if contains (u ":") tl then true
  else if matches re_ampm tl then true
  else if contains (u "a las") tl then true
  else false.

(** [\$?\s*\d{1,3}(?:[.,]\d{3})+] *)
Definition re_grouped : re :=
  seqs [opt (lit (ch "$")); Star space; between 1 3 digit;
        plus (Seq (one_of (u ".,")) (times 3 digit))].

(** [\$?\s*\d{1,3}(?:[.,]\d{3})+|\$?\s*\d{4,}] *)
Definition re_money_token : re :=
  Alt re_grouped (seqs [opt (lit (ch "$")); Star space; at_least 4 digit]).

(** [\$?\s*\d{1,3}(?:[.,]\d{3})+|\$?\s*\d+] *)
Definition re_amount_candidate : re :=
  Alt re_grouped (seqs [opt (lit (ch "$")); Star space; plus digit]).

(** [re.sub] of every character outside [\d] by the empty string. *)
Definition only_digits (token : text) : text :=
  re_sub (Chr (fun c => negb (is_digit c))) [] token.

Definition strip_money_candidates (txt : text) : text :=
  let repl (m : rematch) : text :=
    let token := group0 m in
    if contains (u ":") token then token
    else
      let digits := only_digits token in
      if (4 <=? length digits)%nat then u " " else token in
  re_sub_with re_money_token repl txt.

(** The body of the loop over the candidates. *)
Definition amount_step (best : option Z) (c : text) : option Z :=
  if contains (u ":") c then best
  else
    let digits := only_digits c in
    if (length digits <? 4)%nat then best
    else
      match python_int digits with
      | Some val =>
          if val <=? 0 then best
          else
            match best with
            | None => Some val
            | Some b => if b <? val then Some val else best
            end
      | None => best
      end.

Definition parse_amount_cop_strict (txt : text) : option Z :=
  let tl := lower txt in
  let money_context :=
    any_in (map u ["pagar"; "pago"; "pesos"; "cop"; "$"; "debo"]%string) tl in
  if negb money_context then None
  else
    let candidates := re_findall re_amount_candidate txt in
    fold_left amount_step candidates None.

(** [\b(\d{1,2})(:\d{2})?\b] *)
Definition re_small_number : re :=
  seqs [Bnd; Grp 1 (between 1 2 digit);
        opt (Grp 2 (Seq (lit (ch ":")) (times 2 digit))); Bnd].

Definition DAY_WORDS : list text :=
  map u ["hoy"; "mañana"; "manana";
         "lunes"; "martes"; "miércoles"; "miercoles"; "jueves"; "viernes";
         "sábado"; "sabado"; "domingo";
         "próximo"; "proximo";
         "enero"; "febrero"; "marzo"; "abril"; "mayo"; "junio"; "julio";
         "agosto"; "septiembre"; "setiembre";
         "octubre"; "noviembre"; "diciembre";
         "en "; "dentro"; "esta tarde"; "esta noche"]%string.

(** [(recuérdame|recuerdame|recordame)] *)
Definition REMINDER_VERBS : list string :=
  ["recuérdame"; "recuerdame"; "recordame"]%string.

(** [(min|minuto|minutos|m|hora|horas|h)] *)
Definition UNITS : list string :=
  ["min"; "minuto"; "minutos"; "m"; "hora"; "horas"; "h"]%string.

Definition WEEKDAYS : list string :=
  ["lunes"; "martes"; "miércoles"; "miercoles"; "jueves"; "viernes";
   "sábado"; "sabado"; "domingo"]%string.

Definition MONTH_NAMES : list string :=
  ["enero"; "febrero"; "marzo"; "abril"; "mayo"; "junio"; "julio"; "agosto";
   "septiembre"; "setiembre"; "octubre"; "noviembre"; "diciembre"]%string.

(** [\ben\s+(\d+)\s*(min|minuto|minutos|m|hora|horas|h)\b] *)
Definition re_relative : re :=
  seqs [Bnd; str "en"; plus space; Grp 1 (plus digit); Star space;
        Grp 2 (words UNITS); Bnd].

(** The same pattern under [re.IGNORECASE]. *)
Definition re_relative_i : re :=
  seqs [Bnd; str_i "en"; plus space; plus digit; Star space;
        Grp 1 (words_i UNITS); Bnd].

(** [^(recuérdame|recuerdame|recordame)\s+] under [re.IGNORECASE] *)
Definition re_leading_verb : re :=
  seqs [Bol; Grp 1 (words_i REMINDER_VERBS); plus space].

(** A double quote, [([^q]+)] with [q] the double quote, a double quote. *)
Definition re_quoted : re :=
  seqs [lit 34; Grp 1 (plus (none_of [34])); lit 34].

(** [\b{mname}\b] for a month name. *)
Definition re_month (mname : string) : re := seqs [Bnd; str mname; Bnd].

(** [\b(20\d{2})\b] *)
Definition re_year : re := seqs [Bnd; Grp 1 (seqs [str "20"; times 2 digit]); Bnd].

(** A handler either returns or lets an exception escape. *)
Inductive result (A : Type) :=
| Ok (a : A)
| Raise.
Arguments Ok {A} a.
Arguments Raise {A}.

Section Bot.

#[local] Set Default Proof Using "Type".

(** Drops the configuration a proof does not need from its context. *)
Ltac tidy :=
  repeat match goal with
         | x : _ |- _ => clear x
         end.

(** Configuration read from the environment when the module is loaded.
    [LOCAL_TZ] is the UTC offset, in minutes, of the zone named by [TZ]. *)
Variable LOCAL_TZ : Z.
Variable DEFAULT_HOUR : text.
Variable RETRY_EVERY_MINUTES : Z.
Variable MAX_RETRIES : Z.

(** [dateparser.parse(text, languages=["es"], settings=...)] as a function
    of the text and of [RELATIVE_BASE]. *)
Variable dateparser_parse : text -> datetime -> option datetime.

(** [datetime.now(LOCAL_TZ)] when the clock reads the instant [now]. *)
Definition now_local (now : Z) : datetime := astimezone LOCAL_TZ (at_utc now).

(** [from_utc_iso] of a stored timestamp. *)
Definition from_utc_iso (t : Z) : datetime := astimezone LOCAL_TZ (at_utc t).

(** The text handed to the date parser by [parse_date_time_from_text]
    (its variable [augmented]). *)
Definition augmented (txt : text) : text :=
  let cleaned := strip_money_candidates txt in
  let tl := lower cleaned in
  let has_time := text_has_time_hints cleaned || matches re_small_number tl in
  let mentions_day := any_in DAY_WORDS tl in
  if mentions_day && negb has_time then cleaned ++ u " " ++ DEFAULT_HOUR
  else cleaned.

Definition parse_date_time_from_text (now : Z) (txt : text) : option datetime :=
  dateparser_parse (augmented txt) (now_local now).

(** The task derived from the sentence when nothing is quoted. *)
Definition derive_task (cat : category) (cleaned : text) : text :=
  let sp := u " " in
  let tmp := cleaned in
  let tmp := re_sub (seqs [Bnd; words_i ["hoy"; "mañana"; "manana"; "el"; "este";
                     "esta"; "próximo"; "proximo"; "cada"]%string; Bnd]) sp tmp in
  let tmp := re_sub (seqs [Bnd; words_i WEEKDAYS; Bnd]) sp tmp in
  let tmp := re_sub (seqs [Bnd; words_i MONTH_NAMES; Bnd]) sp tmp in
  let tmp := re_sub (seqs [Bnd; between 1 2 digit;
                           Grp 1 (Seq (lit (ch ":")) (times 2 digit)); Star space;
                           opt (Grp 2 (words_i ["am"; "pm"]%string)); Bnd]) sp tmp in
  let tmp := re_sub (seqs [Bnd; between 1 2 digit; Star space;
                           Grp 1 (words_i ["am"; "pm"]%string); Bnd]) sp tmp in
  let tmp := re_sub (seqs [Bnd; times 4 digit; lit (ch "-"); times 2 digit;
                           lit (ch "-"); times 2 digit; Bnd]) sp tmp in
  let tmp := re_sub (seqs [Bnd; between 1 2 digit; Bnd]) sp tmp in
  let tmp := strip_money_candidates tmp in
  let tmp := strip_chars (u " ,.-") (re_sub (plus space) sp tmp) in
  let tmp :=
    match cat with
    | Pago => if negb (contains (u "pagar") (lower tmp))
              then strip (u "pagar " ++ tmp) else tmp
    | General => tmp
    end in
  if (3 <=? length tmp)%nat then tmp else cleaned.

Definition parse_create_intent (now : Z) (txt : text) : option ParsedCreate :=
  let t := strip txt in
  let tl := lower t in
  let is_reminder := any_in (map u REMINDER_VERBS) tl in
  let is_pay_word :=
    any_in (map u ["pagar"; "pago"; "debo pagar"; "tengo que pagar"; "debo"]%string) tl in
  if negb (is_reminder || is_pay_word) then None
  else
    let task :=
      match re_search re_quoted t with
      | Some q => match group 1 q with Some g => strip g | None => [] end
      | None => []
      end in
    let amount := parse_amount_cop_strict t in
    let cat :=
      match amount with
      | Some _ => Pago
      | None => if is_pay_word then Pago else General
      end in
    match re_search re_relative tl with
    | Some rel =>
        match group 1 rel, group 2 rel with
        | Some g1, Some unit =>
            match python_int g1 with
            | Some n =>
                let mins :=
                  if member unit (map u ["min"; "minuto"; "minutos"; "m"]%string)
                  then n else n * 60 in
                let due_local := dt_add (now_local now) (timedelta_minutes mins) in
                let task :=
                  match task with
                  | [] =>
                      let tmp := strip (re_sub re_leading_verb [] t) in
                      let tmp := strip (re_sub re_relative_i [] tmp) in
                      match strip_chars (u " ,.-") tmp with
                      | [] => u "Recordatorio"
                      | t' => t'
                      end
                  | _ => task
                  end in
                Some (MkParsedCreate task (Some due_local) amount cat)
            | None => None
            end
        | _, _ => None
        end
    | None =>
        let cleaned := strip (re_sub re_leading_verb [] t) in
        let due_local := parse_date_time_from_text now cleaned in
        let task :=
          match task with
          | [] => derive_task cat cleaned
          | _ => task
          end in
        Some (MkParsedCreate task due_local amount cat)
    end.

(** *** Quincena *)

(** [None] stands for the [ValueError] of an impossible date. *)
Definition quincena_range (year month which : Z) : option (datetime * datetime) :=
  if which =? 1 then
    match datetime_new year month 1 0 0 LOCAL_TZ,
          datetime_new year month 15 23 59 LOCAL_TZ with
    | Some start, Some end_ => Some (start, end_)
    | _, _ => None
    end
  else
    match month_days year month with
    | Some last_day =>
        match datetime_new year month 16 0 0 LOCAL_TZ,
              datetime_new year month last_day 23 59 LOCAL_TZ with
        | Some start, Some end_ => Some (start, end_)
        | _, _ => None
        end
    | None => None
    end.

Definition period := (datetime * datetime * text)%type.

Definition current_quincena_range (now : Z) : option period :=
  let today := now_local now in
  let which := if dt_day today <=? 15 then 1 else 2 in
  match quincena_range (dt_year today) (dt_month today) which with
  | Some (start, end_) =>
      Some (start, end_,
            if which =? 1 then u "esta primera quincena"
            else u "esta segunda quincena")
  | None => None
  end.

(** The outcome of [parse_quincena_query]: a period, Python's [None], or
    an exception. *)
Inductive quincena_result :=
| QPeriod (p : period)
| QNone
| QRaised.

Definition parse_quincena_query (now : Z) (txt : text) : quincena_result :=
  let tl := lower txt in
  if contains (u "esta quincena") tl then
    match current_quincena_range now with
    | Some p => QPeriod p
    | None => QRaised
    end
  else
    let which :=
      if contains (u "primera quincena") tl then Some 1
      else if contains (u "segunda quincena") tl then Some 2
      else None in
    match find (fun mm => matches (re_month (fst mm)) tl) MONTHS_ES with
    | None => QNone
    | Some (month_name, month) =>
        let ym := re_search re_year tl in
        let y :=
          match ym with
          | Some m =>
              match group 1 m with
              | Some g => match python_int g with Some y => y | None => 0 end
              | None => 0
              end
          | None => dt_year (now_local now)
          end in
        let which :=
          match which with
          | Some w => w
          | None =>
              if (month =? dt_month (now_local now)) && (y =? dt_year (now_local now))
              then (if dt_day (now_local now) <=? 15 then 1 else 2)
              else 1
          end in
        match quincena_range y month which with
        | Some (start, end_) =>
            QPeriod (start, end_,
                     (if which =? 1 then u "primera" else u "segunda")
                     ++ u " quincena de " ++ u month_name ++ u " " ++ str_of_nonneg y)
        | None => QRaised
        end
    end.

(** *** Formatting *)

(** One constructor per message template of the bot. *)
Inductive message :=
| MsgNoReminders
| MsgList (title : text) (rows : list reminder)
| MsgNoPays (label : text)
| MsgPaySum (label : text) (pays : list reminder) (total : Z)
| MsgDeleteReport (deleted not_found : list Z)
| MsgCommands
| MsgNotUnderstood
| MsgNotFound
| MsgRescheduled (rid : Z) (due : datetime)
| MsgSaved (rid : Z) (due : datetime) (task : text) (amount : option Z)
| MsgNoPending
| MsgDone (rid : Z) (task : text)
| MsgAskWhen (task : text) (amount : option Z)
| MsgFallback
| MsgAlreadyResolved
| MsgMarkedDone (rid : Z) (task : text)
| MsgAskReschedule
| MsgSnoozed (rid : Z) (due : datetime)
| MsgReminder (chat_id : Z) (task : text) (rid : Z).

Definition format_list (rows : list reminder) (title : text) : message :=
  match rows with
  | [] => MsgNoReminders
  | _ => MsgList title rows
  end.

Definition is_payment (r : reminder) : bool :=
  match r_amount_cop r with
  | Some _ => true
  | None => category_eqb (r_category r) Pago
  end.

Definition pay_total (pays : list reminder) : Z :=
  fold_right (fun r acc => match r_amount_cop r with Some a => a | None => 0 end + acc)
             0 pays.

Definition format_pay_sum (rows : list reminder) (label : text) : message :=
  let pays := List.filter is_payment rows in
  match pays with
  | [] => MsgNoPays label
  | _ => MsgPaySum label pays (pay_total pays)
  end.

(** *** Natural language features *)

(** [dict.fromkeys]-style removal of repeated ids, first occurrence kept. *)
Fixpoint dedup (seen : list Z) (ids : list Z) : list Z :=
  match ids with
  | [] => []
  | x :: ids' =>
      if existsb (Z.eqb x) seen then dedup seen ids'
      else x :: dedup (x :: seen) ids'
  end.

Definition parse_delete_request (txt : text) : option (list Z) :=
  let tl := lower (strip txt) in
  match re_match (seqs [Bol; Grp 1 (words ["borrar"; "borra"; "eliminar"; "elimina"]%string); Bnd]) tl with
  | None => None
  | Some _ =>
      let nums := re_findall1 (seqs [opt (lit (ch "#")); Grp 1 (plus digit)]) tl in
      match nums with
      | [] => None
      | _ =>
          let ids := flat_map (fun n => match python_int n with
                                        | Some i => [i]
                                        | None => []
                                        end) nums in
          match dedup [] ids with
          | [] => None
          | out => Some out
          end
      end
  end.

Definition is_pending_list_request (txt : text) : bool :=
  member (lower (strip txt))
    (map u ["lista"; "generar lista"; "generar la lista"; "genera lista";
            "genera la lista"]%string).

Definition is_full_list_request (txt : text) : bool :=
  member (lower (strip txt))
    (map u ["genera toda la lista"; "generar toda la lista"; "toda la lista";
            "lista completa"]%string).

Definition is_quincena_list_request (txt : text) : bool :=
  member (lower (strip txt))
    (map u ["genera toda la de la quincena"; "generar toda la de la quincena";
            "lista de la quincena"; "toda la quincena"]%string).

Definition is_commands_request (txt : text) : bool :=
  member (lower (strip txt))
    (map u ["generar lista de comandos"; "genera comando"; "comandos";
            "comandos disponibles"; "ayuda"]%string).

(** *** Interactive state *)

(** The dictionaries stored in [context.user_data]. *)
Inductive payload :=
| PayloadNew (task : text) (amount_cop : option Z) (cat : category)
| PayloadResched (rid : Z).

Definition KEY_NEW : string := "awaiting_datetime_for_new".
Definition KEY_RESCHEDULE : string := "awaiting_datetime_for_reschedule".

Definition set_awaiting_datetime_for_new (p : payload)
  (ud : gmap string payload) : gmap string payload :=
  <[KEY_NEW := p]> ud.

Definition pop_awaiting_datetime_for_new (ud : gmap string payload)
  : option payload * gmap string payload :=
  (ud !! KEY_NEW, delete KEY_NEW ud).

Definition is_awaiting_datetime_for_new (ud : gmap string payload) : bool :=
  match ud !! KEY_NEW with Some _ => true | None => false end.

Definition set_awaiting_datetime_for_reschedule (p : payload)
  (ud : gmap string payload) : gmap string payload :=
  <[KEY_RESCHEDULE := p]> ud.

Definition pop_awaiting_datetime_for_reschedule (ud : gmap string payload)
  : option payload * gmap string payload :=
  (ud !! KEY_RESCHEDULE, delete KEY_RESCHEDULE ud).

Definition is_awaiting_datetime_for_reschedule (ud : gmap string payload) : bool :=
  match ud !! KEY_RESCHEDULE with Some _ => true | None => false end.

(** What a handler works on: the chat's [user_data], the table, and the
    messages sent so far. *)
Record world := World {
  user_data : gmap string payload;
  db : table;
  outbox : list message
}.

Definition reply (m : message) (ud : gmap string payload) (t : table) (w : world) : world :=
  World ud t (outbox w ++ [m]).

(** *** Callback buttons *)

(** [s.split(sep)] for a one-character separator. *)
Fixpoint split_on (sep : Z) (s : text) : list text :=
  match s with
  | [] => [[]]
  | c :: s' =>
      if c =? sep then [] :: split_on sep s'
      else
        match split_on sep s' with
        | p :: ps => (c :: p) :: ps
        | [] => [[c]]
        end
  end.

(** [int(data.split(":")[1])] *)
Definition callback_rid (data : text) : option Z :=
  match nth_error (split_on (ch ":") data) 1 with
  | Some p => python_int p
  | None => None
  end.

Definition on_callback (now chat_id : Z) (data : text) (w : world) : result world :=
  if startswith (u "done:") data then
    match callback_rid data with
    | None => Raise
    | Some rid =>
        match mark_done now chat_id (Some rid) (db w) with
        | (db', None) => Ok (reply MsgAlreadyResolved (user_data w) db' w)
        | (db', Some (rid2, task)) =>
            Ok (reply (MsgMarkedDone rid2 task) (user_data w) db' w)
        end
    end
  else if startswith (u "resched:") data then
    match callback_rid data with
    | None => Raise
    | Some rid =>
        Ok (reply MsgAskReschedule
              (set_awaiting_datetime_for_reschedule (PayloadResched rid) (user_data w))
              (db w) w)
    end
  else if startswith (u "snooze1h:") data then
    match callback_rid data with
    | None => Raise
    | Some rid =>
        match update_reminder_time chat_id rid
                (dt_add (now_local now) (timedelta_hours 1)) (db w) with
        | (db', None) => Ok (reply MsgNotFound (user_data w) db' w)
        | (db', Some due_utc) =>
            Ok (reply (MsgSnoozed rid (from_utc_iso due_utc)) (user_data w) db' w)
        end
    end
  else Ok w.

(** *** Text interpreter *)

(** The loop of step 0: delete each id, sorting it into [deleted] or
    [not_found]. *)
Definition delete_all (chat_id : Z) (ids : list Z) (t : table)
  : table * list Z * list Z :=
  fold_left
    (fun (acc : table * list Z * list Z) (rid : Z) =>
       let '(t, deleted, not_found) := acc in
       match delete_reminder chat_id rid t with
       | (t', Some _) => (t', deleted ++ [rid], not_found)
       | (t', None) => (t', deleted, not_found ++ [rid])
       end)
    ids (t, [], []).

Definition SUM_WORDS : list text :=
  map u ["suma"; "sumame"; "sumar"; "cuanto debo"; "cuánto debo";
         "cuanto tengo"; "total"]%string.

(** Steps 3 to 5 and the fallback of [on_text]. *)
Definition on_text_intents (now chat_id : Z) (txt : text) (w : world) : result world :=
  let tl := lower txt in
  if looks_like_confirm txt then
    match mark_done now chat_id None (db w) with
    | (db', None) => Ok (reply MsgNoPending (user_data w) db' w)
    | (db', Some (rid, task)) => Ok (reply (MsgDone rid task) (user_data w) db' w)
    end
  else if contains (u "quincena") tl && any_in SUM_WORDS tl then
    let q :=
      match parse_quincena_query now txt with
      | QPeriod p => Some p
      | QNone => current_quincena_range now
      | QRaised => None
      end in
    match q with
    | None => Raise
    | Some (start, end_, label) =>
        let rows := fetch_range chat_id start end_ None (db w) in
        Ok (reply (format_pay_sum rows label) (user_data w) (db w) w)
    end
  else
    match parse_create_intent now txt with
    | Some parsed =>
        match pc_due_local parsed with
        | None =>
            Ok (reply (MsgAskWhen (pc_task parsed) (pc_amount_cop parsed))
                  (set_awaiting_datetime_for_new
                     (PayloadNew (pc_task parsed) (pc_amount_cop parsed)
                                 (pc_category parsed)) (user_data w))
                  (db w) w)
        | Some due_local =>
            let '(db', (rid, due_utc)) :=
              insert_reminder now chat_id (pc_task parsed) due_local
                (pc_amount_cop parsed) (pc_category parsed) (db w) in
            Ok (reply (MsgSaved rid (from_utc_iso due_utc) (pc_task parsed)
                         (pc_amount_cop parsed)) (user_data w) db' w)
        end
    | None => Ok (reply MsgFallback (user_data w) (db w) w)
    end.

(** Steps 1 and 2 of [on_text]: a pending continuation takes the message
    as the awaited date. *)
Definition on_text_continuation (now chat_id : Z) (txt : text) (w : world)
  : result world :=
  if is_awaiting_datetime_for_reschedule (user_data w) then
    match pop_awaiting_datetime_for_reschedule (user_data w) with
    | (Some (PayloadResched rid as p), ud) =>
        match parse_date_time_from_text now txt with
        | None =>
            Ok (reply MsgNotUnderstood
                  (set_awaiting_datetime_for_reschedule p ud) (db w) w)
        | Some dt =>
            match update_reminder_time chat_id rid dt (db w) with
            | (db', None) => Ok (reply MsgNotFound ud db' w)
            | (db', Some due_utc) =>
                Ok (reply (MsgRescheduled rid (from_utc_iso due_utc)) ud db' w)
            end
        end
    | _ => Raise
    end
  else if is_awaiting_datetime_for_new (user_data w) then
    match pop_awaiting_datetime_for_new (user_data w) with
    | (Some p, ud) =>
        match parse_date_time_from_text now txt with
        | None =>
            Ok (reply MsgNotUnderstood (set_awaiting_datetime_for_new p ud) (db w) w)
        | Some dt =>
            match p with
            | PayloadNew task amount cat =>
                let '(db', (rid, due_utc)) :=
                  insert_reminder now chat_id task dt amount cat (db w) in
                Ok (reply (MsgSaved rid (from_utc_iso due_utc) task amount) ud db' w)
            | PayloadResched _ => Raise
            end
        end
    | (None, _) => Raise
    end
  else on_text_intents now chat_id txt w.

Definition on_text (now chat_id : Z) (message_text : text) (w : world)
  : result world :=
  let txt := strip message_text in
  match parse_delete_request txt with
  | Some ids =>
      let '(db', deleted, not_found) := delete_all chat_id ids (db w) in
      Ok (reply (MsgDeleteReport deleted not_found) (user_data w) db' w)
  | None =>
      if is_commands_request txt then
        Ok (reply MsgCommands (user_data w) (db w) w)
      else if is_pending_list_request txt then
        let rows := fetch_reminders chat_id (Some Pending) 200 (db w) in
        Ok (reply (format_list rows (u "🗓️ Pendientes:")) (user_data w) (db w) w)
      else if is_full_list_request txt then
        let rows := fetch_reminders chat_id None 200 (db w) in
        Ok (reply (format_list rows (u "🗂️ Lista completa:")) (user_data w) (db w) w)
      else if is_quincena_list_request txt then
        match current_quincena_range now with
        | Some (start, end_, label) =>
            let rows := fetch_range chat_id start end_ None (db w) in
            Ok (reply (format_list rows (u "🗓️ Lista en " ++ label ++ u ":"))
                  (user_data w) (db w) w)
        | None => Raise
        end
      else on_text_continuation now chat_id txt w
  end.

(** *** Scheduler *)

(** [UPDATE reminders SET retry_count=retry_count+1, last_sent_utc=?] *)
Definition set_sent (now : Z) (r : reminder) : reminder :=
  Reminder (r_id r) (r_chat_id r) (r_task r) (r_due_utc r) (r_status r)
    (r_amount_cop r) (r_category r) (r_created_utc r) (r_completed_utc r)
    (r_retry_count r + 1) (Some now).

(** A delivery attempt of a tick and whether the transport accepted it. *)
Record attempt := Attempt {
  a_rid : Z;
  a_chat_id : Z;
  a_delivered : bool
}.

(** What the loop body of [tick_job] does with a row of the snapshot:
    [continue] (not due yet, or inside the cooldown), close it, or attempt
    a delivery that the transport accepts or refuses. *)
Inductive tick_action := Skip | Close | Sent | Failed.

(** [send_message chat_id task rid] is [false] when the transport raises.
    The cooldown test compares microseconds instead of floating-point
    minutes. *)
Definition tick_decide (now : Z) (send_message : Z -> text -> Z -> bool)
  (row : reminder) : tick_action :=
  if now <? r_due_utc row then Skip
  else if MAX_RETRIES <=? r_retry_count row then Close
  else if match r_last_sent_utc row with
          | Some last => now - last <? RETRY_EVERY_MINUTES * us_per_minute
          | None => false
          end then Skip
  else if send_message (r_chat_id row) (r_task row) (r_id row) then Sent
  else Failed.

(** One iteration of the loop of [tick_job]. *)
Definition tick_row (now : Z) (send_message : Z -> text -> Z -> bool)
  (acc : table * list attempt) (row : reminder) : table * list attempt :=
  let '(t, log) := acc in
  match tick_decide now send_message row with
  | Skip => acc
  | Close => (sql_update (fun r => r_id r =? r_id row) (set_done now) t, log)
  | Sent =>
      (sql_update (fun r => r_id r =? r_id row) (set_sent now) t,
       log ++ [Attempt (r_id row) (r_chat_id row) true])
  | Failed => (t, log ++ [Attempt (r_id row) (r_chat_id row) false])
  end.

Definition tick_job (now : Z) (send_message : Z -> text -> Z -> bool) (t : table)
  : table * list attempt :=
  let rows := List.filter (fun r => status_eqb (r_status r) Pending) t in
  fold_left (tick_row now send_message) rows (t, []).

(** ** Vocabulary of the statements *)

(** [id INTEGER PRIMARY KEY]: no two rows share an id. *)
Definition wf_table (t : table) : Prop := List.NoDup (map r_id t).

(** The row of a chat with a given id, and the row with a given id. *)
Definition get_row (chat_id rid : Z) (t : table) : option reminder :=
  find (fun r => (r_chat_id r =? chat_id) && (r_id r =? rid)) t.

Definition by_id (rid : Z) (t : table) : option reminder :=
  find (fun r => r_id r =? rid) t.

(** A row after a reschedule to [due]: reopened, retry bookkeeping reset,
    everything else kept. *)
Definition rescheduled_from (due : Z) (r r' : reminder) : Prop :=
  r_status r' = Pending /\ r_retry_count r' = 0 /\ r_last_sent_utc r' = None
  /\ r_due_utc r' = due
  /\ r_id r' = r_id r /\ r_chat_id r' = r_chat_id r /\ r_task r' = r_task r
  /\ r_amount_cop r' = r_amount_cop r /\ r_category r' = r_category r
  /\ r_created_utc r' = r_created_utc r /\ r_completed_utc r' = r_completed_utc r.

(** The table without its deleted rows. *)
Definition without_deleted (t : table) : table :=
  List.filter (fun r => negb (status_eqb (r_status r) Deleted)) t.

(** The specification's wording of the amount extraction: with a money
    keyword, the largest value among the candidates that have no colon
    and at least four digits. *)
Definition has_money_context (txt : text) : bool :=
  any_in (map u ["pagar"; "pago"; "pesos"; "cop"; "$"; "debo"]%string) (lower txt).

Definition eligible_candidate (c : text) : bool :=
  negb (contains (u ":") c) && (4 <=? length (only_digits c))%nat.

Definition candidate_value (c : text) : Z :=
  match python_int (only_digits c) with Some v => v | None => 0 end.

Definition largest (vs : list Z) : option Z :=
  fold_right (fun v acc => match acc with
                           | None => Some v
                           | Some b => Some (Z.max v b)
                           end) None vs.

Definition extract_amount_spec (txt : text) : option Z :=
  if has_money_context txt then
    largest (map candidate_value
               (List.filter eligible_candidate (re_findall re_amount_candidate txt)))
  else None.

(** The same with the candidates of value zero discarded as well. *)
Definition amount_values (txt : text) : list Z :=
  List.filter (fun v => 0 <? v)
    (map candidate_value
       (List.filter eligible_candidate (re_findall re_amount_candidate txt))).

(** A reminder that a tick at [now] hands to the transport. *)
Definition eligible (now : Z) (r : reminder) : Prop :=
  r_status r = Pending /\ r_due_utc r <= now /\ r_retry_count r < MAX_RETRIES
  /\ match r_last_sent_utc r with
     | Some last => RETRY_EVERY_MINUTES * us_per_minute <= now - last
     | None => True
     end.

(** The effect of a tick on one row, and the attempts it makes for it. *)
Definition tick_step (now : Z) (send_message : Z -> text -> Z -> bool)
  (r : reminder) : reminder :=
  if status_eqb (r_status r) Pending then
    match tick_decide now send_message r with
    | Close => set_done now r
    | Sent => set_sent now r
    | Skip | Failed => r
    end
  else r.

Definition tick_attempts (now : Z) (send_message : Z -> text -> Z -> bool)
  (r : reminder) : list attempt :=
  if status_eqb (r_status r) Pending then
    match tick_decide now send_message r with
    | Sent => [Attempt (r_id r) (r_chat_id r) true]
    | Failed => [Attempt (r_id r) (r_chat_id r) false]
    | Skip | Close => []
    end
  else [].

(** The store operations other than a reschedule, and a run of them. *)
Inductive store_op :=
| OpTick (now : Z) (send_message : Z -> text -> Z -> bool)
| OpInsert (now chat_id : Z) (task : text) (due_local : datetime)
           (amount_cop : option Z) (cat : category)
| OpMarkDone (now chat_id : Z) (rid : option Z)
| OpDelete (chat_id rid : Z).

Definition run_op (acc : table * list attempt) (op : store_op)
  : table * list attempt :=
  let '(t, log) := acc in
  match op with
  | OpTick now send_message =>
      let '(t', l) := tick_job now send_message t in (t', log ++ l)
  | OpInsert now chat_id task due_local amount_cop cat =>
      (fst (insert_reminder now chat_id task due_local amount_cop cat t), log)
  | OpMarkDone now chat_id rid => (fst (mark_done now chat_id rid t), log)
  | OpDelete chat_id rid => (fst (delete_reminder chat_id rid t), log)
  end.

Definition run_ops (ops : list store_op) (t : table) : table * list attempt :=
  fold_left run_op ops (t, []).

(** Whether the text is taken by step 0 of [on_text]: a delete request or
    one of the fixed phrases. *)
Definition is_fixed_command (txt : text) : bool :=
  match parse_delete_request txt with
  | Some _ => true
  | None =>
      is_commands_request txt || is_pending_list_request txt
      || is_full_list_request txt || is_quincena_list_request txt
  end.

(** A continuation is pending. *)
Definition awaiting (ud : gmap string payload) : Prop :=
  is_awaiting_datetime_for_reschedule ud = true
  \/ is_awaiting_datetime_for_new ud = true.

(** The payloads are those the bot stores: a reminder id under the
    reschedule key, a pending creation under the other. *)
Definition payload_shapes (ud : gmap string payload) : Prop :=
  (forall p, ud !! KEY_RESCHEDULE = Some p -> exists rid, p = PayloadResched rid)
  /\ (forall p, ud !! KEY_NEW = Some p ->
        exists task amount cat, p = PayloadNew task amount cat).

(** What the continuation does with a message: the payload is popped and
    the message goes to the date and time extractor. *)
Definition continuation_outcome (now chat_id : Z) (txt : text) (w : world)
  : result world :=
  match user_data w !! KEY_RESCHEDULE, user_data w !! KEY_NEW with
  | Some (PayloadResched rid), _ =>
      match parse_date_time_from_text now txt with
      | None => Ok (World (user_data w) (db w) (outbox w ++ [MsgNotUnderstood]))
      | Some dt =>
          match update_reminder_time chat_id rid dt (db w) with
          | (db', None) =>
              Ok (World (delete KEY_RESCHEDULE (user_data w)) db'
                    (outbox w ++ [MsgNotFound]))
          | (db', Some due_utc) =>
              Ok (World (delete KEY_RESCHEDULE (user_data w)) db'
                    (outbox w ++ [MsgRescheduled rid (from_utc_iso due_utc)]))
          end
      end
  | None, Some (PayloadNew task amount cat) =>
      match parse_date_time_from_text now txt with
      | None => Ok (World (user_data w) (db w) (outbox w ++ [MsgNotUnderstood]))
      | Some dt =>
          let '(db', (rid, due_utc)) :=
            insert_reminder now chat_id task dt amount cat (db w) in
          Ok (World (delete KEY_NEW (user_data w)) db'
                (outbox w ++ [MsgSaved rid (from_utc_iso due_utc) task amount]))
      end
  | _, _ => Raise
  end.

(** The sentence "<half> quincena de <month> 20<d1><d2>". *)
Definition quincena_text (half mname : string) (d1 d2 : Z) : text :=
  u half ++ u " quincena de " ++ u mname ++ u " 20" ++ [48 + d1; 48 + d2].

(** The calendar reading of a datetime. *)
Definition civil (dt : datetime) : Z * Z * Z * Z * Z * Z * Z :=
  (dt_year dt, dt_month dt, dt_day dt, dt_hour dt, dt_minute dt,
   dt_second dt, dt_microsecond dt).

(** What [parse_quincena_query] reads in a text: no "esta quincena", the
    half, the first month name of [MONTHS_ES] and the year. *)
Definition reads_quincena (txt : text) (which : Z) (mm : string * Z) (y : Z) : bool :=
  let tl := lower txt in
  negb (contains (u "esta quincena") tl)
  && match (if contains (u "primera quincena") tl then Some 1
            else if contains (u "segunda quincena") tl then Some 2
            else None) with
     | Some w => w =? which
     | None => false
     end
  && match find (fun mm' => matches (re_month (fst mm')) tl) MONTHS_ES with
     | Some mm' => String.eqb (fst mm') (fst mm) && (snd mm' =? snd mm)
     | None => false
     end
  && match re_search re_year tl with
     | Some mt =>
         match group 1 mt with
         | Some g => match python_int g with Some y' => y' =? y | None => false end
         | None => false
         end
     | None => false
     end.

Definition civil_is (dt : option datetime) (y m d h mi : Z) : bool :=
  match dt with
  | Some dt =>
      (dt_year dt =? y) && (dt_month dt =? m) && (dt_day dt =? d)
      && (dt_hour dt =? h) && (dt_minute dt =? mi)
      && (dt_second dt =? 0) && (dt_microsecond dt =? 0)
  | None => false
  end.

(** The four corners of the two windows of a month read back as the
    dates they were built from. *)
Definition windows_ok (y m : Z) : bool :=
  civil_is (datetime_new y m 1 0 0 0) y m 1 0 0
  && civil_is (datetime_new y m 15 23 59 0) y m 15 23 59
  && civil_is (datetime_new y m 16 0 0 0) y m 16 0 0
  && match month_days y m with
     | Some last => civil_is (datetime_new y m last 23 59 0) y m last 23 59
     | None => false
     end.

Definition DIGITS : list Z := [0; 1; 2; 3; 4; 5; 6; 7; 8; 9].

(** The check of one month name with one year from 2000 to 2099. *)
Definition explicit_case_ok (mm : string * Z) (d1 d2 : Z) : bool :=
  let y := 2000 + 10 * d1 + d2 in
  reads_quincena (quincena_text "primera" (fst mm) d1 d2) 1 mm y
  && reads_quincena (quincena_text "segunda" (fst mm) d1 d2) 2 mm y
  && windows_ok y (snd mm).

(** Sample data for the examples. *)
Definition BOGOTA : Z := -300.
Definition NINE : text := u "09:00".
Definition sample_pending : reminder :=
  Reminder 1 7 (u "pagar luz") 1000 Pending (Some 5000) Pago (Some 0) None 0 None.
Definition sample_exhausted : reminder :=
  Reminder 1 7 (u "pagar luz") 1000 Pending (Some 5000) Pago (Some 0) None 24 (Some 900).
Definition sample_done : reminder :=
  Reminder 2 7 (u "botar basura") 1000 Done None General (Some 0) (Some 1500) 3 (Some 1200).
Definition sample_deleted : reminder :=
  Reminder 3 7 (u "pagar agua") 1000 Deleted (Some 9000) Pago (Some 0) None 0 None.
Definition never_parses (_ : text) (_ : datetime) : option datetime := None.
Definition always_parses (_ : text) (base : datetime) : option datetime := Some base.
Definition awaiting_new : gmap string payload :=
  {[ KEY_NEW := PayloadNew (u "llamar a mamá") None General ]}.
Definition awaiting_reschedule : gmap string payload :=
  {[ KEY_RESCHEDULE := PayloadResched 1 ]}.
Definition noon_2026_11_03 : Z :=
  days_from_civil 2026 11 3 * us_per_day + 12 * us_per_hour.

(** A stand-in for the date parser that knows one phrase: "mañana 09:00"
    is the day after the base date, at nine on the base's clock. *)
Definition sample_parser (txt : text) (base : datetime) : option datetime :=
  if text_eqb txt (u "mañana 09:00")
  then Some (DateTime ((wall base / us_per_day + 1) * us_per_day + 9 * us_per_hour)
                      (utcoffset base))
  else None.

Definition sample_table : table := [sample_pending; sample_done; sample_deleted].





(** ** More vocabulary *)

(** [a] is not after [b] in the order of [ORDER BY due_utc]. *)
Definition due_le (a b : reminder) : Prop :=
  sql_le (r_due_utc a) (r_due_utc b) = true.

(** The rows a query of [fetch_reminders] selects. *)
Definition listed (chat_id : Z) (st : option status) (r : reminder) : bool :=
  (r_chat_id r =? chat_id)
  && match st with
     | Some s => status_eqb (r_status r) s
     | None => negb (status_eqb (r_status r) Deleted)
     end.


(** The number of deliveries of a reminder that the transport accepted. *)
Definition deliveries (k : Z) (log : list attempt) : Z :=
  Z.of_nat (length (List.filter (fun a => (a_rid a =? k) && a_delivered a) log)).


(** What never changes in a reminder: its id, chat, task, amount,
    category and creation time. *)
Definition same_reminder (r r' : reminder) : Prop :=
  r_id r' = r_id r /\ r_chat_id r' = r_chat_id r /\ r_task r' = r_task r
  /\ r_amount_cop r' = r_amount_cop r /\ r_category r' = r_category r
  /\ r_created_utc r' = r_created_utc r.

(** A row before and after a handler of [chat] ran: the same reminder,
    untouched if it is of another chat or deleted. *)
Definition touched_by (chat : Z) (r r' : reminder) : Prop :=
  same_reminder r r'
  /\ (r_chat_id r <> chat -> r' = r)
  /\ (r_status r = Deleted -> r' = r).

(** A table before and after a handler of [chat] ran: the old rows in
    their places, followed by new rows of the chat. *)
Definition extends_for (chat : Z) (t t' : table) : Prop :=
  exists old new,
    t' = old ++ new /\ Forall2 (touched_by chat) t old
    /\ Forall (fun r => r_chat_id r = chat) new.


(** [str(n)] for an integer. *)
Definition str_of_int (n : Z) : text :=
  if n <? 0 then 45 :: str_of_nonneg (- n) else str_of_nonneg n.

(** An [InlineKeyboardButton]: its caption and its callback data. *)
Record button := Button {
  b_text : text;
  b_callback_data : text
}.

(** The rows of buttons under a reminder. *)
Definition reminder_keyboard (rid : Z) : list (list button) :=
  [ [ Button (u "✅ Ya lo hice") (u "done:" ++ str_of_int rid);
      Button (u "🔁 Recuérdame otra vez") (u "resched:" ++ str_of_int rid) ];
    [ Button (u "🕐 En 1 hora") (u "snooze1h:" ++ str_of_int rid) ] ].


(** The chat has a reminder with this id that is not deleted. *)
Definition deletable (chat : Z) (t : table) (rid : Z) : bool :=
  existsb (fun r => (r_chat_id r =? chat) && (r_id r =? rid)
                    && negb (status_eqb (r_status r) Deleted)) t.


(** The order of calendar dates. *)
Definition date_lt (a b : Z * Z * Z) : Prop :=
  let '(y, m, d) := a in
  let '(y', m', d') := b in
  y < y' \/ (y = y' /\ (m < m' \/ (m = m' /\ d < d'))).


(** The number that a run of decimal digits denotes after [acc]. *)
Definition digits_number (acc : Z) (s : text) : Z :=
  fold_left (fun a c => a * 10 + (c - 48)) s acc.

Definition pow10 (k : nat) : Z := 10 ^ Z.of_nat k.


(** More sample data: a chat without a pending continuation, a second
    pending reminder, and a transport that accepts everything. *)
Definition no_continuation : gmap string payload := ∅.
Definition sample_later : reminder :=
  Reminder 4 7 (u "llamar al banco") 90000000 Pending None General (Some 0) None 0 None.
Definition accepting (_ : Z) (_ : text) (_ : Z) : bool := true.
Definition two_pending : table := [sample_later; sample_pending; sample_done].

(** *** The texts and numbers the embedding covers *)

(** Every code point of the text is one of Basic Latin or Latin-1
    Supplement, where the character tables are Python's. *)
Definition latin1 (s : text) : bool := forallb (in_range 0 255) s.

(** A text of a Telegram update: in [latin1], and of at most 4096 code
    points, the longest message Telegram delivers (so a run of digits in
    it stays below the 4300 digits beyond which [int] raises
    [ValueError]). *)
Definition covered (s : text) : bool :=
  latin1 s && (length s <=? 4096)%nat.

(** The integers SQLite stores, 64 bits signed; on any other [sqlite3]
    raises [OverflowError] when the statement is bound. *)
Definition sqlite_integer (n : Z) : bool :=
  (-9223372036854775808 <=? n) && (n <=? 9223372036854775807).

Definition storable_amount (amount : option Z) : bool :=
  match amount with
  | Some a => sqlite_integer a
  | None => true
  end.

(** The numbers of a pending payload are [sqlite_integer]s. *)
Definition payload_storable (p : payload) : bool :=
  match p with
  | PayloadResched rid => sqlite_integer rid
  | PayloadNew _ amount _ => storable_amount amount
  end.

Definition payloads_storable (ud : gmap string payload) : Prop :=
  forall p,
    ud !! KEY_RESCHEDULE = Some p \/ ud !! KEY_NEW = Some p ->
    payload_storable p = true.

(** *** What a pattern matches *)

(** [matched r s s']: the pattern [r] matches from the state [s] and
    leaves the state [s'], in some way (not necessarily the one the
    backtracking matcher prefers). *)
Inductive matched : re -> mstate -> mstate -> Prop :=
| m_eps s : matched Eps s s
| m_chr p s c t :
    m_rest s = c :: t -> p c = true ->
    matched (Chr p) s (MState (Some c) t (m_caps s))
| m_seq a b s s1 s2 : matched a s s1 -> matched b s1 s2 -> matched (Seq a b) s s2
| m_alt_l a b s s' : matched a s s' -> matched (Alt a b) s s'
| m_alt_r a b s s' : matched b s s' -> matched (Alt a b) s s'
| m_star_stop a s : matched (Star a) s s
| m_star_more a s s1 s2 :
    matched a s s1 -> matched (Star a) s1 s2 -> matched (Star a) s s2
| m_bnd s : xorb (word_before s) (word_after s) = true -> matched Bnd s s
| m_bol s : m_prev s = None -> matched Bol s s
| m_grp n a s s' :
    matched a s s' ->
    matched (Grp n a) s
      (MState (m_prev s') (m_rest s') ((n, consumed s s') :: m_caps s')).

(** The last code point of [w], or [p] when [w] is empty. *)
Definition last_or (p : option Z) (w : text) : option Z :=
  match rev w with c :: _ => Some c | [] => p end.





(** ** Lemmas on tables *)

Lemma status_eqb_eq a b : status_eqb a b = true <-> a = b.
Proof. destruct a, b; simpl; split; congruence. Qed.

Lemma status_eqb_neq a b : status_eqb a b = false <-> a <> b.
Proof. destruct a, b; simpl; split; congruence. Qed.

Lemma find_absent (f : reminder -> bool) k t :
  (forall x, f x = true -> r_id x = k) ->
  ~ In k (map r_id t) -> find f t = None.
Proof.
  intros Hf Hk. induction t as [|a t IH]; simpl; [reflexivity|].
  destruct (f a) eqn:Ha.
  - exfalso. apply Hk. left. now apply Hf.
  - apply IH. intros Hin. apply Hk. now right.
Qed.

Lemma find_unique (f : reminder -> bool) k t r :
  wf_table t -> (forall x, f x = true -> r_id x = k) ->
  In r t -> r_id r = k ->
  find f t = if f r then Some r else None.
Proof.
  unfold wf_table. intros Hwf Hf Hin Hk.
  induction t as [|a t IH]; simpl in *; [contradiction|].
  inversion Hwf as [|? ? Hnotin Hwf']; subst.
  destruct Hin as [->|Hin].
  - destruct (f r) eqn:Hr; [reflexivity|].
    now apply (find_absent f (r_id r)).
  - destruct (f a) eqn:Ha.
    + exfalso. apply Hnotin. rewrite (Hf a Ha). now apply in_map.
    + now apply IH.
Qed.

Lemma wf_same_id t a b :
  wf_table t -> In a t -> In b t -> r_id a = r_id b -> a = b.
Proof.
  unfold wf_table. induction t as [|x t IH]; simpl; [contradiction|].
  intros Hwf Ha Hb Hid. inversion Hwf as [|? ? Hnotin Hwf']; subst.
  destruct Ha as [->|Ha], Hb as [->|Hb]; try reflexivity.
  - exfalso. apply Hnotin. rewrite Hid. now apply in_map.
  - exfalso. apply Hnotin. rewrite <- Hid. now apply in_map.
  - now apply IH.
Qed.

Lemma sql_update_ids cond set t :
  (forall x, r_id (set x) = r_id x) ->
  map r_id (sql_update cond set t) = map r_id t.
Proof.
  intros Hset. unfold sql_update. rewrite map_map. apply map_ext.
  intros x. destruct (cond x); auto.
Qed.

Lemma sql_update_wf cond set t :
  (forall x, r_id (set x) = r_id x) ->
  wf_table t -> wf_table (sql_update cond set t).
Proof. intros Hset. unfold wf_table. now rewrite sql_update_ids. Qed.

Lemma find_sql_update (f : reminder -> bool) cond set t :
  (forall x, f (set x) = f x) ->
  find f (sql_update cond set t)
  = option_map (fun x => if cond x then set x else x) (find f t).
Proof.
  intros Hf. induction t as [|a t IH]; simpl; [reflexivity|].
  destruct (cond a) eqn:Hc.
  - rewrite Hf. destruct (f a); simpl; [now rewrite Hc | apply IH].
  - destruct (f a); simpl; [now rewrite Hc | apply IH].
Qed.

Lemma sql_update_fixed cond set t :
  (forall x, In x t -> cond x = false) -> sql_update cond set t = t.
Proof.
  intros H. unfold sql_update. rewrite <- (map_id t) at 2. apply map_ext_in.
  intros x Hx. now rewrite H.
Qed.

(** What a reschedule does to the row it is asked for. *)
Lemma update_reminder_time_row chat rid dt t :
  wf_table t ->
  match get_row chat rid t with
  | Some r =>
      if status_eqb (r_status r) Deleted
      then update_reminder_time chat rid dt t = (t, None)
      else exists t' r',
          update_reminder_time chat rid dt t = (t', Some (instant dt))
          /\ get_row chat rid t' = Some r'
          /\ rescheduled_from (instant dt) r r'
          /\ (forall k, k <> rid -> by_id k t' = by_id k t)
          /\ wf_table t'
  | None => update_reminder_time chat rid dt t = (t, None)
  end.
Proof. tidy.
  intros Hwf. unfold update_reminder_time.
  destruct (get_row chat rid t) as [r|] eqn:Hget.
  - unfold get_row in Hget. destruct (find_some _ _ Hget) as [Hin Hr].
    apply andb_true_iff in Hr. destruct Hr as [Hc Hi].
    apply Z.eqb_eq in Hc, Hi.
    rewrite (find_unique _ rid t r Hwf); auto.
    2:{ intros x Hx. apply andb_true_iff in Hx. destruct Hx as [Hx _].
        apply andb_true_iff in Hx. destruct Hx as [_ Hx]. now apply Z.eqb_eq. }
    rewrite Hc, Hi, !Z.eqb_refl. simpl.
    destruct (status_eqb (r_status r) Deleted) eqn:Hst; simpl; [reflexivity|].
    eexists. exists (set_rescheduled (instant dt) r). split; [reflexivity|].
    split; [|split; [|split]].
    + unfold get_row. rewrite find_sql_update by reflexivity.
      fold (get_row chat rid t). unfold get_row. rewrite Hget. simpl.
      now rewrite Hc, Hi, !Z.eqb_refl.
    + unfold rescheduled_from. simpl. tauto.
    + intros k Hk. unfold by_id. rewrite find_sql_update by reflexivity.
      destruct (find (fun r0 => r_id r0 =? k) t) as [x|] eqn:Hx; simpl; [|reflexivity].
      destruct (find_some _ _ Hx) as [_ Hxk]. apply Z.eqb_eq in Hxk.
      replace (r_id x =? rid) with false; [now rewrite andb_false_r|].
      symmetry. apply Z.eqb_neq. lia.
    + now apply sql_update_wf.
  - destruct (find _ t) as [x|] eqn:Hx; [|reflexivity].
    exfalso. destruct (find_some _ _ Hx) as [Hin Hp].
    apply andb_true_iff in Hp. destruct Hp as [Hp _].
    unfold get_row in Hget. now rewrite (find_none _ _ Hget x Hin) in Hp.
Qed.


(** ** Listings *)

Lemma in_insert_by_due x r l : In x (insert_by_due r l) <-> x = r \/ In x l.
Proof. tidy.
  induction l as [|a l IH]; cbn [insert_by_due In].
  - intuition.
  - destruct (sql_le (r_due_utc a) (r_due_utc r)); cbn [In]; rewrite ?IH; intuition.
Qed.

Lemma in_order_by_due x l : In x (order_by_due l) <-> In x l.
Proof. tidy.
  unfold order_by_due.
  assert (H : forall acc, In x (fold_left (fun acc r => insert_by_due r acc) l acc)
                          <-> In x l \/ In x acc).
  { induction l as [|a l IH]; intros acc; simpl.
    - intuition.
    - rewrite IH, in_insert_by_due. intuition. }
  rewrite H. simpl. intuition.
Qed.

Lemma in_firstn {A} (x : A) n l : In x (firstn n l) -> In x l.
Proof.
  revert l. induction n as [|n IH]; intros [|a l]; simpl; try contradiction.
  intros [->|H]; [now left | right; now apply IH].
Qed.

Lemma filter_filter_implied {A} (f g : A -> bool) l :
  (forall x, f x = true -> g x = true) ->
  List.filter f (List.filter g l) = List.filter f l.
Proof.
  intros H. induction l as [|a l IH]; simpl; [reflexivity|].
  destruct (g a) eqn:Hg; simpl.
  - now rewrite IH.
  - destruct (f a) eqn:Hf; [|exact IH]. rewrite (H a Hf) in Hg. discriminate.
Qed.

Lemma fetch_range_not_deleted chat s e cat t r :
  In r (fetch_range chat s e cat t) -> r_status r <> Deleted.
Proof. tidy.
  unfold fetch_range. destruct cat as [c|]; rewrite in_order_by_due, filter_In;
    intros [_ H]; rewrite !andb_true_iff in H; intros Hd;
    rewrite Hd in H; simpl in H; intuition discriminate.
Qed.

Lemma fetch_range_without_deleted chat s e cat t :
  fetch_range chat s e cat t = fetch_range chat s e cat (without_deleted t).
Proof. tidy.
  unfold fetch_range, without_deleted.
  destruct cat as [c|]; f_equal; symmetry; apply filter_filter_implied;
    intros x H; rewrite !andb_true_iff in H; tauto.
Qed.

(** C8, as the code has it. A deleted reminder is in no result of
    [fetch_reminders] asked for no status, for pending or for done, and in
    no result of [fetch_range], whatever the range and the category; the
    listings and the payment sum are those of the table without its
    deleted rows.  (Asked for the status deleted, [fetch_reminders]
    returns deleted rows.) *)
Theorem deleted_rows_are_never_listed chat t :
  (forall st limit r, st <> Some Deleted ->
     In r (fetch_reminders chat st limit t) -> r_status r <> Deleted)
  /\ (forall s e cat r, In r (fetch_range chat s e cat t) -> r_status r <> Deleted)
  /\ (forall st limit, st <> Some Deleted ->
       fetch_reminders chat st limit t
       = fetch_reminders chat st limit (without_deleted t))
  /\ (forall s e cat,
       fetch_range chat s e cat t = fetch_range chat s e cat (without_deleted t))
  /\ (forall s e cat label,
       format_pay_sum (fetch_range chat s e cat t) label
       = format_pay_sum (fetch_range chat s e cat (without_deleted t)) label).
Proof.
  split; [|split; [|split; [|split]]].
  - intros st limit r Hst Hin Hd. unfold fetch_reminders in Hin.
    destruct st as [st|]; apply in_firstn in Hin;
      rewrite in_order_by_due, filter_In in Hin; destruct Hin as [_ H];
      rewrite andb_true_iff in H; destruct H as [_ H]; rewrite Hd in H.
    + destruct st; simpl in H; congruence.
    + discriminate.
  - intros s e cat r. apply fetch_range_not_deleted.
  - intros st limit Hst. unfold fetch_reminders, without_deleted.
    destruct st as [st|]; do 2 f_equal; symmetry; apply filter_filter_implied;
      intros x H; rewrite andb_true_iff in H; destruct H as [_ H].
    + destruct st, (r_status x); simpl in *; congruence.
    + exact H.
  - intros s e cat. apply fetch_range_without_deleted.
  - intros s e cat label. now rewrite <- fetch_range_without_deleted.
Qed.

(** ** Snooze *)




(** ** The scheduler tick, row by row *)

Lemma find_map_preserve (f : reminder -> bool) (g : reminder -> reminder) t :
  (forall x, f (g x) = f x) -> find f (map g t) = option_map g (find f t).
Proof.
  intros H. induction t as [|a t IH]; simpl; [reflexivity|].
  rewrite H. destruct (f a); [reflexivity | exact IH].
Qed.

Lemma by_id_in t r : wf_table t -> In r t -> by_id (r_id r) t = Some r.
Proof.
  intros Hwf Hin. unfold by_id.
  rewrite (find_unique _ (r_id r) t r Hwf); auto.
  - now rewrite Z.eqb_refl.
  - intros x Hx. now apply Z.eqb_eq.
Qed.

Lemma by_id_some k t r : by_id k t = Some r -> In r t /\ r_id r = k.
Proof.
  unfold by_id. intros H. destruct (find_some _ _ H) as [Hin Hk].
  split; [exact Hin | now apply Z.eqb_eq].
Qed.

Lemma sql_update_middle (g : reminder -> reminder) D x T :
  List.NoDup (map r_id (D ++ x :: T)) ->
  sql_update (fun r => r_id r =? r_id x) g (D ++ x :: T) = D ++ g x :: T.
Proof.
  intros Hnd. rewrite map_app in Hnd. simpl in Hnd.
  apply NoDup_remove_2 in Hnd.
  unfold sql_update. rewrite map_app. simpl. rewrite Z.eqb_refl.
  f_equal; [|f_equal].
  - apply sql_update_fixed. intros y Hy. apply Z.eqb_neq. intros Heq.
    apply Hnd, in_or_app. left. rewrite <- Heq. now apply in_map.
  - apply sql_update_fixed. intros y Hy. apply Z.eqb_neq. intros Heq.
    apply Hnd, in_or_app. right. rewrite <- Heq. now apply in_map.
Qed.

Lemma tick_step_id now send r : r_id (tick_step now send r) = r_id r.
Proof.
  unfold tick_step. destruct (status_eqb (r_status r) Pending); [|reflexivity].
  destruct (tick_decide now send r); reflexivity.
Qed.

Lemma tick_fold now send todo :
  forall D log,
    List.NoDup (map r_id (D ++ todo)) ->
    fold_left (tick_row now send)
      (List.filter (fun r => status_eqb (r_status r) Pending) todo) (D ++ todo, log)
    = (D ++ map (tick_step now send) todo,
       log ++ flat_map (tick_attempts now send) todo).
Proof.
  induction todo as [|x todo IH]; intros D log Hnd; simpl.
  - now rewrite !app_nil_r.
  - assert (Hnext : forall y, r_id y = r_id x ->
              List.NoDup (map r_id ((D ++ [y]) ++ todo))).
    { intros y Hy. rewrite <- app_assoc. simpl.
      rewrite map_app in *. simpl in *. now rewrite Hy. }
    unfold tick_step at 1, tick_attempts at 1.
    destruct (status_eqb (r_status x) Pending) eqn:Hp; simpl.
    + destruct (tick_decide now send x) eqn:Hd.
      * specialize (IH (D ++ [x]) log (Hnext x eq_refl)).
        rewrite <- app_assoc in IH. simpl in IH. etransitivity; [exact IH|].
        now rewrite <- app_assoc.
      * rewrite sql_update_middle by exact Hnd.
        specialize (IH (D ++ [set_done now x]) log (Hnext (set_done now x) eq_refl)).
        rewrite <- app_assoc in IH. simpl in IH. etransitivity; [exact IH|].
        now rewrite <- app_assoc.
      * rewrite sql_update_middle by exact Hnd.
        specialize (IH (D ++ [set_sent now x])
                      (log ++ [Attempt (r_id x) (r_chat_id x) true])
                      (Hnext (set_sent now x) eq_refl)).
        rewrite <- app_assoc in IH. simpl in IH. etransitivity; [exact IH|].
        now rewrite <- !app_assoc.
      * specialize (IH (D ++ [x])
                      (log ++ [Attempt (r_id x) (r_chat_id x) false])
                      (Hnext x eq_refl)).
        rewrite <- app_assoc in IH. simpl in IH. etransitivity; [exact IH|].
        now rewrite <- !app_assoc.
    + specialize (IH (D ++ [x]) log (Hnext x eq_refl)).
      rewrite <- app_assoc in IH. simpl in IH. etransitivity; [exact IH|].
      now rewrite <- app_assoc.
Qed.

(** With unique ids a tick acts on each row by itself. *)
Lemma tick_job_rows now send t :
  wf_table t ->
  tick_job now send t
  = (map (tick_step now send) t, flat_map (tick_attempts now send) t).
Proof.
  intros Hwf. unfold tick_job. apply (tick_fold now send t [] [] Hwf).
Qed.

Lemma tick_job_wf now send t :
  wf_table t -> wf_table (fst (tick_job now send t)).
Proof.
  intros Hwf. rewrite tick_job_rows by exact Hwf. simpl.
  unfold wf_table. rewrite map_map.
  erewrite map_ext; [exact Hwf|]. intros x. apply tick_step_id.
Qed.

Lemma tick_job_by_id now send t k :
  wf_table t ->
  by_id k (fst (tick_job now send t)) = option_map (tick_step now send) (by_id k t).
Proof.
  intros Hwf. rewrite tick_job_rows by exact Hwf. simpl.
  unfold by_id. apply find_map_preserve. intros x. now rewrite tick_step_id.
Qed.

(** An attempt of the log belongs to a pending row that was handed to the
    transport, and records the transport's answer. *)
Lemma tick_attempt_inv now send t a :
  wf_table t -> In a (snd (tick_job now send t)) ->
  exists r, In r t /\ r_status r = Pending
            /\ a = Attempt (r_id r) (r_chat_id r)
                           (send (r_chat_id r) (r_task r) (r_id r))
            /\ tick_decide now send r
               = if send (r_chat_id r) (r_task r) (r_id r) then Sent else Failed.
Proof.
  intros Hwf. rewrite tick_job_rows by exact Hwf. simpl.
  rewrite in_flat_map. intros (r & Hin & Ha). exists r.
  unfold tick_attempts in Ha.
  destruct (status_eqb (r_status r) Pending) eqn:Hp; [|contradiction].
  apply status_eqb_eq in Hp.
  assert (Hsend : forall act, tick_decide now send r = act ->
            (act = Sent -> send (r_chat_id r) (r_task r) (r_id r) = true)
            /\ (act = Failed -> send (r_chat_id r) (r_task r) (r_id r) = false)).
  { intros act <-. unfold tick_decide.
    destruct (now <? r_due_utc r); [split; discriminate|].
    destruct (MAX_RETRIES <=? r_retry_count r); [split; discriminate|].
    destruct (match r_last_sent_utc r with Some _ => _ | None => _ end);
      [split; discriminate|].
    destruct (send _ _ _); split; congruence. }
  destruct (tick_decide now send r) eqn:Hd; simpl in Ha; try contradiction;
    destruct Ha as [<-|[]]; destruct (Hsend _ eq_refl) as [Hs Hf].
  - rewrite (Hs eq_refl). auto.
  - rewrite (Hf eq_refl). auto.
Qed.

Lemma eligible_decide now send r :
  eligible now r ->
  tick_decide now send r
  = if send (r_chat_id r) (r_task r) (r_id r) then Sent else Failed.
Proof.
  intros (_ & Hdue & Hretry & Hlast). unfold tick_decide.
  replace (now <? r_due_utc r) with false by (symmetry; apply Z.ltb_ge; lia).
  replace (MAX_RETRIES <=? r_retry_count r) with false
    by (symmetry; apply Z.leb_gt; lia).
  destruct (r_last_sent_utc r) as [last|]; [|reflexivity].
  replace (now - last <? RETRY_EVERY_MINUTES * us_per_minute) with false
    by (symmetry; apply Z.ltb_ge; lia).
  reflexivity.
Qed.

Lemma decide_eligible now send r :
  r_status r = Pending ->
  tick_decide now send r = Sent \/ tick_decide now send r = Failed ->
  eligible now r.
Proof.
  intros Hp Hd. unfold eligible. unfold tick_decide in Hd.
  destruct (now <? r_due_utc r) eqn:H1; [destruct Hd; discriminate|].
  destruct (MAX_RETRIES <=? r_retry_count r) eqn:H2; [destruct Hd; discriminate|].
  apply Z.ltb_ge in H1. apply Z.leb_gt in H2.
  repeat split; try assumption; try lia.
  destruct (r_last_sent_utc r) as [last|]; [|exact I].
  destruct (now - last <? RETRY_EVERY_MINUTES * us_per_minute) eqn:H3;
    [destruct Hd; discriminate|].
  apply Z.ltb_ge in H3. lia.
Qed.

Lemma eligible_attempted now send t r :
  wf_table t -> In r t -> eligible now r ->
  In (Attempt (r_id r) (r_chat_id r) (send (r_chat_id r) (r_task r) (r_id r)))
     (snd (tick_job now send t)).
Proof.
  intros Hwf Hin He. rewrite tick_job_rows by exact Hwf. simpl.
  apply in_flat_map. exists r. split; [exact Hin|].
  unfold tick_attempts. destruct He as [Hp He'].
  rewrite Hp. simpl. rewrite (eligible_decide now send r (conj Hp He')).
  destruct (send _ _ _); now left.
Qed.

(** No attempt is made for a row that is not pending, or that the loop
    body skips or closes. *)
Lemma tick_no_attempt now send t r a :
  wf_table t -> In r t ->
  r_status r <> Pending \/ tick_decide now send r = Skip
  \/ tick_decide now send r = Close ->
  In a (snd (tick_job now send t)) -> a_rid a <> r_id r.
Proof.
  intros Hwf Hin Hcase Ha Heq.
  destruct (tick_attempt_inv now send t a Hwf Ha) as (x & Hx & Hp & -> & Hd).
  simpl in Heq. assert (x = r) by (now apply (wf_same_id t)). subst x.
  destruct Hcase as [H|[H|H]]; [contradiction| |];
    rewrite H in Hd; destruct (send _ _ _); discriminate.
Qed.

(** ** Runs of store operations *)

Lemma find_app {A} (f : A -> bool) l l' :
  find f (l ++ l') = match find f l with Some x => Some x | None => find f l' end.
Proof.
  induction l as [|a l IH]; simpl; [reflexivity|].
  destruct (f a); [reflexivity | exact IH].
Qed.

Lemma next_id_above t x : In x t -> r_id x < next_id t.
Proof.
  unfold next_id.
  assert (H : forall m, m <= fold_left (fun m r => Z.max m (r_id r)) t m
                        /\ (In x t -> r_id x <= fold_left (fun m r => Z.max m (r_id r)) t m)).
  { induction t as [|a t IH]; intros m; simpl.
    - split; [lia | contradiction].
    - destruct (IH (Z.max m (r_id a))) as [H1 H2]. split; [lia|].
      intros [->|Hin]; [lia | auto]. }
  intros Hin. destruct (H 0) as [_ H2]. specialize (H2 Hin). lia.
Qed.

Lemma insert_reminder_wf now chat task due amount cat t :
  wf_table t -> wf_table (fst (insert_reminder now chat task due amount cat t)).
Proof.
  unfold wf_table, insert_reminder. simpl. intros Hwf.
  rewrite map_app. simpl. apply List.NoDup_app.
  - exact Hwf.
  - constructor; [intros [] | constructor].
  - intros a Ha [<-|[]]. apply in_map_iff in Ha. destruct Ha as (x & Hx & Hin).
    pose proof (next_id_above t x Hin). lia.
Qed.

(** A row that is not pending stays so under every operation but a
    reschedule, and no tick attempts to deliver it. *)
Lemma run_op_keeps_closed k op t log :
  wf_table t ->
  (exists r0, by_id k t = Some r0 /\ r_status r0 <> Pending) ->
  (forall a, In a log -> a_rid a <> k) ->
  wf_table (fst (run_op (t, log) op))
  /\ (exists r0, by_id k (fst (run_op (t, log) op)) = Some r0
                 /\ r_status r0 <> Pending)
  /\ (forall a, In a (snd (run_op (t, log) op)) -> a_rid a <> k).
Proof.
  intros Hwf (r0 & Hr0 & Hst) Hlog.
  destruct (by_id_some _ _ _ Hr0) as [Hin Hk].
  destruct op as [now send|now chat task due amount cat|now chat rid|chat rid];
    unfold run_op.
  - pose proof (tick_job_wf now send t Hwf) as Hwf'.
    pose proof (tick_job_by_id now send t k Hwf) as Hby.
    pose proof (tick_no_attempt now send t r0) as Hno.
    destruct (tick_job now send t) as [t' l]. simpl in *.
    split; [exact Hwf'|]. split.
    + exists r0. split; [|exact Hst]. rewrite Hby, Hr0. simpl.
      unfold tick_step. apply status_eqb_neq in Hst. now rewrite Hst.
    + intros a Ha. apply in_app_or in Ha. destruct Ha as [Ha|Ha]; [auto|].
      rewrite <- Hk. apply Hno; auto.
  - split; [now apply insert_reminder_wf|]. split; [|exact Hlog].
    exists r0. split; [|exact Hst]. unfold insert_reminder, by_id. simpl.
    rewrite find_app. fold (by_id k t). now rewrite Hr0.
  - simpl. unfold mark_done.
    match goal with |- context [match ?sel with Some _ => _ | None => (t, None) end] =>
      destruct sel as [row|] end; simpl.
    + split; [now apply sql_update_wf|]. split; [|exact Hlog].
      unfold by_id. rewrite find_sql_update by reflexivity.
      fold (by_id k t). rewrite Hr0. simpl.
      destruct ((r_chat_id r0 =? chat) && (r_id r0 =? r_id row)).
      * eexists. split; [reflexivity|]. simpl. discriminate.
      * exists r0. now split.
    + split; [exact Hwf|]. split; [|exact Hlog]. exists r0. now split.
  - simpl. unfold delete_reminder.
    destruct (find _ t) as [row|]; simpl.
    + split; [now apply sql_update_wf|]. split; [|exact Hlog].
      unfold by_id. rewrite find_sql_update by reflexivity.
      fold (by_id k t). rewrite Hr0. simpl.
      destruct ((r_chat_id r0 =? chat) && (r_id r0 =? rid)).
      * eexists. split; [reflexivity|]. simpl. discriminate.
      * exists r0. now split.
    + split; [exact Hwf|]. split; [|exact Hlog]. exists r0. now split.
Qed.

Lemma run_ops_keep_closed k ops :
  forall t log,
    wf_table t ->
    (exists r0, by_id k t = Some r0 /\ r_status r0 <> Pending) ->
    (forall a, In a log -> a_rid a <> k) ->
    (exists r0, by_id k (fst (fold_left run_op ops (t, log))) = Some r0
                /\ r_status r0 <> Pending)
    /\ (forall a, In a (snd (fold_left run_op ops (t, log))) -> a_rid a <> k).
Proof.
  induction ops as [|op ops IH]; intros t log Hwf Hr Hlog; cbn [fold_left].
  - split; assumption.
  - destruct (run_op_keeps_closed k op t log Hwf Hr Hlog) as (Hwf' & Hr' & Hlog').
    destruct (run_op (t, log) op) as [t' log']. now apply IH.
Qed.

(** C5, as the code has it. A pending reminder that is due and whose
    [retry_count] has reached [MAX_RETRIES] is closed by the tick (status
    done, completion stamped) and the tick makes no delivery attempt for
    it; no later tick attempts it either as long as it is not
    rescheduled, whatever ticks, insertions, confirmations and deletions
    follow.  (A reschedule reopens a closed reminder, which the ticks
    after it then deliver.) *)
Theorem exhausted_reminder_closed_without_delivery now send t r :
  wf_table t -> In r t ->
  r_status r = Pending -> r_due_utc r <= now -> MAX_RETRIES <= r_retry_count r ->
  by_id (r_id r) (fst (tick_job now send t)) = Some (set_done now r)
  /\ r_status (set_done now r) = Done
  /\ (forall a, In a (snd (tick_job now send t)) -> a_rid a <> r_id r)
  /\ (forall ops,
        (forall a, In a (snd (run_ops ops (fst (tick_job now send t)))) ->
                   a_rid a <> r_id r)
        /\ exists r', by_id (r_id r) (fst (run_ops ops (fst (tick_job now send t))))
                      = Some r'
                      /\ r_status r' <> Pending).
Proof.
  intros Hwf Hin Hp Hdue Hmax.
  assert (Hd : tick_decide now send r = Close).
  { unfold tick_decide.
    replace (now <? r_due_utc r) with false by (symmetry; apply Z.ltb_ge; lia).
    replace (MAX_RETRIES <=? r_retry_count r) with true
      by (symmetry; apply Z.leb_le; lia).
    reflexivity. }
  assert (Hby : by_id (r_id r) (fst (tick_job now send t)) = Some (set_done now r)).
  { rewrite tick_job_by_id by exact Hwf. rewrite (by_id_in t r Hwf Hin). simpl.
    unfold tick_step. now rewrite Hp, Hd. }
  split; [exact Hby|]. split; [reflexivity|]. split.
  - intros a. apply tick_no_attempt; auto.
  - intros ops. unfold run_ops.
    destruct (run_ops_keep_closed (r_id r) ops (fst (tick_job now send t)) [])
      as [Hr Hlog].
    + now apply tick_job_wf.
    + exists (set_done now r). split; [exact Hby | simpl; discriminate].
    + intros a [].
    + split; [exact Hlog | exact Hr].
Qed.

(** C6. In a tick, every reminder that is eligible is handed to the
    transport, whatever happens to the others; an attempt the transport
    refuses leaves the row as it was, so that every later tick attempts it
    again; [retry_count] and [last_sent_utc] change only for a row whose
    attempt was delivered, which gets one more retry and the tick's time. *)
Theorem failed_delivery_costs_no_retry now send t :
  wf_table t ->
  (forall r, In r t -> eligible now r ->
     In (Attempt (r_id r) (r_chat_id r) (send (r_chat_id r) (r_task r) (r_id r)))
        (snd (tick_job now send t)))
  /\ (forall r, In r t ->
       In (Attempt (r_id r) (r_chat_id r) false) (snd (tick_job now send t)) ->
       by_id (r_id r) (fst (tick_job now send t)) = Some r
       /\ forall now' send', now <= now' ->
            exists b, In (Attempt (r_id r) (r_chat_id r) b)
                         (snd (tick_job now' send' (fst (tick_job now send t)))))
  /\ (forall r r', In r t ->
       by_id (r_id r) (fst (tick_job now send t)) = Some r' ->
       r_retry_count r' <> r_retry_count r
       \/ r_last_sent_utc r' <> r_last_sent_utc r ->
       In (Attempt (r_id r) (r_chat_id r) true) (snd (tick_job now send t))
       /\ r_retry_count r' = r_retry_count r + 1
       /\ r_last_sent_utc r' = Some now)
  /\ (forall r, In r t ->
       In (Attempt (r_id r) (r_chat_id r) true) (snd (tick_job now send t)) ->
       by_id (r_id r) (fst (tick_job now send t)) = Some (set_sent now r)).
Proof.
  intros Hwf.
  assert (Hown : forall r b, In r t ->
            In (Attempt (r_id r) (r_chat_id r) b) (snd (tick_job now send t)) ->
            r_status r = Pending
            /\ tick_decide now send r = (if b then Sent else Failed)).
  { intros r b Hin Ha.
    destruct (tick_attempt_inv now send t _ Hwf Ha) as (x & Hx & Hp & Heq & Hd).
    injection Heq as Hid _ Hb.
    assert (x = r) by (apply (wf_same_id t); auto). subst x.
    split; [exact Hp|]. now rewrite Hb. }
  split; [|split; [|split]].
  - intros r. now apply eligible_attempted.
  - intros r Hin Ha. destruct (Hown r false Hin Ha) as [Hp Hd].
    assert (Hby : by_id (r_id r) (fst (tick_job now send t)) = Some r).
    { rewrite tick_job_by_id by exact Hwf. rewrite (by_id_in t r Hwf Hin). simpl.
      unfold tick_step. now rewrite Hp, Hd. }
    split; [exact Hby|]. intros now' send' Hle. eexists.
    apply eligible_attempted.
    + now apply tick_job_wf.
    + now apply (by_id_some _ _ _ Hby).
    + destruct (decide_eligible now send r Hp (or_intror Hd))
        as (_ & Hdue & Hretry & Hlast).
      repeat split; try assumption; try lia.
      destruct (r_last_sent_utc r); [lia | exact I].
  - intros r r' Hin Hby Hchg.
    rewrite tick_job_by_id in Hby by exact Hwf.
    rewrite (by_id_in t r Hwf Hin) in Hby. simpl in Hby. injection Hby as <-.
    unfold tick_step in *.
    destruct (status_eqb (r_status r) Pending) eqn:Hp; [|destruct Hchg; congruence].
    apply status_eqb_eq in Hp.
    destruct (tick_decide now send r) eqn:Hd; simpl in Hchg;
      try (destruct Hchg; congruence).
    simpl. split; [|split; reflexivity].
    assert (He : eligible now r) by (apply (decide_eligible now send); auto).
    pose proof (eligible_attempted now send t r Hwf Hin He) as Ha.
    rewrite (eligible_decide now send r He) in Hd.
    destruct (send _ _ _); [exact Ha | discriminate].
  - intros r Hin Ha. destruct (Hown r true Hin Ha) as [Hp Hd].
    rewrite tick_job_by_id by exact Hwf. rewrite (by_id_in t r Hwf Hin). simpl.
    unfold tick_step. now rewrite Hp, Hd.
Qed.

(** ** Continuations *)

Lemma restore_popped (k : string) (p : payload) (ud : gmap string payload) :
  ud !! k = Some p -> <[k := p]> (delete k ud) = ud.
Proof. intros H. rewrite insert_delete_eq. now apply insert_id. Qed.

Lemma not_fixed_command txt :
  is_fixed_command txt = false ->
  parse_delete_request txt = None /\ is_commands_request txt = false
  /\ is_pending_list_request txt = false /\ is_full_list_request txt = false
  /\ is_quincena_list_request txt = false.
Proof.
  unfold is_fixed_command. destruct (parse_delete_request txt); [discriminate|].
  intros H. do 3 (apply orb_false_iff in H; destruct H as [H ?]).
  repeat split; first [assumption | reflexivity].
Qed.

(** With a continuation pending, a message that step 0 does not take is
    handled by the continuation alone. *)
Lemma on_text_awaiting now chat msg w :
  is_fixed_command (strip msg) = false ->
  payload_shapes (user_data w) -> awaiting (user_data w) ->
  on_text now chat msg w = continuation_outcome now chat (strip msg) w.
Proof.
  intros Hfix [Hsr Hsn] Haw.
  destruct (not_fixed_command _ Hfix) as (Hd & Hc & Hp & Hf & Hq).
  unfold on_text. rewrite Hd, Hc, Hp, Hf, Hq.
  unfold on_text_continuation, continuation_outcome,
    is_awaiting_datetime_for_reschedule, is_awaiting_datetime_for_new,
    pop_awaiting_datetime_for_reschedule, pop_awaiting_datetime_for_new,
    set_awaiting_datetime_for_reschedule, set_awaiting_datetime_for_new, reply.
  destruct (user_data w !! KEY_RESCHEDULE) as [p|] eqn:Hr.
  - destruct (Hsr p eq_refl) as [rid ->].
    destruct (parse_date_time_from_text now (strip msg)) as [dt|].
    + destruct (update_reminder_time chat rid dt (db w)) as [db' [due|]]; reflexivity.
    + now rewrite (restore_popped _ _ _ Hr).
  - destruct (user_data w !! KEY_NEW) as [p|] eqn:Hn.
    + destruct (Hsn p eq_refl) as (task & amount & cat & ->).
      destruct (parse_date_time_from_text now (strip msg)) as [dt|].
      * reflexivity.
      * now rewrite (restore_popped _ _ _ Hn).
    + destruct Haw as [Haw|Haw];
        unfold is_awaiting_datetime_for_reschedule, is_awaiting_datetime_for_new in Haw;
        rewrite ?Hr, ?Hn in Haw; discriminate.
Qed.

(** C2, as the code has it. With a continuation pending, a message that is
    neither a delete request nor a fixed phrase is handled as the
    continuation: the payload is popped and the message goes to the date
    and time extractor, before the confirmation, period-sum and creation
    intents are tried.  (Delete requests and fixed phrases are served
    first and leave the continuation pending.)  The message is a
    [covered] text and the numbers of the pending payload are
    [sqlite_integer]s: this is where the embedding is the code. *)
Theorem continuation_precedes_intents now chat msg w :
  covered msg = true -> payloads_storable (user_data w) ->
  is_fixed_command (strip msg) = false ->
  payload_shapes (user_data w) -> awaiting (user_data w) ->
  on_text now chat msg w = continuation_outcome now chat (strip msg) w.
Proof. intros _ _. apply on_text_awaiting. Qed.

(** C7, as the code has it. With a continuation pending, a reply that is
    neither a delete request nor a fixed phrase and whose date and time
    cannot be parsed leaves [user_data] and the table exactly as they
    were, and the user is prompted again.  The reply is a [covered]
    text. *)
Theorem unparsed_reply_keeps_continuation now chat msg w :
  covered msg = true ->
  is_fixed_command (strip msg) = false ->
  payload_shapes (user_data w) -> awaiting (user_data w) ->
  parse_date_time_from_text now (strip msg) = None ->
  on_text now chat msg w
  = Ok (World (user_data w) (db w) (outbox w ++ [MsgNotUnderstood])).
Proof.
  intros _ Hfix Hsh Haw Hparse. rewrite on_text_awaiting by assumption.
  unfold continuation_outcome. rewrite Hparse. destruct Hsh as [Hsr Hsn].
  destruct (user_data w !! KEY_RESCHEDULE) as [p|] eqn:Hr.
  - now destruct (Hsr p eq_refl) as [rid ->].
  - destruct (user_data w !! KEY_NEW) as [p|] eqn:Hn.
    + now destruct (Hsn p eq_refl) as (task & amount & cat & ->).
    + destruct Haw as [Haw|Haw];
        unfold is_awaiting_datetime_for_reschedule, is_awaiting_datetime_for_new in Haw;
        rewrite ?Hr, ?Hn in Haw; discriminate.
Qed.

(** ** Quincenas *)

Lemma datetime_new_off y m d h mi off :
  datetime_new y m d h mi off
  = option_map (fun dt => DateTime (wall dt) off) (datetime_new y m d h mi 0).
Proof.
  unfold datetime_new. destruct (month_days y m) as [dim|]; [|reflexivity].
  match goal with |- context [if ?c then _ else _] => destruct c end; reflexivity.
Qed.

Lemma civil_is_new y m d h mi off :
  civil_is (datetime_new y m d h mi 0) y m d h mi = true ->
  exists dt, datetime_new y m d h mi off = Some dt
             /\ civil dt = (y, m, d, h, mi, 0, 0) /\ utcoffset dt = off.
Proof.
  rewrite (datetime_new_off y m d h mi off).
  destruct (datetime_new y m d h mi 0) as [dt0|]; [|discriminate].
  unfold civil_is. rewrite !andb_true_iff, !Z.eqb_eq.
  intros [[[[[[Hy Hm] Hd] Hh] Hmi] Hs] Hus].
  exists (DateTime (wall dt0) off). split; [reflexivity|]. split; [|reflexivity].
  change (civil dt0 = (y, m, d, h, mi, 0, 0)).
  unfold civil. now rewrite Hy, Hm, Hd, Hh, Hmi, Hs, Hus.
Qed.

Lemma reads_quincena_query now txt which mm y :
  reads_quincena txt which mm y = true ->
  parse_quincena_query now txt
  = match quincena_range y (snd mm) which with
    | Some (s, e) =>
        QPeriod (s, e,
                 (if which =? 1 then u "primera" else u "segunda")
                 ++ u " quincena de " ++ u (fst mm) ++ u " " ++ str_of_nonneg y)
    | None => QRaised
    end.
Proof.
  unfold reads_quincena, parse_quincena_query. rewrite !andb_true_iff.
  intros [[[Hesta Hwhich] Hmonth] Hyear].
  apply negb_true_iff in Hesta. rewrite Hesta.
  destruct (find _ MONTHS_ES) as [[n' m']|]; [|discriminate].
  simpl in Hmonth. apply andb_true_iff in Hmonth. destruct Hmonth as [Hn Hm].
  apply String.eqb_eq in Hn. apply Z.eqb_eq in Hm. destruct mm as [n m].
  simpl in Hn, Hm. subst n' m'. simpl fst. simpl snd.
  destruct (re_search re_year (lower txt)) as [mt|]; [|discriminate].
  destruct (group 1 mt) as [g|]; [|discriminate].
  destruct (python_int g) as [y'|]; [|discriminate].
  apply Z.eqb_eq in Hyear. subst y'.
  destruct (if contains (u "primera quincena") (lower txt) then Some 1
            else if contains (u "segunda quincena") (lower txt) then Some 2
            else None) as [w|]; [|discriminate].
  apply Z.eqb_eq in Hwhich. subst w. reflexivity.
Qed.

(** Every month name with every year from 2000 to 2099, by evaluation. *)
Lemma explicit_cases_checked :
  forallb (fun mm =>
    forallb (fun d1 => forallb (explicit_case_ok mm d1) DIGITS) DIGITS) MONTHS_ES
  = true.
Proof. vm_compute. reflexivity. Qed.

Lemma explicit_case mm d1 d2 :
  In mm MONTHS_ES -> In d1 DIGITS -> In d2 DIGITS ->
  reads_quincena (quincena_text "primera" (fst mm) d1 d2) 1 mm
    (2000 + 10 * d1 + d2) = true
  /\ reads_quincena (quincena_text "segunda" (fst mm) d1 d2) 2 mm
       (2000 + 10 * d1 + d2) = true
  /\ windows_ok (2000 + 10 * d1 + d2) (snd mm) = true.
Proof.
  intros Hmm Hd1 Hd2.
  pose proof (proj1 (forallb_forall _ _) explicit_cases_checked mm Hmm) as H1.
  pose proof (proj1 (forallb_forall _ _) H1 d1 Hd1) as H2.
  pose proof (proj1 (forallb_forall _ _) H2 d2 Hd2) as H3.
  revert H3. clear. unfold explicit_case_ok. rewrite !andb_true_iff. tauto.
Qed.

(** C9, as the code has it. "primera quincena de <month> <year>" with a
    year from 2000 to 2099 resolves to the window from the 1st at 00:00
    to the 15th at 23:59 of that month and year in the local zone, and
    "segunda quincena de <month> <year>" to the window from the 16th at
    00:00 to the last day of the month at 23:59.  (A year outside
    2000-2099 is not read, and the current year is used.) *)
Theorem explicit_quincena_window now mname m d1 d2 :
  In (mname, m) MONTHS_ES -> 0 <= d1 <= 9 -> 0 <= d2 <= 9 ->
  let y := 2000 + 10 * d1 + d2 in
  (exists s e label,
     parse_quincena_query now (quincena_text "primera" mname d1 d2)
     = QPeriod (s, e, label)
     /\ civil s = (y, m, 1, 0, 0, 0, 0) /\ utcoffset s = LOCAL_TZ
     /\ civil e = (y, m, 15, 23, 59, 0, 0) /\ utcoffset e = LOCAL_TZ)
  /\ (exists s e label last,
       parse_quincena_query now (quincena_text "segunda" mname d1 d2)
       = QPeriod (s, e, label)
       /\ month_days y m = Some last
       /\ civil s = (y, m, 16, 0, 0, 0, 0) /\ utcoffset s = LOCAL_TZ
       /\ civil e = (y, m, last, 23, 59, 0, 0) /\ utcoffset e = LOCAL_TZ).
Proof.
  intros Hmm H1 H2 y.
  assert (Hd1 : In d1 DIGITS) by (unfold DIGITS; simpl; lia).
  assert (Hd2 : In d2 DIGITS) by (unfold DIGITS; simpl; lia).
  destruct (explicit_case (mname, m) d1 d2 Hmm Hd1 Hd2) as (Hp & Hs & Hw).
  simpl fst in Hp, Hs. simpl snd in Hw. fold y in Hp, Hs, Hw.
  unfold windows_ok in Hw. rewrite !andb_true_iff in Hw.
  destruct Hw as [[[Hs1 He1] Hs2] He2].
  destruct (month_days y m) as [last|] eqn:Hlast; [|discriminate].
  destruct (civil_is_new _ _ _ _ _ LOCAL_TZ Hs1) as (s1 & Es1 & Cs1 & Os1).
  destruct (civil_is_new _ _ _ _ _ LOCAL_TZ He1) as (e1 & Ee1 & Ce1 & Oe1).
  destruct (civil_is_new _ _ _ _ _ LOCAL_TZ Hs2) as (s2 & Es2 & Cs2 & Os2).
  destruct (civil_is_new _ _ _ _ _ LOCAL_TZ He2) as (e2 & Ee2 & Ce2 & Oe2).
  split.
  - exists s1, e1. eexists. rewrite (reads_quincena_query now _ _ _ _ Hp).
    unfold quincena_range. simpl snd. rewrite Z.eqb_refl, Es1, Ee1. auto.
  - exists s2, e2. eexists. exists last.
    rewrite (reads_quincena_query now _ _ _ _ Hs).
    unfold quincena_range. simpl snd.
    change (2 =? 1) with false. cbv iota. rewrite Hlast, Es2, Ee2. auto 10.
Qed.

(** ** Amounts *)

Lemma amount_fold cands :
  forall best,
    fold_left amount_step cands best
    = match best,
            largest (List.filter (fun v => 0 <? v)
                       (map candidate_value (List.filter eligible_candidate cands)))
      with
      | None, x => x
      | Some b, None => Some b
      | Some b, Some v => Some (Z.max b v)
      end.
Proof.
  induction cands as [|c cands IH]; intros best; cbn [fold_left List.filter map].
  - destruct best; reflexivity.
  - rewrite IH. unfold amount_step, eligible_candidate, candidate_value.
    rewrite Nat.ltb_antisym.
    destruct (contains (u ":") c); cbn [negb andb List.filter map]; [reflexivity|].
    destruct (4 <=? length (only_digits c))%nat; cbn [negb List.filter map];
      [|reflexivity].
    destruct (python_int (only_digits c)) as [val|];
      [|cbn [List.filter]; change (0 <? 0) with false; reflexivity].
    cbn [List.filter]. rewrite (Z.ltb_antisym val 0).
    destruct (val <=? 0) eqn:Hval; cbn [negb]; [reflexivity|].
    cbn [largest fold_right].
    fold (largest (List.filter (fun v => 0 <? v)
                     (map (fun c => match python_int (only_digits c) with
                                    | Some v => v | None => 0 end)
                        (List.filter (fun c => negb (contains (u ":") c)
                                               && (4 <=? length (only_digits c))%nat)
                           cands)))).
    destruct (largest _) as [x|]; destruct best as [b|]; try reflexivity.
    + destruct (b <? val) eqn:Hb; f_equal; lia.
    + destruct (b <? val) eqn:Hb; f_equal; lia.
Qed.

Lemma largest_spec vs :
  match largest vs with
  | Some m => In m vs /\ forall v, In v vs -> v <= m
  | None => vs = []
  end.
Proof.
  induction vs as [|a vs IH]; simpl; [reflexivity|].
  fold (largest vs). destruct (largest vs) as [m|].
  - destruct IH as [Hin Hmax]. split.
    + destruct (Z.max_spec a m) as [[_ ->]|[_ ->]]; auto.
    + intros v [<-|Hv]; [lia|]. specialize (Hmax v Hv). lia.
  - subst vs. split; [now left|]. intros v [<-|[]]. lia.
Qed.

(** C3, as the code has it. On a [covered] text,
    [parse_amount_cop_strict] returns an amount only with a money keyword
    in the text; then it returns the largest value among the candidates
    that have no colon, at least four digits and a value that is not
    zero, and none when there is no such candidate. *)
Theorem amount_is_largest_eligible_candidate :
  (forall txt,
     covered txt = true ->
     parse_amount_cop_strict txt
     = if has_money_context txt then largest (amount_values txt) else None)
  /\ (forall vs,
       match largest vs with
       | Some m => In m vs /\ forall v, In v vs -> v <= m
       | None => vs = []
       end)
  /\ parse_amount_cop_strict (u "pagar 1.000 pesos y debo 50000 más") = Some 50000
  /\ parse_amount_cop_strict (u "nos vemos a las 18:30") = None
  /\ parse_amount_cop_strict (u "cita 2026-02-03") = None
  /\ forallb covered [u "pagar 1.000 pesos y debo 50000 más";
                      u "nos vemos a las 18:30"; u "cita 2026-02-03"] = true.
Proof.
  split; [|split; [exact largest_spec|]].
  - intros txt _. unfold parse_amount_cop_strict, has_money_context, amount_values.
    destruct (any_in _ (lower txt)); cbn [negb]; [|reflexivity].
    now rewrite amount_fold.
  - repeat split; vm_compute; reflexivity.
Qed.

(** ** The default hour *)








(** *** What the matcher finds is a match *)


Lemma last_or_app p w w' : last_or p (w ++ w') = last_or (last_or p w) w'.
Proof.
  unfold last_or. rewrite rev_app_distr.
  destruct (rev w'); [reflexivity|]. reflexivity.
Qed.

(** What a match consumes. *)
Lemma matched_consumes r s s' :
  matched r s s' ->
  exists w, m_rest s = w ++ m_rest s' /\ m_prev s' = last_or (m_prev s) w.
Proof.
  induction 1 as [s|p s c t Hs Hc|a b s s1 s2 _ (w1 & H1 & P1) _ (w2 & H2 & P2)
                  |a b s s' _ IH|a b s s' _ IH|a s
                  |a s s1 s2 _ (w1 & H1 & P1) _ (w2 & H2 & P2)|s Hx|s Hp
                  |n a s s' _ (w & H1 & P1)].
  - exists []. split; reflexivity.
  - exists [c]. cbn. split; [exact Hs | reflexivity].
  - exists (w1 ++ w2). rewrite H1, H2, P2, P1, last_or_app, app_assoc. split; reflexivity.
  - exact IH.
  - exact IH.
  - exists []. split; reflexivity.
  - exists (w1 ++ w2). rewrite H1, H2, P2, P1, last_or_app, app_assoc. split; reflexivity.
  - exists []. split; reflexivity.
  - exists []. split; reflexivity.
  - exists w. cbn. split; assumption.
Qed.


Lemma startswith_app p s : startswith p (p ++ s) = true.
Proof.
  induction p as [|c p IH]; cbn [app startswith]; [reflexivity|].
  now rewrite Z.eqb_refl, IH.
Qed.



















(** ** The order of the listings *)

Lemma text_leb_refl a : text_leb a a = true.
Proof.
  induction a as [|x a IH]; [reflexivity|].
  cbn [text_leb]. now rewrite Z.eqb_refl, IH, orb_true_r.
Qed.

Lemma text_leb_total a b : text_leb a b = true \/ text_leb b a = true.
Proof.
  revert b. induction a as [|x a IH]; intros [|y b]; cbn [text_leb]; auto.
  destruct (Z.ltb_spec x y); [now left|].
  destruct (Z.ltb_spec y x); [now right|].
  assert (x = y) by lia. subst y. rewrite Z.eqb_refl. cbn [orb andb]. apply IH.
Qed.

Lemma text_leb_trans a b c :
  text_leb a b = true -> text_leb b c = true -> text_leb a c = true.
Proof.
  revert b c. induction a as [|x a IH]; intros [|y b] [|z c]; cbn [text_leb];
    try reflexivity; try discriminate.
  intros Hab Hbc.
  apply orb_true_iff in Hab. apply orb_true_iff in Hbc. apply orb_true_iff.
  destruct Hab as [Hab|Hab], Hbc as [Hbc|Hbc].
  - left. apply Z.ltb_lt in Hab, Hbc. apply Z.ltb_lt. lia.
  - apply andb_true_iff in Hbc. destruct Hbc as [Hyz _].
    apply Z.eqb_eq in Hyz. subst z. now left.
  - apply andb_true_iff in Hab. destruct Hab as [Hxy _].
    apply Z.eqb_eq in Hxy. subst y. now left.
  - apply andb_true_iff in Hab. destruct Hab as [Hxy Hab].
    apply andb_true_iff in Hbc. destruct Hbc as [Hyz Hbc].
    apply Z.eqb_eq in Hxy, Hyz. subst y z. right.
    rewrite Z.eqb_refl. cbn [andb]. now apply (IH b c).
Qed.

Lemma due_le_refl a : due_le a a.
Proof. apply text_leb_refl. Qed.

Lemma due_le_trans a b c : due_le a b -> due_le b c -> due_le a c.
Proof. unfold due_le, sql_le. apply text_leb_trans. Qed.

Lemma due_le_total a b : due_le a b \/ due_le b a.
Proof. unfold due_le, sql_le. apply text_leb_total. Qed.

Lemma insert_by_due_sorted r l :
  StronglySorted due_le l -> StronglySorted due_le (insert_by_due r l).
Proof.
  induction 1 as [|a l Hs IH Hall]; cbn [insert_by_due].
  - constructor; [constructor | constructor].
  - destruct (sql_le (r_due_utc a) (r_due_utc r)) eqn:Har.
    + constructor; [exact IH|].
      apply List.Forall_forall. intros x Hx. apply in_insert_by_due in Hx.
      destruct Hx as [->|Hx]; [exact Har|].
      rewrite List.Forall_forall in Hall. now apply Hall.
    + assert (Hra : due_le r a).
      { destruct (due_le_total r a) as [H|H]; [exact H|].
        unfold due_le in H. rewrite H in Har. discriminate. }
      constructor; [now constructor|].
      constructor; [exact Hra|].
      rewrite List.Forall_forall in *. intros x Hx.
      apply (due_le_trans r a x Hra). now apply Hall.
Qed.

Lemma order_by_due_sorted l : StronglySorted due_le (order_by_due l).
Proof.
  unfold order_by_due.
  assert (H : forall acc, StronglySorted due_le acc ->
                          StronglySorted due_le
                            (fold_left (fun acc r => insert_by_due r acc) l acc)).
  { induction l as [|a l IH]; intros acc Hacc; cbn [fold_left]; [exact Hacc|].
    apply IH. now apply insert_by_due_sorted. }
  apply H. constructor.
Qed.

Lemma length_insert_by_due r l : length (insert_by_due r l) = S (length l).
Proof.
  induction l as [|a l IH]; cbn [insert_by_due]; [reflexivity|].
  destruct (sql_le _ _); cbn [length]; [now rewrite IH | reflexivity].
Qed.

Lemma length_order_by_due l : length (order_by_due l) = length l.
Proof.
  unfold order_by_due.
  assert (H : forall acc,
             length (fold_left (fun acc r => insert_by_due r acc) l acc)
             = (length l + length acc)%nat).
  { induction l as [|a l IH]; intros acc; cbn [fold_left length]; [reflexivity|].
    rewrite IH, length_insert_by_due. lia. }
  rewrite H. cbn [length]. lia.
Qed.

(** The first row of a sorted selection is due no later than any other. *)
Lemma first_by_due f t x :
  hd_error (order_by_due (List.filter f t)) = Some x ->
  In x t /\ f x = true
  /\ forall r, In r t -> f r = true -> due_le x r.
Proof.
  intros Hhd.
  pose proof (order_by_due_sorted (List.filter f t)) as Hs.
  assert (Hmem : forall r, In r (order_by_due (List.filter f t))
                           <-> In r t /\ f r = true).
  { intros r. now rewrite in_order_by_due, filter_In. }
  destruct (order_by_due (List.filter f t)) as [|y l]; [discriminate|].
  injection Hhd as ->.
  destruct (proj1 (Hmem x) (or_introl eq_refl)) as [Hin Hf].
  split; [exact Hin|]. split; [exact Hf|].
  intros r Hr Hfr. destruct (proj2 (Hmem r) (conj Hr Hfr)) as [<-|Hl].
  - apply due_le_refl.
  - inversion Hs as [|? ? _ Hall]; subst. rewrite List.Forall_forall in Hall.
    now apply Hall.
Qed.

Lemma no_first_by_due f t :
  hd_error (order_by_due (List.filter f t)) = None ->
  forall r, In r t -> f r = false.
Proof.
  intros Hhd r Hr. destruct (f r) eqn:Hf; [|reflexivity].
  assert (Hin : In r (order_by_due (List.filter f t)))
    by (rewrite in_order_by_due, filter_In; auto).
  destruct (order_by_due (List.filter f t)); [contradiction | discriminate].
Qed.

(** ** One row at a time *)

(** An update of the row with a given chat and id. *)
Lemma sql_update_row chat rid set t r :
  wf_table t -> In r t -> r_chat_id r = chat -> r_id r = rid ->
  (forall x, r_id (set x) = r_id x) ->
  let t' := sql_update (fun x => (r_chat_id x =? chat) && (r_id x =? rid)) set t in
  by_id rid t' = Some (set r)
  /\ (forall k, k <> rid -> by_id k t' = by_id k t)
  /\ wf_table t' /\ map r_id t' = map r_id t.
Proof.
  intros Hwf Hin Hc Hi Hset t'. subst t'.
  assert (Hf : forall k x, (r_id (set x) =? k) = (r_id x =? k))
    by (intros k x; now rewrite Hset).
  split; [|split; [|split]].
  - unfold by_id. rewrite find_sql_update by (intros x; apply Hf).
    fold (by_id rid t). rewrite <- Hi at 1. rewrite (by_id_in t r Hwf Hin).
    cbn [option_map]. now rewrite Hc, Hi, !Z.eqb_refl.
  - intros k Hk. unfold by_id. rewrite find_sql_update by (intros x; apply Hf).
    destruct (find (fun x => r_id x =? k) t) as [x|] eqn:Hx; [|reflexivity].
    destruct (find_some _ _ Hx) as [_ Hxk]. apply Z.eqb_eq in Hxk.
    cbn [option_map]. replace (r_id x =? rid) with false
      by (symmetry; apply Z.eqb_neq; lia).
    now rewrite andb_false_r.
  - now apply sql_update_wf.
  - now apply sql_update_ids.
Qed.

Lemma get_row_some chat rid t r :
  get_row chat rid t = Some r -> In r t /\ r_chat_id r = chat /\ r_id r = rid.
Proof.
  unfold get_row. intros H. destruct (find_some _ _ H) as [Hin Hr].
  apply andb_true_iff in Hr. destruct Hr as [Hc Hi].
  apply Z.eqb_eq in Hc, Hi. auto.
Qed.

Lemma get_row_in chat t r :
  wf_table t -> In r t -> r_chat_id r = chat -> get_row chat (r_id r) t = Some r.
Proof.
  intros Hwf Hin Hc. unfold get_row.
  rewrite (find_unique _ (r_id r) t r Hwf); auto.
  - now rewrite Hc, !Z.eqb_refl.
  - intros x Hx. apply andb_true_iff in Hx. destruct Hx as [_ Hx].
    now apply Z.eqb_eq.
Qed.

(** The selection of a row of a chat by id and a further condition. *)
Lemma find_row_if chat rid (p : reminder -> bool) t :
  wf_table t ->
  find (fun r => (r_chat_id r =? chat) && (r_id r =? rid) && p r) t
  = match get_row chat rid t with
    | Some r => if p r then Some r else None
    | None => None
    end.
Proof.
  intros Hwf. destruct (get_row chat rid t) as [r|] eqn:Hget.
  - destruct (get_row_some _ _ _ _ Hget) as (Hin & Hc & Hi).
    rewrite (find_unique _ rid t r Hwf); auto.
    + now rewrite Hc, Hi, !Z.eqb_refl.
    + intros x Hx. apply andb_true_iff in Hx. destruct Hx as [Hx _].
      apply andb_true_iff in Hx. destruct Hx as [_ Hx]. now apply Z.eqb_eq.
  - destruct (find _ t) as [x|] eqn:Hx; [|reflexivity].
    exfalso. destruct (find_some _ _ Hx) as [Hin Hp].
    apply andb_true_iff in Hp. destruct Hp as [Hp _].
    unfold get_row in Hget. now rewrite (find_none _ _ Hget x Hin) in Hp.
Qed.


(** ** Confirming, deleting and inserting one reminder *)


(** X2.  [mark_done] without an id confirms, among the pending reminders
    of the chat, one that is first in the order of the due column; with
    no pending reminder in the chat it changes nothing. *)
Theorem confirm_without_id_takes_first_due now chat t :
  wf_table t ->
  match mark_done now chat None t with
  | (t', Some (rid, task)) =>
      exists r, In r t /\ r_id r = rid /\ r_task r = task
                /\ r_chat_id r = chat /\ r_status r = Pending
                /\ (forall r', In r' t -> r_chat_id r' = chat ->
                               r_status r' = Pending -> due_le r r')
                /\ by_id rid t' = Some (set_done now r)
                /\ (forall k, k <> rid -> by_id k t' = by_id k t)
                /\ wf_table t'
  | (t', None) =>
      t' = t /\ forall r, In r t -> r_chat_id r = chat -> r_status r <> Pending
  end.
Proof.
  intros Hwf. unfold mark_done.
  destruct (hd_error _) as [x|] eqn:Hhd.
  - destruct (first_by_due _ _ _ Hhd) as (Hin & Hf & Hmin).
    apply andb_true_iff in Hf. destruct Hf as [Hc Hs].
    apply Z.eqb_eq in Hc. apply status_eqb_eq in Hs.
    exists x. repeat (split; [first [assumption | reflexivity]|]).
    split.
    { intros r' Hr' Hc' Hs'. apply Hmin; [exact Hr'|].
      rewrite Hc', Hs', Z.eqb_refl. reflexivity. }
    destruct (sql_update_row chat (r_id x) (set_done now) t x Hwf Hin Hc eq_refl
                (fun x => eq_refl)) as (H1 & H2 & H3 & _).
    auto.
  - split; [reflexivity|]. intros r Hr Hc Hs.
    pose proof (no_first_by_due _ _ Hhd r Hr) as Hno. cbv beta in Hno.
    rewrite Hc, Hs, Z.eqb_refl in Hno. discriminate.
Qed.

(** X3.  [delete_reminder] is a soft delete and it is final: the row of
    the chat stays in the table with status deleted and nothing else
    changed, no row is removed, and afterwards a second delete, a
    confirmation and a reschedule of the same id all report that the
    reminder does not exist and leave the table alone. *)
Theorem delete_is_soft_and_final chat rid t :
  wf_table t ->
  match get_row chat rid t with
  | Some r =>
      if status_eqb (r_status r) Deleted
      then delete_reminder chat rid t = (t, None)
      else exists t',
          delete_reminder chat rid t = (t', Some (rid, r_task r))
          /\ by_id rid t' = Some (set_deleted r)
          /\ (forall k, k <> rid -> by_id k t' = by_id k t)
          /\ wf_table t' /\ map r_id t' = map r_id t
          /\ delete_reminder chat rid t' = (t', None)
          /\ (forall now, mark_done now chat (Some rid) t' = (t', None))
          /\ (forall dt, update_reminder_time chat rid dt t' = (t', None))
  | None => delete_reminder chat rid t = (t, None)
  end.
Proof.
  intros Hwf. unfold delete_reminder at 1 2 4. rewrite (find_row_if chat rid _ t Hwf).
  destruct (get_row chat rid t) as [r|] eqn:Hget; [|reflexivity].
  destruct (status_eqb (r_status r) Deleted) eqn:Hst; [reflexivity|].
  cbn [negb].
  destruct (get_row_some _ _ _ _ Hget) as (Hin & Hc & Hi).
  destruct (sql_update_row chat rid set_deleted t r Hwf Hin Hc Hi
              (fun x => eq_refl)) as (H1 & H2 & H3 & H4).
  cbv zeta in H1, H2, H3, H4.
  set (t' := sql_update _ set_deleted t) in *.
  exists t'. split; [now rewrite Hi|].
  repeat (split; [assumption|]).
  destruct (by_id_some _ _ _ H1) as [Hin' _].
  assert (Hget' : get_row chat rid t' = Some (set_deleted r)).
  { rewrite <- Hi. apply (get_row_in chat t' (set_deleted r) H3 Hin'). exact Hc. }
  split; [|split].
  - unfold delete_reminder. rewrite (find_row_if chat rid _ t' H3), Hget'.
    reflexivity.
  - intros now. unfold mark_done. rewrite (find_row_if chat rid _ t' H3), Hget'.
    reflexivity.
  - intros dt. unfold update_reminder_time.
    rewrite (find_row_if chat rid _ t' H3), Hget'. reflexivity.
Qed.

(** X4.  [insert_reminder] gives the new reminder an id above every id of
    the table, so it never takes the place of another reminder; the row
    is stored pending, with no retry made, under the given chat, and the
    rows that were there are not touched. *)
Theorem insert_takes_fresh_id now chat task due amount cat t :
  wf_table t ->
  exists t' rid,
    insert_reminder now chat task due amount cat t = (t', (rid, instant due))
    /\ (forall r, In r t -> r_id r < rid)
    /\ by_id rid t = None
    /\ by_id rid t'
       = Some (Reminder rid chat task (instant due) Pending amount cat
                        (Some now) None 0 None)
    /\ (forall k, k <> rid -> by_id k t' = by_id k t)
    /\ wf_table t'.
Proof.
  intros Hwf. unfold insert_reminder. cbv zeta.
  eexists. eexists. split; [reflexivity|].
  assert (Hlt : forall r, In r t -> r_id r < next_id t)
    by (intros r Hr; now apply next_id_above).
  assert (Hnone : by_id (next_id t) t = None).
  { unfold by_id. destruct (find _ t) as [x|] eqn:Hx; [|reflexivity].
    destruct (find_some _ _ Hx) as [Hin Hk]. apply Z.eqb_eq in Hk.
    specialize (Hlt x Hin). lia. }
  split; [exact Hlt|]. split; [exact Hnone|]. split; [|split].
  - unfold by_id in *. rewrite find_app, Hnone. cbn [find r_id].
    now rewrite Z.eqb_refl.
  - intros k Hk. unfold by_id. rewrite find_app.
    destruct (find _ t); [reflexivity|]. cbn [find r_id].
    replace (next_id t =? k) with false by (symmetry; apply Z.eqb_neq; lia).
    reflexivity.
  - exact (insert_reminder_wf now chat task due amount cat t Hwf).
Qed.


(** ** Listings *)

Lemma sorted_app_le {A} (R : A -> A -> Prop) l l' :
  StronglySorted R (l ++ l') ->
  StronglySorted R l /\ forall x y, In x l -> In y l' -> R x y.
Proof.
  induction l as [|a l IH]; cbn [app]; intros Hs.
  - split; [constructor | intros x y []].
  - inversion Hs as [|? ? Hs' Hall]; subst. destruct (IH Hs') as [Hl Hle].
    rewrite List.Forall_forall in Hall. split.
    + constructor; [exact Hl|]. apply List.Forall_forall. intros x Hx.
      apply Hall. apply in_or_app. now left.
    + intros x y [<-|Hx] Hy.
      * apply Hall. apply in_or_app. now right.
      * now apply Hle.
Qed.

Lemma fetch_reminders_listed chat st limit t :
  fetch_reminders chat st limit t
  = firstn limit (order_by_due (List.filter (listed chat st) t)).
Proof. destruct st; reflexivity. Qed.

(** X5.  A listing of [fetch_reminders] holds only rows of the chat with
    the status asked for (any status but deleted when none is asked for),
    in the order of the due column, and at most [limit] of them; when
    rows are cut off by the limit, each of them comes, in that order,
    after every row that is shown. *)
Theorem listing_shows_the_first_due chat st limit t :
  let l := fetch_reminders chat st limit t in
  (forall r, In r l -> In r t /\ listed chat st r = true)
  /\ StronglySorted due_le l
  /\ length l = Nat.min limit (length (List.filter (listed chat st) t))
  /\ (forall r x, In r t -> listed chat st r = true -> ~ In r l ->
                  In x l -> due_le x r).
Proof.
  tidy. intros l. subst l. rewrite fetch_reminders_listed.
  set (full := order_by_due (List.filter (listed chat st) t)).
  pose proof (order_by_due_sorted (List.filter (listed chat st) t)) as Hs.
  fold full in Hs. rewrite <- (firstn_skipn limit full) in Hs.
  destruct (sorted_app_le _ _ _ Hs) as [Hfirst Hle].
  split; [|split; [|split]].
  - intros r Hr. apply in_firstn in Hr. unfold full in Hr.
    rewrite in_order_by_due, filter_In in Hr. exact Hr.
  - exact Hfirst.
  - rewrite length_firstn. unfold full. now rewrite length_order_by_due.
  - intros r x Hr Hl Hnot Hx. apply Hle; [exact Hx|].
    assert (Hfull : In r full)
      by (unfold full; rewrite in_order_by_due, filter_In; auto).
    rewrite <- (firstn_skipn limit full) in Hfull.
    apply in_app_or in Hfull. destruct Hfull; [contradiction | assumption].
Qed.

(** X6.  A range query of [fetch_range] returns exactly the rows of the
    chat that are not deleted, have the category asked for when one is
    asked for, and whose due text lies between the two bounds in the
    order of the column; it returns each of them once, in that order. *)
Theorem range_query_selects_the_window chat s e cat t :
  let sel r :=
    (r_chat_id r =? chat) && negb (status_eqb (r_status r) Deleted)
    && match cat with Some c => category_eqb (r_category r) c | None => true end
    && sql_le (instant s) (r_due_utc r) && sql_le (r_due_utc r) (instant e) in
  (forall r, In r (fetch_range chat s e cat t) <-> In r t /\ sel r = true)
  /\ StronglySorted due_le (fetch_range chat s e cat t)
  /\ length (fetch_range chat s e cat t) = length (List.filter sel t).
Proof.
  tidy. intros sel.
  assert (Heq : fetch_range chat s e cat t = order_by_due (List.filter sel t)).
  { unfold fetch_range, sel. destruct cat as [c|]; cbv zeta; f_equal.
    apply filter_ext. intros r. now rewrite andb_true_r. }
  rewrite Heq. split; [|split].
  - intros r. now rewrite in_order_by_due, filter_In.
  - apply order_by_due_sorted.
  - apply length_order_by_due.
Qed.


(** ** What a tick does and does not do *)

Lemma tick_attempts_at_most_one now send r a :
  In a (tick_attempts now send r) ->
  a_rid a = r_id r /\ tick_attempts now send r = [a].
Proof.
  unfold tick_attempts. destruct (status_eqb (r_status r) Pending); [|intros []].
  destruct (tick_decide now send r); cbn [In]; intros H; try contradiction;
    destruct H as [<-|[]]; auto.
Qed.

Lemma tick_attempt_ids now send t :
  wf_table t -> List.NoDup (map a_rid (flat_map (tick_attempts now send) t)).
Proof.
  unfold wf_table. induction t as [|x t IH]; cbn [flat_map map]; intros Hwf.
  - constructor.
  - inversion Hwf as [|? ? Hx Hwf']; subst. rewrite map_app.
    apply List.NoDup_app.
    + destruct (tick_attempts now send x) as [|a l] eqn:Ha; [constructor|].
      destruct (tick_attempts_at_most_one now send x a) as [_ Hone];
        [rewrite Ha; now left|].
      rewrite Ha in Hone. injection Hone as ->.
      constructor; [intros [] | constructor].
    + now apply IH.
    + intros k Hk Hk'. apply in_map_iff in Hk. destruct Hk as (a & <- & Ha).
      destruct (tick_attempts_at_most_one now send x a Ha) as [Hid _].
      apply in_map_iff in Hk'. destruct Hk' as (b & Hb & Hin).
      apply in_flat_map in Hin. destruct Hin as (y & Hy & Hby).
      destruct (tick_attempts_at_most_one now send y b Hby) as [Hid' _].
      apply Hx. apply in_map_iff. exists y. split; [congruence | exact Hy].
Qed.

(** X7.  A tick hands a reminder to the transport only if it is pending,
    due, has retries left and is out of its cooldown, records the
    transport's answer, and makes at most one attempt per reminder. *)
Theorem tick_attempts_only_eligible now send t :
  wf_table t ->
  (forall a, In a (snd (tick_job now send t)) ->
     exists r, In r t /\ eligible now r
               /\ a = Attempt (r_id r) (r_chat_id r)
                              (send (r_chat_id r) (r_task r) (r_id r)))
  /\ List.NoDup (map a_rid (snd (tick_job now send t))).
Proof.
  intros Hwf. split.
  - intros a Ha.
    destruct (tick_attempt_inv now send t a Hwf Ha) as (r & Hin & Hp & Hr & Hd).
    exists r. split; [exact Hin|]. split; [|exact Hr].
    apply (decide_eligible now send r Hp). rewrite Hd.
    destruct (send _ _ _); auto.
  - rewrite tick_job_rows by exact Hwf. cbn [snd].
    now apply tick_attempt_ids.
Qed.

(** X8.  A tick adds and removes no row and never deletes; it leaves the
    chat, task, due time, amount, category and creation time of every
    reminder alone; it leaves alone every reminder that is not pending or
    not yet due; and a retry counter moves by at most one, never past
    [MAX_RETRIES]. *)
Theorem tick_changes_only_bookkeeping now send t :
  wf_table t ->
  map r_id (fst (tick_job now send t)) = map r_id t
  /\ forall k r, by_id k t = Some r ->
       exists r', by_id k (fst (tick_job now send t)) = Some r'
         /\ r_chat_id r' = r_chat_id r /\ r_task r' = r_task r
         /\ r_due_utc r' = r_due_utc r /\ r_amount_cop r' = r_amount_cop r
         /\ r_category r' = r_category r /\ r_created_utc r' = r_created_utc r
         /\ (r_status r <> Pending \/ now < r_due_utc r -> r' = r)
         /\ (r_status r' = r_status r \/ r_status r' = Done)
         /\ r_retry_count r <= r_retry_count r' <= r_retry_count r + 1
         /\ (r_retry_count r <= MAX_RETRIES -> r_retry_count r' <= MAX_RETRIES).
Proof.
  intros Hwf. split.
  - rewrite tick_job_rows by exact Hwf. cbn [fst]. rewrite map_map.
    apply map_ext. intros x. apply tick_step_id.
  - intros k r Hr. rewrite (tick_job_by_id now send t k Hwf), Hr.
    cbn [option_map]. eexists. split; [reflexivity|].
    unfold tick_step, tick_decide.
    destruct (status_eqb (r_status r) Pending) eqn:Hp.
    2:{ repeat split; auto; lia. }
    apply status_eqb_eq in Hp.
    destruct (now <? r_due_utc r) eqn:Hdue.
    { repeat split; auto; lia. }
    apply Z.ltb_ge in Hdue.
    assert (Hfix : r_status r <> Pending \/ now < r_due_utc r -> False)
      by (intros [H|H]; [congruence | lia]).
    destruct (MAX_RETRIES <=? r_retry_count r) eqn:Hmax.
    { cbn. repeat split; auto; try lia. intros H. now destruct (Hfix H). }
    apply Z.leb_gt in Hmax.
    destruct (match r_last_sent_utc r with Some _ => _ | None => _ end).
    { repeat split; auto; lia. }
    destruct (send _ _ _); cbn; repeat split; auto; try lia;
      intros H; now destruct (Hfix H).
Qed.

(** X9.  After a delivery that the transport accepted, the reminder is
    left in peace for [RETRY_EVERY_MINUTES]: no tick before that makes an
    attempt for it, whatever the transport. *)
Theorem delivered_reminder_rests now now' send send' t r :
  wf_table t -> In r t ->
  In (Attempt (r_id r) (r_chat_id r) true) (snd (tick_job now send t)) ->
  now' - now < RETRY_EVERY_MINUTES * us_per_minute ->
  by_id (r_id r) (fst (tick_job now send t)) = Some (set_sent now r)
  /\ forall a, In a (snd (tick_job now' send' (fst (tick_job now send t)))) ->
               a_rid a <> r_id r.
Proof.
  intros Hwf Hin Ha Hsoon.
  destruct (tick_attempt_inv now send t _ Hwf Ha) as (x & Hx & Hp & Heq & Hd).
  injection Heq as Hid _ Hsend.
  assert (x = r) by (apply (wf_same_id t); auto). subst x.
  rewrite <- Hsend in Hd. clear Hsend Hid.
  assert (Hby : by_id (r_id r) (fst (tick_job now send t)) = Some (set_sent now r)).
  { rewrite (tick_job_by_id now send t _ Hwf), (by_id_in t r Hwf Hin).
    cbn [option_map]. unfold tick_step. rewrite Hp, Hd. reflexivity. }
  split; [exact Hby|].
  destruct (by_id_some _ _ _ Hby) as [Hin' _].
  intros a Ha'.
  change (r_id r) with (r_id (set_sent now r)).
  apply (tick_no_attempt now' send' _ (set_sent now r) a
           (tick_job_wf now send t Hwf) Hin'); [|exact Ha'].
  right. unfold tick_decide. cbn [set_sent r_due_utc r_retry_count r_last_sent_utc].
  destruct (now' <? r_due_utc r); [now left|].
  destruct (MAX_RETRIES <=? r_retry_count r + 1); [now right|].
  replace (now' - now <? RETRY_EVERY_MINUTES * us_per_minute) with true
    by (symmetry; apply Z.ltb_lt; lia).
  now left.
Qed.

(** ** The retry budget *)

Lemma deliveries_app k l l' : deliveries k (l ++ l') = deliveries k l + deliveries k l'.
Proof. unfold deliveries. rewrite List.filter_app, List.length_app. lia. Qed.

Lemma deliveries_none k l :
  (forall a, In a l -> a_rid a <> k) -> deliveries k l = 0.
Proof.
  intros H. unfold deliveries.
  replace (List.filter _ l) with (@nil attempt); [reflexivity|].
  symmetry. induction l as [|a l IH]; cbn [List.filter]; [reflexivity|].
  replace (a_rid a =? k) with false
    by (symmetry; apply Z.eqb_neq; apply H; now left).
  cbn [andb]. apply IH. intros b Hb. apply H. now right.
Qed.

(** The deliveries of one tick for a reminder are what its counter gains. *)
Lemma tick_counts_deliveries now send t k r :
  wf_table t -> by_id k t = Some r ->
  r_retry_count (tick_step now send r)
  = r_retry_count r + deliveries k (flat_map (tick_attempts now send) t).
Proof.
  unfold wf_table. induction t as [|x t IH]; intros Hwf Hr; [discriminate|].
  inversion Hwf as [|? ? Hx Hwf']; subst.
  cbn [flat_map]. rewrite deliveries_app.
  unfold by_id in Hr. cbn [find] in Hr.
  destruct (r_id x =? k) eqn:Hk.
  - injection Hr as ->. apply Z.eqb_eq in Hk.
    rewrite (deliveries_none k (flat_map _ t)).
    2:{ intros a Ha Hak. apply in_flat_map in Ha. destruct Ha as (y & Hy & Hay).
        destruct (tick_attempts_at_most_one now send y a Hay) as [Hid _].
        apply Hx. apply in_map_iff. exists y. split; [congruence | exact Hy]. }
    unfold tick_step, tick_attempts, deliveries.
    destruct (status_eqb (r_status r) Pending); [|cbn; lia].
    destruct (tick_decide now send r); cbn [List.filter a_rid a_delivered];
      rewrite ?Hk, ?Z.eqb_refl; cbn; lia.
  - rewrite (deliveries_none k (tick_attempts now send x)).
    2:{ intros a Ha Hak.
        destruct (tick_attempts_at_most_one now send x a Ha) as [Hid _].
        apply Z.eqb_neq in Hk. congruence. }
    rewrite (IH Hwf' Hr). lia.
Qed.

Lemma tick_step_within_budget now send r :
  r_retry_count r <= MAX_RETRIES ->
  r_retry_count (tick_step now send r) <= MAX_RETRIES.
Proof.
  intros H. unfold tick_step, tick_decide.
  destruct (status_eqb (r_status r) Pending); [|exact H].
  destruct (now <? r_due_utc r); [exact H|].
  destruct (MAX_RETRIES <=? r_retry_count r) eqn:Hmax; [exact H|].
  apply Z.leb_gt in Hmax.
  destruct (match r_last_sent_utc r with Some _ => _ | None => _ end); [exact H|].
  destruct (send _ _ _); cbn; lia.
Qed.

Lemma run_op_counts k r0 op t log :
  wf_table t ->
  (exists r, by_id k t = Some r
             /\ r_retry_count r = r_retry_count r0 + deliveries k log
             /\ r_retry_count r <= MAX_RETRIES) ->
  wf_table (fst (run_op (t, log) op))
  /\ exists r, by_id k (fst (run_op (t, log) op)) = Some r
               /\ r_retry_count r
                  = r_retry_count r0 + deliveries k (snd (run_op (t, log) op))
               /\ r_retry_count r <= MAX_RETRIES.
Proof.
  intros Hwf (r & Hr & Hcount & Hmax).
  destruct op as [now send|now chat task due amount cat|now chat rid|chat rid];
    unfold run_op.
  - pose proof (tick_job_wf now send t Hwf) as Hwf'.
    pose proof (tick_job_by_id now send t k Hwf) as Hby.
    pose proof (tick_counts_deliveries now send t k r Hwf Hr) as Hc.
    rewrite (tick_job_rows now send t Hwf) in *. cbn [fst snd] in *.
    split; [exact Hwf'|]. exists (tick_step now send r).
    split; [now rewrite Hby, Hr|]. split.
    + rewrite deliveries_app. lia.
    + now apply tick_step_within_budget.
  - split; [now apply insert_reminder_wf|].
    exists r. split; [|now split]. unfold insert_reminder, by_id. cbn [fst].
    rewrite find_app. fold (by_id k t). now rewrite Hr.
  - cbn [fst snd]. unfold mark_done.
    match goal with |- context [match ?sel with Some _ => _ | None => (t, None) end] =>
      destruct sel as [row|] end; cbn [fst].
    + split; [now apply sql_update_wf|].
      unfold by_id. rewrite find_sql_update by reflexivity.
      fold (by_id k t). rewrite Hr. cbn [option_map].
      destruct ((r_chat_id r =? chat) && (r_id r =? r_id row)).
      * eexists. split; [reflexivity|]. cbn. now split.
      * exists r. now split.
    + split; [exact Hwf|]. exists r. now split.
  - cbn [fst snd]. unfold delete_reminder.
    destruct (find _ t) as [row|]; cbn [fst].
    + split; [now apply sql_update_wf|].
      unfold by_id. rewrite find_sql_update by reflexivity.
      fold (by_id k t). rewrite Hr. cbn [option_map].
      destruct ((r_chat_id r =? chat) && (r_id r =? rid)).
      * eexists. split; [reflexivity|]. cbn. now split.
      * exists r. now split.
    + split; [exact Hwf|]. exists r. now split.
Qed.

(** X10.  Between two reschedules a reminder is delivered at most as
    often as its retry budget allows: over any run of ticks, insertions,
    confirmations and deletions, whatever the transport answers, the
    retry counter is its starting value plus the number of accepted
    deliveries, and it never passes [MAX_RETRIES]. *)
Theorem deliveries_stay_within_budget k r ops t :
  wf_table t -> by_id k t = Some r -> r_retry_count r <= MAX_RETRIES ->
  (exists r', by_id k (fst (run_ops ops t)) = Some r'
              /\ r_retry_count r'
                 = r_retry_count r + deliveries k (snd (run_ops ops t)))
  /\ deliveries k (snd (run_ops ops t)) <= MAX_RETRIES - r_retry_count r.
Proof.
  intros Hwf Hr Hmax. unfold run_ops.
  assert (H : forall ops t log,
             wf_table t ->
             (exists r1, by_id k t = Some r1
                /\ r_retry_count r1 = r_retry_count r + deliveries k log
                /\ r_retry_count r1 <= MAX_RETRIES) ->
             exists r1, by_id k (fst (fold_left run_op ops (t, log))) = Some r1
                /\ r_retry_count r1
                   = r_retry_count r
                     + deliveries k (snd (fold_left run_op ops (t, log)))
                /\ r_retry_count r1 <= MAX_RETRIES).
  { clear. induction ops as [|op ops IH]; intros t log Hwf Hinv; cbn [fold_left].
    - exact Hinv.
    - destruct (run_op_counts k r op t log Hwf Hinv) as [Hwf' Hinv'].
      destruct (run_op (t, log) op) as [t' log']. now apply IH. }
  destruct (H ops t [] Hwf) as (r1 & H1 & H2 & H3).
  { exists r. split; [exact Hr|]. split; [unfold deliveries; cbn; lia | exact Hmax]. }
  split; [exists r1; now split | lia].
Qed.


(** ** The handlers stay in their chat *)

Lemma same_reminder_refl r : same_reminder r r.
Proof. unfold same_reminder. repeat split. Qed.

Lemma touched_by_refl chat r : touched_by chat r r.
Proof. unfold touched_by. split; [apply same_reminder_refl | auto]. Qed.

Lemma touched_by_trans chat a b c :
  touched_by chat a b -> touched_by chat b c -> touched_by chat a c.
Proof.
  intros (Hs & Hc & Hd) (Hs' & Hc' & Hd').
  unfold same_reminder in *.
  destruct Hs as (H1 & H2 & H3 & H4 & H5 & H6).
  destruct Hs' as (H1' & H2' & H3' & H4' & H5' & H6').
  split; [repeat split; congruence|]. split.
  - intros H. pose proof (Hc H) as ->. apply Hc'. exact H.
  - intros H. pose proof (Hd H) as ->. apply Hd'. exact H.
Qed.

Lemma touched_all_refl chat t : Forall2 (touched_by chat) t t.
Proof. induction t; constructor; [apply touched_by_refl | assumption]. Qed.

Lemma touched_all_trans chat t :
  forall t' t'', Forall2 (touched_by chat) t t' -> Forall2 (touched_by chat) t' t'' ->
                 Forall2 (touched_by chat) t t''.
Proof.
  induction t as [|a t IH]; intros t' t'' H H'.
  - inversion H; subst. inversion H'; subst. constructor.
  - inversion H; subst. inversion H'; subst. constructor.
    + eapply touched_by_trans; eassumption.
    + eapply IH; eassumption.
Qed.

Lemma touched_split chat l1 :
  forall l2 l, Forall2 (touched_by chat) (l1 ++ l2) l ->
    exists a b, l = a ++ b /\ Forall2 (touched_by chat) l1 a
                /\ Forall2 (touched_by chat) l2 b.
Proof.
  induction l1 as [|x l1 IH]; cbn [app]; intros l2 l H.
  - exists [], l. repeat split; [constructor | exact H].
  - inversion H as [|? y ? l' Hxy Hrest]; subst.
    destruct (IH _ _ Hrest) as (a & b & -> & Ha & Hb).
    exists (y :: a), b. repeat split; [constructor; assumption | exact Hb].
Qed.

Lemma touched_keeps_chat chat new :
  forall b, Forall2 (touched_by chat) new b ->
            Forall (fun r => r_chat_id r = chat) new ->
            Forall (fun r => r_chat_id r = chat) b.
Proof.
  induction new as [|x new IH]; intros b Hb Hnew.
  - inversion Hb. constructor.
  - inversion Hb as [|? y ? b' Hxy Hrest]; subst.
    inversion Hnew as [|? ? Hx Hnew']; subst.
    constructor; [|now apply IH].
    destruct Hxy as ((_ & Hc & _) & _ & _). congruence.
Qed.

Lemma extends_refl chat t : extends_for chat t t.
Proof.
  exists t, []. rewrite app_nil_r. repeat split; [apply touched_all_refl | constructor].
Qed.

Lemma extends_trans chat t t' t'' :
  extends_for chat t t' -> extends_for chat t' t'' -> extends_for chat t t''.
Proof.
  intros (old & new & -> & Hold & Hnew) (old' & new' & -> & Hold' & Hnew').
  destruct (touched_split chat old new old' Hold') as (a & b & -> & Ha & Hb).
  exists a, (b ++ new'). rewrite app_assoc. split; [reflexivity|]. split.
  - eapply touched_all_trans; eassumption.
  - apply List.Forall_app. split; [|exact Hnew'].
    eapply touched_keeps_chat; eassumption.
Qed.

Lemma sql_update_touched chat cond set t :
  (forall r, In r t -> cond r = true -> r_chat_id r = chat /\ r_status r <> Deleted) ->
  (forall x, same_reminder x (set x)) ->
  Forall2 (touched_by chat) t (sql_update cond set t).
Proof.
  intros Hcond Hset. unfold sql_update.
  induction t as [|a t IH]; cbn [map]; constructor.
  - destruct (cond a) eqn:Ha; [|apply touched_by_refl].
    destruct (Hcond a (or_introl eq_refl) Ha) as [Hc Hd].
    split; [apply Hset|]. split; intros H; contradiction.
  - apply IH. intros r Hr. apply Hcond. now right.
Qed.

(** An update of one row of the chat that is not deleted. *)
Lemma row_update_extends chat rid set t row :
  wf_table t -> In row t -> r_id row = rid -> r_status row <> Deleted ->
  (forall x, same_reminder x (set x)) ->
  extends_for chat t
    (sql_update (fun r => (r_chat_id r =? chat) && (r_id r =? rid)) set t).
Proof.
  intros Hwf Hin Hid Hst Hset.
  exists (sql_update (fun r => (r_chat_id r =? chat) && (r_id r =? rid)) set t), [].
  rewrite app_nil_r. split; [reflexivity|]. split; [|constructor].
  apply sql_update_touched; [|exact Hset].
  intros r Hr Hc. apply andb_true_iff in Hc. destruct Hc as [Hc Hi].
  apply Z.eqb_eq in Hc, Hi.
  assert (r = row) by (apply (wf_same_id t); auto; congruence). subst r.
  auto.
Qed.

Lemma mark_done_effect now chat rid t :
  wf_table t ->
  wf_table (fst (mark_done now chat rid t))
  /\ extends_for chat t (fst (mark_done now chat rid t)).
Proof.
  intros Hwf. unfold mark_done.
  match goal with |- context [match ?sel with Some _ => _ | None => (t, None) end] =>
    destruct sel as [row|] eqn:Hsel end; cbn [fst].
  2:{ split; [exact Hwf | apply extends_refl]. }
  split; [now apply sql_update_wf|].
  assert (Hrow : In row t /\ r_status row = Pending).
  { destruct rid as [rid|].
    - destruct (find_some _ _ Hsel) as [Hin Hp].
      apply andb_true_iff in Hp. destruct Hp as [_ Hp].
      apply status_eqb_eq in Hp. auto.
    - destruct (first_by_due _ _ _ Hsel) as (Hin & Hp & _).
      apply andb_true_iff in Hp. destruct Hp as [_ Hp].
      apply status_eqb_eq in Hp. auto. }
  destruct Hrow as [Hin Hp].
  apply (row_update_extends chat (r_id row) (set_done now) t row); auto.
  - congruence.
  - intros x. unfold same_reminder. cbn. repeat split.
Qed.

Lemma delete_reminder_effect chat rid t :
  wf_table t ->
  wf_table (fst (delete_reminder chat rid t))
  /\ extends_for chat t (fst (delete_reminder chat rid t)).
Proof.
  intros Hwf. unfold delete_reminder.
  destruct (find _ t) as [row|] eqn:Hsel; cbn [fst].
  2:{ split; [exact Hwf | apply extends_refl]. }
  split; [now apply sql_update_wf|].
  destruct (find_some _ _ Hsel) as [Hin Hp].
  apply andb_true_iff in Hp. destruct Hp as [Hp Hnd].
  apply andb_true_iff in Hp. destruct Hp as [_ Hid]. apply Z.eqb_eq in Hid.
  apply negb_true_iff, status_eqb_neq in Hnd.
  apply (row_update_extends chat rid set_deleted t row); auto.
  intros x. unfold same_reminder. cbn. repeat split.
Qed.

Lemma update_reminder_time_effect chat rid dt t :
  wf_table t ->
  wf_table (fst (update_reminder_time chat rid dt t))
  /\ extends_for chat t (fst (update_reminder_time chat rid dt t))
  /\ map r_id (fst (update_reminder_time chat rid dt t)) = map r_id t.
Proof.
  intros Hwf. unfold update_reminder_time. cbv zeta.
  destruct (find _ t) as [row|] eqn:Hsel; cbn [fst].
  2:{ split; [exact Hwf|]. split; [apply extends_refl | reflexivity]. }
  split; [now apply sql_update_wf|].
  destruct (find_some _ _ Hsel) as [Hin Hp].
  apply andb_true_iff in Hp. destruct Hp as [Hp Hnd].
  apply andb_true_iff in Hp. destruct Hp as [_ Hid]. apply Z.eqb_eq in Hid.
  apply negb_true_iff, status_eqb_neq in Hnd.
  split; [|now apply sql_update_ids].
  apply (row_update_extends chat rid _ t row); auto.
  intros x. unfold same_reminder. cbn. repeat split.
Qed.

Lemma insert_reminder_effect now chat task due amount cat t :
  wf_table t ->
  wf_table (fst (insert_reminder now chat task due amount cat t))
  /\ extends_for chat t (fst (insert_reminder now chat task due amount cat t)).
Proof.
  intros Hwf. split; [now apply insert_reminder_wf|].
  unfold insert_reminder. cbn [fst]. eexists t, [_]. split; [reflexivity|].
  split; [apply touched_all_refl|]. constructor; [reflexivity | constructor].
Qed.

Lemma delete_all_effect chat ids :
  forall t del nf,
    wf_table t ->
    let acc :=
      fold_left
        (fun (acc : table * list Z * list Z) (rid : Z) =>
           let '(t, deleted, not_found) := acc in
           match delete_reminder chat rid t with
           | (t', Some _) => (t', deleted ++ [rid], not_found)
           | (t', None) => (t', deleted, not_found ++ [rid])
           end) ids (t, del, nf) in
    wf_table (fst (fst acc)) /\ extends_for chat t (fst (fst acc)).
Proof.
  induction ids as [|rid ids IH]; intros t del nf Hwf; cbn [fold_left].
  - split; [exact Hwf | apply extends_refl].
  - destruct (delete_reminder_effect chat rid t Hwf) as [Hwf' Hext].
    destruct (delete_reminder chat rid t) as [t' [res|]]; cbn [fst] in *.
    + destruct (IH t' (del ++ [rid]) nf Hwf') as [H1 H2].
      split; [exact H1|]. eapply extends_trans; eassumption.
    + destruct (IH t' del (nf ++ [rid]) Hwf') as [H1 H2].
      split; [exact H1|]. eapply extends_trans; eassumption.
Qed.


Ltac same_table H Hwf :=
  injection H as <-; cbn [db outbox reply];
  split; [exact Hwf|]; split; [apply extends_refl|]; eexists; reflexivity.

Ltac new_table H H1 H2 :=
  injection H as <-; cbn [db outbox reply];
  split; [exact H1|]; split; [exact H2|]; eexists; reflexivity.

Lemma on_text_intents_effect now chat txt w w' :
  wf_table (db w) -> on_text_intents now chat txt w = Ok w' ->
  wf_table (db w') /\ extends_for chat (db w) (db w')
  /\ exists m, outbox w' = outbox w ++ [m].
Proof.
  intros Hwf H. unfold on_text_intents in H. cbv zeta in H.
  destruct (looks_like_confirm txt).
  { destruct (mark_done_effect now chat None (db w) Hwf) as [H1 H2].
    destruct (mark_done now chat None (db w)) as [db' [[rid task]|]];
      cbn [fst] in *; new_table H H1 H2. }
  destruct (contains (u "quincena") (lower txt) && any_in SUM_WORDS (lower txt)).
  { destruct (match parse_quincena_query now txt with
              | QPeriod p => Some p
              | QNone => current_quincena_range now
              | QRaised => None
              end) as [[[s e] label]|]; [|discriminate].
    same_table H Hwf. }
  destruct (parse_create_intent now txt) as [parsed|]; [|same_table H Hwf].
  destruct (pc_due_local parsed) as [due|]; [|same_table H Hwf].
  destruct (insert_reminder_effect now chat (pc_task parsed) due
              (pc_amount_cop parsed) (pc_category parsed) (db w) Hwf) as [H1 H2].
  destruct (insert_reminder now chat (pc_task parsed) due (pc_amount_cop parsed)
              (pc_category parsed) (db w)) as [db' [rid due_utc]].
  cbn [fst] in *. new_table H H1 H2.
Qed.

Lemma on_text_continuation_effect now chat txt w w' :
  wf_table (db w) -> on_text_continuation now chat txt w = Ok w' ->
  wf_table (db w') /\ extends_for chat (db w) (db w')
  /\ exists m, outbox w' = outbox w ++ [m].
Proof.
  intros Hwf H. unfold on_text_continuation in H.
  destruct (is_awaiting_datetime_for_reschedule (user_data w)).
  { unfold pop_awaiting_datetime_for_reschedule in H.
    destruct (user_data w !! KEY_RESCHEDULE) as [[task amount cat|rid]|];
      try discriminate.
    destruct (parse_date_time_from_text now txt) as [dt|]; [|same_table H Hwf].
    destruct (update_reminder_time_effect chat rid dt (db w) Hwf) as (H1 & H2 & _).
    destruct (update_reminder_time chat rid dt (db w)) as [db' [due|]];
      cbn [fst] in *; new_table H H1 H2. }
  destruct (is_awaiting_datetime_for_new (user_data w));
    [|now apply (on_text_intents_effect now chat txt)].
  unfold pop_awaiting_datetime_for_new in H.
  destruct (user_data w !! KEY_NEW) as [p|]; [|discriminate].
  destruct (parse_date_time_from_text now txt) as [dt|]; [|same_table H Hwf].
  destruct p as [task amount cat|rid]; [|discriminate].
  destruct (insert_reminder_effect now chat task dt amount cat (db w) Hwf) as [H1 H2].
  destruct (insert_reminder now chat task dt amount cat (db w)) as [db' [rid due_utc]].
  cbn [fst] in *. new_table H H1 H2.
Qed.

(** X11.  Whatever the message, when [on_text] answers it sends exactly
    one message, keeps the ids of the table distinct, and stays in its
    chat: the rows of the table remain in their places as the same
    reminders (id, chat, task, amount, category and creation time kept),
    a row of another chat or a deleted row is not changed at all, and
    rows are only added at the end, for the chat of the message. *)
Theorem text_handler_stays_in_its_chat now chat msg w w' :
  wf_table (db w) -> on_text now chat msg w = Ok w' ->
  wf_table (db w') /\ extends_for chat (db w) (db w')
  /\ exists m, outbox w' = outbox w ++ [m].
Proof.
  intros Hwf H. unfold on_text in H. cbv zeta in H.
  destruct (parse_delete_request (strip msg)) as [ids|].
  { pose proof (delete_all_effect chat ids (db w) [] [] Hwf) as He.
    cbv zeta in He. fold (delete_all chat ids (db w)) in He.
    destruct (delete_all chat ids (db w)) as [[db' del] nf].
    destruct He as [H1 H2]. cbn [fst] in *. new_table H H1 H2. }
  destruct (is_commands_request (strip msg)); [same_table H Hwf|].
  destruct (is_pending_list_request (strip msg)); [same_table H Hwf|].
  destruct (is_full_list_request (strip msg)); [same_table H Hwf|].
  destruct (is_quincena_list_request (strip msg)).
  { destruct (current_quincena_range now) as [[[s e] label]|]; [|discriminate].
    same_table H Hwf. }
  now apply (on_text_continuation_effect now chat (strip msg)).
Qed.

(** X12.  A button press handled by [on_callback] adds and removes no
    row, keeps the ids distinct and stays in its chat: every row remains
    the same reminder, and a row of another chat or a deleted row is not
    changed at all. *)
Theorem callback_handler_stays_in_its_chat now chat data w w' :
  wf_table (db w) -> on_callback now chat data w = Ok w' ->
  wf_table (db w') /\ Forall2 (touched_by chat) (db w) (db w').
Proof.
  intros Hwf H. unfold on_callback in H.
  assert (Hrows : forall t', wf_table t' -> extends_for chat (db w) t' ->
                             map r_id t' = map r_id (db w) ->
                             wf_table t' /\ Forall2 (touched_by chat) (db w) t').
  { intros t' Hwf' (old & new & -> & Hold & _) Hids. split; [exact Hwf'|].
    assert (Hlen : length (old ++ new) = length (db w))
      by (rewrite <- (length_map r_id), Hids; apply length_map).
    rewrite length_app, <- (Forall2_length _ _ _ Hold) in Hlen.
    destruct new; [now rewrite app_nil_r | cbn [length] in Hlen; lia]. }
  destruct (startswith (u "done:") data).
  { destruct (callback_rid data) as [rid|]; [|discriminate].
    destruct (mark_done_effect now chat (Some rid) (db w) Hwf) as [H1 H2].
    assert (H3 : map r_id (fst (mark_done now chat (Some rid) (db w)))
                 = map r_id (db w)).
    { unfold mark_done. destruct (find _ (db w)); [|reflexivity].
      now apply sql_update_ids. }
    destruct (mark_done now chat (Some rid) (db w)) as [db' [[rid2 task]|]];
      cbn [fst] in *; injection H as <-; cbn [db reply]; now apply Hrows. }
  destruct (startswith (u "resched:") data).
  { destruct (callback_rid data) as [rid|]; [|discriminate].
    injection H as <-. cbn [db reply]. split; [exact Hwf | apply touched_all_refl]. }
  destruct (startswith (u "snooze1h:") data).
  { destruct (callback_rid data) as [rid|]; [|discriminate].
    destruct (update_reminder_time_effect chat rid
                (dt_add (now_local now) (timedelta_hours 1)) (db w) Hwf)
      as (H1 & H2 & H3).
    destruct (update_reminder_time chat rid _ (db w)) as [db' [due|]];
      cbn [fst] in *; injection H as <-; cbn [db reply]; now apply Hrows. }
  injection H as <-. split; [exact Hwf | apply touched_all_refl].
Qed.


(** ** Numbers as text and back *)

Lemma digits_of_app f :
  forall n acc, digits_of f n acc = digits_of f n [] ++ acc.
Proof.
  induction f as [|f IH]; intros n acc; cbn [digits_of]; [reflexivity|].
  destruct (n / 10 =? 0); [reflexivity|].
  rewrite (IH _ (_ :: acc)), (IH _ [_]), <- app_assoc. reflexivity.
Qed.

Lemma digits_value_app s :
  forall a t, digits_value a (s ++ t)
              = match digits_value a s with
                | Some v => digits_value v t
                | None => None
                end.
Proof.
  induction s as [|c s IH]; intros a t; cbn [app digits_value]; [reflexivity|].
  destruct (is_digit c); [apply IH | reflexivity].
Qed.

Lemma is_digit_spec c : is_digit c = true <-> 48 <= c <= 57.
Proof. unfold is_digit, in_range. rewrite andb_true_iff, !Z.leb_le. reflexivity. Qed.

Lemma forallb_app_iff {A} (p : A -> bool) l l' :
  forallb p (l ++ l') = forallb p l && forallb p l'.
Proof.
  induction l as [|a l IH]; cbn [app forallb]; [reflexivity|].
  now rewrite IH, andb_assoc.
Qed.

(** The decimal digits of a number read back as that number. *)
Lemma digits_of_value f :
  forall n, 0 <= n -> (Z.to_nat n < f)%nat ->
    digits_value 0 (digits_of f n []) = Some n
    /\ forallb is_digit (digits_of f n []) = true
    /\ digits_of f n [] <> [].
Proof.
  induction f as [|f IH]; intros n Hn Hf; [lia|].
  cbn [digits_of].
  assert (Hm : 0 <= n mod 10 < 10) by (apply Z.mod_pos_bound; lia).
  assert (Hd : is_digit (48 + n mod 10) = true) by (apply is_digit_spec; lia).
  destruct (n / 10 =? 0) eqn:Hq.
  - apply Z.eqb_eq in Hq. cbn [digits_value forallb]. rewrite Hd.
    repeat split; [|discriminate]. f_equal.
    pose proof (Z.div_mod n 10 ltac:(lia)). lia.
  - apply Z.eqb_neq in Hq.
    assert (Hq' : 0 < n / 10).
    { pose proof (Z.div_pos n 10 Hn ltac:(lia)). lia. }
    assert (Hn0 : n <> 0) by (intros ->; now apply Hq).
    assert (Hlt : n / 10 < n) by (apply Z.div_lt; lia).
    destruct (IH (n / 10)) as (Hv & Hall & Hne); [lia | lia |].
    rewrite digits_of_app. split; [|split].
    + rewrite digits_value_app, Hv. cbn [digits_value]. rewrite Hd. f_equal.
      pose proof (Z.div_mod n 10 ltac:(lia)). lia.
    + rewrite forallb_app_iff, Hall. cbn [forallb]. now rewrite Hd.
    + intros H. apply app_eq_nil in H. destruct H as [_ H]. discriminate.
Qed.

Lemma str_of_nonneg_value n :
  0 <= n ->
  digits_value 0 (str_of_nonneg n) = Some n
  /\ forallb is_digit (str_of_nonneg n) = true
  /\ str_of_nonneg n <> [].
Proof. intros Hn. unfold str_of_nonneg. apply digits_of_value; lia. Qed.

Lemma in_range_out lo hi c : c < lo \/ hi < c -> in_range lo hi c = false.
Proof.
  intros H. unfold in_range. apply andb_false_iff.
  destruct H; [left; apply Z.leb_gt | right; apply Z.leb_gt]; lia.
Qed.

Lemma not_space c : 33 <= c <= 127 -> is_space c = false.
Proof.
  intros H. unfold is_space.
  rewrite !in_range_out by lia.
  repeat match goal with
         | |- context [c =? ?k] =>
             replace (c =? k) with false by (symmetry; apply Z.eqb_neq; lia)
         end.
  reflexivity.
Qed.

Lemma lstrip_by_id p s :
  match s with c :: _ => p c = false | [] => True end -> lstrip_by p s = s.
Proof. destruct s as [|c s]; cbn [lstrip_by]; [reflexivity|]. now intros ->. Qed.

Lemma strip_by_id p s :
  forallb (fun c => negb (p c)) s = true -> strip_by p s = s.
Proof.
  intros H. unfold strip_by, rstrip_by.
  assert (Hall : forall c, In c s -> p c = false).
  { intros c Hc. rewrite forallb_forall in H. specialize (H c Hc).
    now apply negb_true_iff in H. }
  rewrite (lstrip_by_id p s).
  2:{ destruct s; [exact I|]. apply Hall. now left. }
  rewrite (lstrip_by_id p (rev s)); [apply rev_involutive|].
  destruct (rev s) as [|c l] eqn:Hr; [exact I|].
  apply Hall. apply in_rev. rewrite Hr. now left.
Qed.

Lemma drop_underscores_digits s :
  forallb is_digit s = true -> s <> [] ->
  forall b, drop_underscores b s = Some s.
Proof.
  induction s as [|c s IH]; intros Hall Hne b; [congruence|].
  cbn [forallb] in Hall. apply andb_true_iff in Hall. destruct Hall as [Hc Hall].
  apply is_digit_spec in Hc. cbn [drop_underscores].
  replace (c =? 95) with false by (symmetry; apply Z.eqb_neq; lia).
  destruct s as [|c' s]; [reflexivity|].
  rewrite (IH Hall ltac:(discriminate) true). reflexivity.
Qed.

Lemma digits_not_space s :
  forallb is_digit s = true -> forallb (fun c => negb (is_space c)) s = true.
Proof.
  intros H. apply forallb_forall. intros c Hc. rewrite forallb_forall in H.
  specialize (H c Hc). apply is_digit_spec in H.
  rewrite not_space by lia. reflexivity.
Qed.

(** [int(str(n)) == n] *)
Lemma python_int_str n : python_int (str_of_int n) = Some n.
Proof.
  unfold str_of_int. destruct (Z.ltb_spec n 0) as [Hneg|Hpos].
  - destruct (str_of_nonneg_value (- n) ltac:(lia)) as (Hv & Hall & Hne).
    unfold python_int. rewrite (strip_by_id is_space).
    2:{ cbn [forallb]. rewrite (digits_not_space _ Hall).
        now rewrite (not_space 45) by lia. }
    rewrite (drop_underscores_digits _ Hall Hne).
    destruct (str_of_nonneg (- n)) as [|c d] eqn:Hs; [congruence|].
    rewrite Hv. cbn [option_map]. f_equal. lia.
  - destruct (str_of_nonneg_value n Hpos) as (Hv & Hall & Hne).
    unfold python_int. rewrite (strip_by_id is_space)
      by (now apply digits_not_space).
    destruct (str_of_nonneg n) as [|c d] eqn:Hs; [congruence|].
    cbn [forallb] in Hall. apply andb_true_iff in Hall. destruct Hall as [Hc Hall].
    pose proof (proj1 (is_digit_spec c) Hc) as Hc'.
    assert (Hd : drop_underscores false (c :: d) = Some (c :: d)).
    { apply drop_underscores_digits; [|discriminate].
      cbn [forallb]. now rewrite Hc, Hall. }
    assert (Hcases : In c [48; 49; 50; 51; 52; 53; 54; 55; 56; 57])
      by (cbn [In]; lia).
    cbn [In] in Hcases.
    repeat (destruct Hcases as [<-|Hcases];
            [cbv beta iota zeta; rewrite Hd; exact Hv|]).
    contradiction.
Qed.

Lemma str_of_int_no_colon n :
  forallb (fun c => negb (c =? 58)) (str_of_int n) = true.
Proof.
  assert (H : forall m, 0 <= m ->
            forallb (fun c => negb (c =? 58)) (str_of_nonneg m) = true).
  { intros m Hm. destruct (str_of_nonneg_value m Hm) as (_ & Hall & _).
    apply forallb_forall. intros c Hc. rewrite forallb_forall in Hall.
    specialize (Hall c Hc). apply is_digit_spec in Hall.
    apply negb_true_iff, Z.eqb_neq. lia. }
  unfold str_of_int. destruct (Z.ltb_spec n 0).
  - cbn [forallb]. rewrite H by lia. reflexivity.
  - now apply H.
Qed.

Lemma split_on_none sep s :
  forallb (fun c => negb (c =? sep)) s = true -> split_on sep s = [s].
Proof.
  induction s as [|c s IH]; cbn [forallb split_on]; [reflexivity|].
  intros H. apply andb_true_iff in H. destruct H as [Hc H].
  apply negb_true_iff in Hc. rewrite Hc, (IH H). reflexivity.
Qed.

Lemma split_on_app sep p s :
  forallb (fun c => negb (c =? sep)) p = true ->
  split_on sep (p ++ sep :: s) = p :: split_on sep s.
Proof.
  induction p as [|c p IH]; cbn [forallb app split_on].
  - intros _. now rewrite Z.eqb_refl.
  - intros H. apply andb_true_iff in H. destruct H as [Hc H].
    apply negb_true_iff in Hc. rewrite Hc, (IH H). reflexivity.
Qed.

Lemma callback_rid_of p n :
  forallb (fun c => negb (c =? 58)) p = true ->
  callback_rid (p ++ 58 :: str_of_int n) = Some n.
Proof.
  intros Hp. unfold callback_rid. change (ch ":") with 58.
  rewrite (split_on_app 58 p _ Hp), (split_on_none 58 _ (str_of_int_no_colon n)).
  cbn [nth_error]. apply python_int_str.
Qed.

(** X13.  The buttons sent with a reminder act on that reminder: the
    callback data that [reminder_keyboard] builds for an id is read back
    by [on_callback] as the same id, and each button reaches its own
    action (confirm, ask for a new date, snooze). *)
Theorem keyboard_buttons_reach_their_reminder rid now chat w :
  exists b_done b_resched b_snooze,
    reminder_keyboard rid = [[b_done; b_resched]; [b_snooze]]
    /\ callback_rid (b_callback_data b_done) = Some rid
    /\ callback_rid (b_callback_data b_resched) = Some rid
    /\ callback_rid (b_callback_data b_snooze) = Some rid
    /\ on_callback now chat (b_callback_data b_done) w
       = Ok (match mark_done now chat (Some rid) (db w) with
             | (db', None) => reply MsgAlreadyResolved (user_data w) db' w
             | (db', Some (rid2, task)) =>
                 reply (MsgMarkedDone rid2 task) (user_data w) db' w
             end)
    /\ on_callback now chat (b_callback_data b_resched) w
       = Ok (reply MsgAskReschedule
               (<[KEY_RESCHEDULE := PayloadResched rid]> (user_data w)) (db w) w)
    /\ on_callback now chat (b_callback_data b_snooze) w
       = Ok (match update_reminder_time chat rid
                     (dt_add (now_local now) (timedelta_hours 1)) (db w) with
             | (db', None) => reply MsgNotFound (user_data w) db' w
             | (db', Some due_utc) =>
                 reply (MsgSnoozed rid (from_utc_iso due_utc)) (user_data w) db' w
             end).
Proof.
  do 3 eexists. split; [reflexivity|]. cbn [b_callback_data].
  assert (Hd : callback_rid (u "done:" ++ str_of_int rid) = Some rid)
    by (apply (callback_rid_of (u "done")); reflexivity).
  assert (Hr : callback_rid (u "resched:" ++ str_of_int rid) = Some rid)
    by (apply (callback_rid_of (u "resched")); reflexivity).
  assert (Hs : callback_rid (u "snooze1h:" ++ str_of_int rid) = Some rid)
    by (apply (callback_rid_of (u "snooze1h")); reflexivity).
  repeat (split; [assumption|]).
  unfold on_callback. rewrite Hd, Hr, Hs.
  rewrite (startswith_app (u "done:")).
  replace (startswith (u "done:") (u "resched:" ++ str_of_int rid)) with false
    by reflexivity.
  rewrite (startswith_app (u "resched:")).
  replace (startswith (u "done:") (u "snooze1h:" ++ str_of_int rid)) with false
    by reflexivity.
  replace (startswith (u "resched:") (u "snooze1h:" ++ str_of_int rid)) with false
    by reflexivity.
  rewrite (startswith_app (u "snooze1h:")).
  split; [|split].
  - destruct (mark_done now chat (Some rid) (db w)) as [db' [[rid2 task]|]];
      reflexivity.
  - reflexivity.
  - destruct (update_reminder_time chat rid _ (db w)) as [db' [due|]]; reflexivity.
Qed.


(** ** Conversations *)



(** X15.  A reminder asked for without a date is stored by the reply
    that gives the date, as it was understood the first time: the task,
    amount and category read from the first message and the date read
    from the second go to [insert_reminder]; the first message changes no
    row, and after the second nothing is pending any more.  Both messages
    are [covered] texts and the amount, if any, is a [sqlite_integer]. *)
Theorem creation_waits_for_its_date now now' chat msg msg' parsed dt w :
  covered msg = true -> covered msg' = true ->
  storable_amount (pc_amount_cop parsed) = true ->
  user_data w !! KEY_RESCHEDULE = None -> user_data w !! KEY_NEW = None ->
  is_fixed_command (strip msg) = false ->
  looks_like_confirm (strip msg) = false ->
  contains (u "quincena") (lower (strip msg))
  && any_in SUM_WORDS (lower (strip msg)) = false ->
  parse_create_intent now (strip msg) = Some parsed ->
  pc_due_local parsed = None ->
  is_fixed_command (strip msg') = false ->
  parse_date_time_from_text now' (strip msg') = Some dt ->
  exists w1,
    on_text now chat msg w = Ok w1
    /\ db w1 = db w
    /\ outbox w1 = outbox w ++ [MsgAskWhen (pc_task parsed) (pc_amount_cop parsed)]
    /\ on_text now' chat msg' w1
       = let '(db', (rid, due_utc)) :=
           insert_reminder now' chat (pc_task parsed) dt (pc_amount_cop parsed)
             (pc_category parsed) (db w) in
         Ok (World (user_data w) db'
               (outbox w
                ++ [MsgAskWhen (pc_task parsed) (pc_amount_cop parsed);
                    MsgSaved rid (from_utc_iso due_utc) (pc_task parsed)
                      (pc_amount_cop parsed)])).
Proof.
  intros _ _ _ Hr Hn Hfix Hconf Hsum Hparsed Hdue Hfix' Hdt.
  destruct (not_fixed_command _ Hfix) as (Hd & Hc & Hp & Hf & Hq).
  destruct (not_fixed_command _ Hfix') as (Hd' & Hc' & Hp' & Hf' & Hq').
  eexists. split; [|split; [|split]].
  - unfold on_text. rewrite Hd, Hc, Hp, Hf, Hq.
    unfold on_text_continuation, is_awaiting_datetime_for_reschedule,
      is_awaiting_datetime_for_new. rewrite Hr, Hn.
    unfold on_text_intents. rewrite Hconf, Hsum, Hparsed, Hdue. reflexivity.
  - reflexivity.
  - reflexivity.
  - unfold on_text. rewrite Hd', Hc', Hp', Hf', Hq'.
    unfold on_text_continuation, is_awaiting_datetime_for_reschedule,
      is_awaiting_datetime_for_new, pop_awaiting_datetime_for_new,
      set_awaiting_datetime_for_new, reply.
    cbn [user_data db outbox].
    rewrite lookup_insert_ne by discriminate. rewrite Hr.
    rewrite lookup_insert_eq, Hdt, delete_insert_eq, (delete_id _ _ Hn).
    destruct (insert_reminder now' chat (pc_task parsed) dt (pc_amount_cop parsed)
                (pc_category parsed) (db w)) as [db' [rid due_utc]].
    rewrite <- app_assoc. reflexivity.
Qed.

Lemma lstrip_by_split p s :
  exists pre, s = pre ++ lstrip_by p s
              /\ match lstrip_by p s with c :: _ => p c = false | [] => True end.
Proof.
  induction s as [|c s (pre & Hs & Hh)]; cbn [lstrip_by].
  - exists []. split; [reflexivity | exact I].
  - destruct (p c) eqn:Hc.
    + exists (c :: pre). split; [cbn [app]; now f_equal | exact Hh].
    + exists []. split; [reflexivity | exact Hc].
Qed.

Lemma strip_by_idem p s : strip_by p (strip_by p s) = strip_by p s.
Proof.
  unfold strip_by, rstrip_by.
  destruct (lstrip_by_split p s) as (_ & _ & Ha).
  set (a := lstrip_by p s) in *.
  destruct (lstrip_by_split p (rev a)) as (pre & Hrev & Hb).
  set (b := lstrip_by p (rev a)) in *.
  assert (Hfix : lstrip_by p (rev b) = rev b).
  { apply lstrip_by_id. destruct (rev b) as [|c l] eqn:Hrb; [exact I|].
    assert (Ha' : a = (c :: l) ++ rev pre).
    { rewrite <- Hrb, <- rev_app_distr, <- Hrev. symmetry. apply rev_involutive. }
    rewrite Ha' in Ha. exact Ha. }
  rewrite Hfix, rev_involutive. f_equal.
  apply lstrip_by_id. exact Hb.
Qed.

(** X16.  A confirmation word anywhere in a message, even inside another
    word, makes the message a confirmation: unless it is a delete request
    or a fixed phrase, or a date is awaited, the message confirms the
    pending reminder of the chat that is first due, and no reminder is
    created from it.  The message is a [covered] text. *)
Theorem confirmation_word_anywhere_confirms now chat msg word w :
  covered msg = true ->
  In word CONFIRM_WORDS -> contains word (lower (strip msg)) = true ->
  is_fixed_command (strip msg) = false ->
  user_data w !! KEY_RESCHEDULE = None -> user_data w !! KEY_NEW = None ->
  on_text now chat msg w
  = Ok (match mark_done now chat None (db w) with
        | (db', None) => reply MsgNoPending (user_data w) db' w
        | (db', Some (rid, task)) => reply (MsgDone rid task) (user_data w) db' w
        end).
Proof.
  intros _ Hin Hc Hfix Hr Hn.
  destruct (not_fixed_command _ Hfix) as (Hd & Hco & Hp & Hf & Hq).
  unfold on_text. rewrite Hd, Hco, Hp, Hf, Hq.
  unfold on_text_continuation, is_awaiting_datetime_for_reschedule,
    is_awaiting_datetime_for_new. rewrite Hr, Hn.
  unfold on_text_intents.
  assert (Hconf : looks_like_confirm (strip msg) = true).
  { unfold looks_like_confirm. cbv zeta. unfold strip. rewrite strip_by_idem.
    apply existsb_exists. exists word. split; [exact Hin|].
    fold (strip msg). now rewrite Hc, orb_true_r. }
  rewrite Hconf.
  destruct (mark_done now chat None (db w)) as [db' [[rid task]|]]; reflexivity.
Qed.

(** ** Delete requests *)

Lemma dedup_spec ids :
  forall seen,
    List.NoDup (dedup seen ids)
    /\ forall x, In x (dedup seen ids) <-> In x ids /\ ~ In x seen.
Proof. tidy.
  induction ids as [|a ids IH]; intros seen; cbn [dedup].
  - split; [constructor|]. intros x. cbn [In]. tauto.
  - destruct (existsb (Z.eqb a) seen) eqn:Ha.
    + destruct (IH seen) as [Hnd Hin]. split; [exact Hnd|].
      intros x. rewrite Hin. cbn [In]. split; [tauto|].
      intros [[<-|Hx] Hs]; [|tauto].
      exfalso. apply Hs. apply existsb_exists in Ha.
      destruct Ha as (y & Hy & Hay). apply Z.eqb_eq in Hay. now subst y.
    + destruct (IH (a :: seen)) as [Hnd Hin].
      assert (Hnot : ~ In a seen).
      { intros Hs. assert (existsb (Z.eqb a) seen = true)
          by (apply existsb_exists; exists a; split; [exact Hs | apply Z.eqb_refl]).
        congruence. }
      split.
      * constructor; [|exact Hnd]. rewrite Hin. cbn [In]. tauto.
      * intros x. cbn [In]. rewrite Hin. cbn [In].
        destruct (Z.eq_dec a x) as [->|Hne]; tauto.
Qed.

Lemma set_deleted_again r : r_status r = Deleted -> set_deleted r = r.
Proof. destruct r. cbn. now intros ->. Qed.

(** A delete is the update of the rows of the chat with the id, whether
    or not it finds one. *)
Lemma delete_reminder_rows chat rid t :
  delete_reminder chat rid t
  = (sql_update (fun r => (r_chat_id r =? chat) && (r_id r =? rid)) set_deleted t,
     if deletable chat t rid
     then option_map (fun r => (r_id r, r_task r))
            (find (fun r => (r_chat_id r =? chat) && (r_id r =? rid)
                            && negb (status_eqb (r_status r) Deleted)) t)
     else None).
Proof.
  unfold delete_reminder, deletable.
  destruct (find _ t) as [row|] eqn:Hf.
  - destruct (find_some _ _ Hf) as [Hin Hp].
    replace (existsb _ t) with true; [reflexivity|].
    symmetry. apply existsb_exists. now exists row.
  - replace (existsb _ t) with false.
    2:{ symmetry. apply not_true_is_false. intros H. apply existsb_exists in H.
        destruct H as (x & Hx & Hp). now rewrite (find_none _ _ Hf x Hx) in Hp. }
    f_equal. symmetry. unfold sql_update.
    erewrite map_ext_in; [apply map_id|]. intros r Hr. cbv beta.
    destruct ((r_chat_id r =? chat) && (r_id r =? rid)) eqn:Hc; [|reflexivity].
    pose proof (find_none _ _ Hf r Hr) as Hn. cbv beta in Hn. rewrite Hc in Hn.
    apply set_deleted_again. cbn [andb] in Hn.
    apply negb_false_iff, status_eqb_eq in Hn. exact Hn.
Qed.

Lemma deletable_after chat rid k t :
  k <> rid ->
  deletable chat
    (sql_update (fun r => (r_chat_id r =? chat) && (r_id r =? rid)) set_deleted t) k
  = deletable chat t k.
Proof.
  intros Hk. unfold deletable, sql_update.
  induction t as [|r t IH]; cbn [map existsb]; [reflexivity|].
  rewrite IH. f_equal.
  destruct ((r_chat_id r =? chat) && (r_id r =? rid)) eqn:Hc; [|reflexivity].
  apply andb_true_iff in Hc. destruct Hc as [_ Hi]. apply Z.eqb_eq in Hi.
  cbn [set_deleted r_chat_id r_id r_status].
  replace (r_id r =? k) with false by (symmetry; apply Z.eqb_neq; lia).
  now rewrite !andb_false_r.
Qed.

Lemma delete_all_rows chat ids :
  forall t del nf,
    List.NoDup ids ->
    fold_left
      (fun (acc : table * list Z * list Z) (rid : Z) =>
         let '(t, deleted, not_found) := acc in
         match delete_reminder chat rid t with
         | (t', Some _) => (t', deleted ++ [rid], not_found)
         | (t', None) => (t', deleted, not_found ++ [rid])
         end) ids (t, del, nf)
    = (sql_update (fun r => (r_chat_id r =? chat) && existsb (Z.eqb (r_id r)) ids)
         set_deleted t,
       del ++ List.filter (deletable chat t) ids,
       nf ++ List.filter (fun k => negb (deletable chat t k)) ids).
Proof.
  induction ids as [|rid ids IH]; intros t del nf Hnd; cbn [fold_left].
  - cbn [List.filter existsb]. rewrite !app_nil_r. f_equal. f_equal.
    unfold sql_update. erewrite map_ext; [symmetry; apply map_id|].
    intros r. now rewrite andb_false_r.
  - inversion Hnd as [|? ? Hrid Hnd']; subst.
    rewrite delete_reminder_rows.
    set (t1 := sql_update (fun r => (r_chat_id r =? chat) && (r_id r =? rid))
                 set_deleted t).
    assert (Hrest : forall k, In k ids -> deletable chat t1 k = deletable chat t k).
    { intros k Hk. apply deletable_after. intros ->. contradiction. }
    assert (Htab : sql_update (fun r => (r_chat_id r =? chat)
                                        && existsb (Z.eqb (r_id r)) ids)
                     set_deleted t1
                   = sql_update (fun r => (r_chat_id r =? chat)
                                          && existsb (Z.eqb (r_id r)) (rid :: ids))
                       set_deleted t).
    { unfold t1, sql_update. rewrite map_map. apply map_ext. intros r.
      cbn [existsb].
      destruct (r_chat_id r =? chat) eqn:Hc; cbn [andb]; [|now rewrite Hc].
      destruct (r_id r =? rid) eqn:Hi; cbn [orb set_deleted r_chat_id r_id].
      - rewrite Hc. cbn [andb]. now destruct (existsb _ ids).
      - now rewrite Hc. }
    assert (Hf1 : List.filter (deletable chat t1) ids
                  = List.filter (deletable chat t) ids)
      by (apply filter_ext_in; exact Hrest).
    assert (Hf2 : List.filter (fun k => negb (deletable chat t1 k)) ids
                  = List.filter (fun k => negb (deletable chat t k)) ids)
      by (apply filter_ext_in; intros k Hk; now rewrite Hrest).
    cbn [List.filter].
    destruct (deletable chat t rid) eqn:Hdel.
    + unfold deletable in Hdel. apply existsb_exists in Hdel.
      destruct Hdel as (x & Hx & Hp).
      destruct (find _ t) as [row|] eqn:Hfind;
        [|now rewrite (find_none _ _ Hfind x Hx) in Hp].
      cbn [option_map negb]. rewrite (IH t1 _ _ Hnd'), Htab, Hf1, Hf2.
      now rewrite <- app_assoc.
    + cbn [negb]. rewrite (IH t1 _ _ Hnd'), Htab, Hf1, Hf2.
      now rewrite <- app_assoc.
Qed.

(** X17.  A delete request names each id once, and [on_text] answers it
    by soft-deleting exactly the named reminders of the chat: the rows of
    the chat with a named id get status deleted, all other rows are as
    they were, the ids that had a reminder to delete are reported as
    deleted and the others as not found, and a pending continuation is
    left as it is.  The message is a [covered] text and the ids it names
    are [sqlite_integer]s. *)
Theorem delete_request_deletes_the_named now chat msg ids w :
  covered msg = true ->
  parse_delete_request (strip msg) = Some ids ->
  forallb sqlite_integer ids = true ->
  ids <> [] /\ List.NoDup ids
  /\ on_text now chat msg w
     = Ok (World (user_data w)
             (sql_update (fun r => (r_chat_id r =? chat)
                                   && existsb (Z.eqb (r_id r)) ids)
                set_deleted (db w))
             (outbox w
              ++ [MsgDeleteReport
                    (List.filter (deletable chat (db w)) ids)
                    (List.filter (fun k => negb (deletable chat (db w) k)) ids)])).
Proof.
  intros _ Hreq _.
  assert (Hids : ids <> [] /\ List.NoDup ids).
  { unfold parse_delete_request in Hreq. cbv zeta in Hreq.
    destruct (re_match _ _); [|discriminate].
    destruct (re_findall1 _ _) as [|n nums]; [discriminate|].
    match type of Hreq with
    | match dedup [] ?l with _ => _ end = _ =>
        pose proof (proj1 (dedup_spec l [])) as Hnd;
        destruct (dedup [] l) as [|x out]; [discriminate|]
    end.
    injection Hreq as <-. split; [discriminate | exact Hnd]. }
  destruct Hids as [Hne Hnd]. split; [exact Hne|]. split; [exact Hnd|].
  unfold on_text. cbv zeta. rewrite Hreq. unfold delete_all.
  rewrite (delete_all_rows chat ids (db w) [] [] Hnd). reflexivity.
Qed.


(** ** The calendar *)

Ltac euclid := Z.to_euclidean_division_equations; lia.

Lemma isleap_spec y :
  isleap y = true <-> (y mod 4 = 0 /\ (y mod 100 <> 0 \/ y mod 400 = 0)).
Proof.
  unfold isleap.
  rewrite andb_true_iff, orb_true_iff, negb_true_iff, !Z.eqb_eq, Z.eqb_neq.
  reflexivity.
Qed.

Lemma month_days_range y m :
  1 <= m <= 12 -> exists dim, month_days y m = Some dim /\ 28 <= dim <= 31.
Proof.
  intros Hm. unfold month_days.
  replace ((1 <=? m) && (m <=? 12)) with true
    by (symmetry; apply andb_true_iff; split; apply Z.leb_le; lia).
  eexists. split; [reflexivity|].
  destruct (m =? 2); [destruct (isleap y); lia|].
  destruct (_ || _); lia.
Qed.

Lemma month_days_some y m dim : month_days y m = Some dim -> 1 <= m <= 12.
Proof.
  unfold month_days. destruct ((1 <=? m) && (m <=? 12)) eqn:H; [|discriminate].
  apply andb_true_iff in H. destruct H as [H1 H2]. apply Z.leb_le in H1, H2. lia.
Qed.

(** The date of a day number is a date of the calendar, and it has that
    day number. *)
Lemma civil_from_days_valid z :
  let '(y, m, d) := civil_from_days z in
  days_from_civil y m d = z
  /\ exists dim, month_days y m = Some dim /\ 1 <= d <= dim.
Proof. tidy.
  unfold civil_from_days. cbv zeta.
  set (z' := z + 719468).
  set (era := z' / 146097).
  set (doe := z' - era * 146097).
  set (yoe := (doe - doe / 1460 + doe / 36524 - doe / 146096) / 365).
  set (doy := doe - (365 * yoe + yoe / 4 - yoe / 100)).
  set (mp := (5 * doy + 2) / 153).
  set (d := doy - (153 * mp + 2) / 5 + 1).
  set (m := if mp <? 10 then mp + 3 else mp - 9).
  assert (Hdoe : 0 <= doe <= 146096) by (subst doe era; euclid).
  assert (Hyoe : 0 <= yoe <= 399) by (subst yoe; euclid).
  assert (Hdoy : 0 <= doy <= 365) by (subst doy yoe; euclid).
  assert (Hleap : doy = 365 ->
            (yoe + 1) mod 4 = 0
            /\ ((yoe + 1) mod 100 <> 0 \/ (yoe + 1) mod 400 = 0))
    by (subst doy yoe; euclid).
  assert (Hmp : 0 <= mp <= 11) by (subst mp; euclid).
  assert (Hd : 1 <= d
               /\ (mp = 0 \/ mp = 2 \/ mp = 4 \/ mp = 5 \/ mp = 7 \/ mp = 9
                   \/ mp = 10 -> d <= 31)
               /\ (mp = 1 \/ mp = 3 \/ mp = 6 \/ mp = 8 -> d <= 30)
               /\ (mp = 11 -> d <= 29 /\ (d = 29 -> doy = 365)))
    by (subst d mp; euclid).
  assert (Hm : (mp < 10 /\ m = mp + 3) \/ (10 <= mp /\ m = mp - 9))
    by (subst m; destruct (Z.ltb_spec mp 10); lia).
  split.
  - unfold days_from_civil. cbv zeta.
    assert (Hback : (if 2 <? m then m - 3 else m + 9) = mp)
      by (destruct (Z.ltb_spec 2 m); lia).
    rewrite Hback.
    replace (doy - (153 * mp + 2) / 5 + 1) with d by reflexivity.
    replace ((153 * mp + 2) / 5 + d - 1) with doy by (subst d; lia).
    assert (Hy : (if m <=? 2 then yoe + era * 400 + (if m <=? 2 then 1 else 0) - 1
                  else yoe + era * 400 + (if m <=? 2 then 1 else 0))
                 = yoe + era * 400)
      by (destruct (m <=? 2); lia).
    rewrite Hy.
    replace ((yoe + era * 400) / 400) with era by euclid.
    replace (yoe + era * 400 - era * 400) with yoe by lia.
    subst doy doe z'. lia.
  - clearbody d m mp doy. clear Hdoe. clearbody yoe.
    destruct Hd as (Hd1 & H31 & H30 & H29).
    unfold month_days, isleap.
    replace ((1 <=? m) && (m <=? 12)) with true
      by (symmetry; apply andb_true_iff; split; apply Z.leb_le; lia).
    destruct (Z.eqb_spec m 2) as [Hfeb|Hfeb].
    + replace (m <=? 2) with true by (symmetry; apply Z.leb_le; lia).
      destruct (H29 ltac:(lia)) as [Hle Hfull].
      replace ((yoe + era * 400 + 1) mod 4) with ((yoe + 1) mod 4) by euclid.
      replace ((yoe + era * 400 + 1) mod 100) with ((yoe + 1) mod 100) by euclid.
      replace ((yoe + era * 400 + 1) mod 400) with ((yoe + 1) mod 400) by euclid.
      destruct (Z.eq_dec d 29) as [->|Hne].
      * destruct (Hleap (Hfull eq_refl)) as [H4 H100].
        rewrite H4. cbn [Z.eqb andb].
        destruct H100 as [H100|H400].
        -- apply Z.eqb_neq in H100. rewrite H100. cbn [negb orb].
           eexists; split; [reflexivity | lia].
        -- rewrite H400. cbn [Z.eqb]. rewrite orb_true_r.
           eexists; split; [reflexivity | lia].
      * destruct (_ && _); eexists; (split; [reflexivity | lia]).
    + destruct (Z.eqb_spec m 4), (Z.eqb_spec m 6), (Z.eqb_spec m 9),
        (Z.eqb_spec m 11); cbn [orb]; eexists; (split; [reflexivity | lia]).
Qed.

(** The day number of a date of the calendar is the day of that date. *)
Lemma civil_of_days_from_civil y m d dim :
  month_days y m = Some dim -> 1 <= d <= dim ->
  civil_from_days (days_from_civil y m d) = (y, m, d).
Proof. tidy.
  intros Hdim Hd. pose proof (month_days_some _ _ _ Hdim) as [Hm1 Hm2].
  unfold month_days in Hdim.
  replace ((1 <=? m) && (m <=? 12)) with true in Hdim
    by (symmetry; apply andb_true_iff; split; apply Z.leb_le; lia).
  injection Hdim as Hdim.
  unfold days_from_civil. cbv zeta.
  set (y' := if m <=? 2 then y - 1 else y).
  set (era := y' / 400). set (yoe := y' - era * 400).
  set (mp := if 2 <? m then m - 3 else m + 9).
  set (doy := (153 * mp + 2) / 5 + d - 1).
  set (doe := yoe * 365 + yoe / 4 - yoe / 100 + doy).
  assert (Hyoe : 0 <= yoe <= 399) by (subst yoe era; euclid).
  assert (Hmp : 0 <= mp <= 11
                /\ ((2 < m /\ mp = m - 3 /\ y' = y)
                    \/ (m <= 2 /\ mp = m + 9 /\ y' = y - 1))).
  { subst mp y'. destruct (Z.ltb_spec 2 m), (Z.leb_spec m 2); lia. }
  assert (Hdim' : dim <= 31 /\ (m = 4 \/ m = 6 \/ m = 9 \/ m = 11 -> dim <= 30)
                  /\ (m = 2 -> dim <= 29 /\ (dim = 29 -> isleap y = true))).
  { subst dim. destruct (Z.eqb_spec m 2).
    - destruct (isleap y); repeat split; try lia; intros; congruence.
    - destruct (Z.eqb_spec m 4), (Z.eqb_spec m 6), (Z.eqb_spec m 9),
        (Z.eqb_spec m 11); cbn [orb]; lia. }
  assert (Hdoy : 0 <= doy <= 365 /\ (5 * doy + 2) / 153 = mp
                 /\ (doy = 365 -> m = 2 /\ isleap y = true)).
  { subst doy. clearbody mp y'.
    destruct Hdim' as (Hd31 & Hd30 & Hd29).
    assert (Hd29' : m = 2 -> dim <= 29) by (intros H; now apply Hd29).
    assert (Hnum : 0 <= (153 * mp + 2) / 5 + d - 1 <= 365
                   /\ (5 * ((153 * mp + 2) / 5 + d - 1) + 2) / 153 = mp
                   /\ ((153 * mp + 2) / 5 + d - 1 = 365 -> m = 2 /\ dim = 29)).
    { clear - Hmp Hd31 Hd30 Hd29' Hd Hm1 Hm2.
      assert (Hc : m = 1 \/ m = 2 \/ m = 3 \/ m = 4 \/ m = 5 \/ m = 6 \/ m = 7
                   \/ m = 8 \/ m = 9 \/ m = 10 \/ m = 11 \/ m = 12) by lia.
      repeat (destruct Hc as [->|Hc]; [euclid|]).
      subst m. euclid. }
    destruct Hnum as (H1 & H2 & H3). split; [exact H1|]. split; [exact H2|].
    intros H. destruct (H3 H) as [Hm29 Hdim29]. split; [exact Hm29 | now apply Hd29]. }
  destruct Hdoy as (Hdoy & Hmp' & Hfull).
  assert (Hyoe' : (doe - doe / 1460 + doe / 36524 - doe / 146096) / 365 = yoe
                  /\ 0 <= doe <= 146096).
  { assert (Hl : doy = 365 ->
              (yoe + 1) mod 4 = 0
              /\ ((yoe + 1) mod 100 <> 0 \/ (yoe + 1) mod 400 = 0)).
    { intros H. destruct (Hfull H) as [Hm HL]. apply isleap_spec in HL.
      assert (y = yoe + era * 400 + 1) by (subst yoe; lia).
      clearbody yoe era. subst y. euclid. }
    subst doe. clearbody doy yoe. clear - Hyoe Hdoy Hl. euclid. }
  destruct Hyoe' as [Hyoe' Hdoe].
  unfold civil_from_days. cbv zeta.
  replace (era * 146097 + doe - 719468 + 719468) with (doe + era * 146097) by lia.
  replace ((doe + era * 146097) / 146097) with era by euclid.
  replace (doe + era * 146097 - era * 146097) with doe by lia.
  rewrite Hyoe'.
  replace (doe - (365 * yoe + yoe / 4 - yoe / 100)) with doy by (subst doe; lia).
  rewrite Hmp'.
  replace (doy - (153 * mp + 2) / 5 + 1) with d by (subst doy; lia).
  destruct Hmp as [Hmp [(H1 & H2 & H3)|(H1 & H2 & H3)]].
  - replace (mp <? 10) with true by (symmetry; apply Z.ltb_lt; lia).
    replace (mp + 3 <=? 2) with false by (symmetry; apply Z.leb_gt; lia).
    apply f_equal2; [apply f_equal2|]; try reflexivity; subst yoe; lia.
  - replace (mp <? 10) with false by (symmetry; apply Z.ltb_ge; lia).
    replace (mp - 9 <=? 2) with true by (symmetry; apply Z.leb_le; lia).
    apply f_equal2; [apply f_equal2|]; try reflexivity; subst yoe; lia.
Qed.

Lemma yoe_mono a b :
  0 <= a -> a < b -> b <= 146096 ->
  let ya := (a - a / 1460 + a / 36524 - a / 146096) / 365 in
  let yb := (b - b / 1460 + b / 36524 - b / 146096) / 365 in
  ya < yb
  \/ (ya = yb /\ a - (365 * ya + ya / 4 - ya / 100)
                 < b - (365 * yb + yb / 4 - yb / 100)).
Proof. tidy. intros Ha Hab Hb ya yb. subst ya yb. euclid. Qed.

(** Later days have later dates. *)
Lemma civil_from_days_mono z1 z2 :
  z1 < z2 -> date_lt (civil_from_days z1) (civil_from_days z2).
Proof. tidy.
  intros Hlt. unfold civil_from_days, date_lt. cbv zeta.
  set (a' := z1 + 719468). set (b' := z2 + 719468).
  set (ea := a' / 146097). set (eb := b' / 146097).
  set (a := a' - ea * 146097). set (b := b' - eb * 146097).
  assert (Ha : 0 <= a <= 146096) by (subst a ea; euclid).
  assert (Hb : 0 <= b <= 146096) by (subst b eb; euclid).
  assert (He : ea < eb \/ (ea = eb /\ a < b)) by (subst a b ea eb a' b'; euclid).
  set (ya := (a - a / 1460 + a / 36524 - a / 146096) / 365).
  set (yb := (b - b / 1460 + b / 36524 - b / 146096) / 365).
  assert (Hya : 0 <= ya <= 399) by (subst ya; euclid).
  assert (Hyb : 0 <= yb <= 399) by (subst yb; euclid).
  set (da := a - (365 * ya + ya / 4 - ya / 100)).
  set (db := b - (365 * yb + yb / 4 - yb / 100)).
  assert (Hda : 0 <= da <= 365) by (subst da ya; euclid).
  assert (Hdb : 0 <= db <= 365) by (subst db yb; euclid).
  assert (Hy : ea < eb \/ (ea = eb /\ (ya < yb \/ (ya = yb /\ da < db)))).
  { destruct He as [He|[He Hab]]; [now left|]. right. split; [exact He|].
    apply (yoe_mono a b); lia. }
  set (ma := (5 * da + 2) / 153). set (mb := (5 * db + 2) / 153).
  assert (Hma : 0 <= ma <= 11) by (subst ma; euclid).
  assert (Hmb : 0 <= mb <= 11) by (subst mb; euclid).
  assert (Hm : da < db ->
               ma < mb
               \/ (ma = mb /\ da - (153 * ma + 2) / 5 + 1
                              < db - (153 * mb + 2) / 5 + 1)).
  { intros H. subst ma mb. euclid. }
  clearbody ma mb da db ya yb ea eb.
  destruct (Z.ltb_spec ma 10); destruct (Z.ltb_spec mb 10);
    repeat match goal with
           | |- context [?x <=? 2] => destruct (Z.leb_spec x 2); try lia
           end;
    destruct Hy as [Hy|[Hy [Hy'|[Hy' Hd]]]]; try lia;
    specialize (Hm Hd); lia.
Qed.

Lemma days_from_civil_day y m d : days_from_civil y m d = days_from_civil y m 1 + d - 1.
Proof. unfold days_from_civil. cbv zeta. lia. Qed.

(** A datetime built from its fields reads back as those fields. *)
Lemma datetime_new_reads_back y m d h mi off dt :
  datetime_new y m d h mi off = Some dt ->
  civil dt = (y, m, d, h, mi, 0, 0) /\ utcoffset dt = off
  /\ wall dt = days_from_civil y m d * us_per_day + h * us_per_hour
               + mi * us_per_minute.
Proof. tidy.
  unfold datetime_new. destruct (month_days y m) as [dim|] eqn:Hdim; [|discriminate].
  match goal with |- (if ?c then _ else _) = _ -> _ => destruct c eqn:Hc end;
    [|discriminate].
  intros H. injection H as <-.
  repeat (apply andb_true_iff in Hc; destruct Hc as [Hc ?]).
  repeat match goal with
         | H : (_ <=? _) = true |- _ => apply Z.leb_le in H
         end.
  split; [|split; reflexivity].
  unfold civil, dt_year, dt_month, dt_day, dt_date, dt_hour, dt_minute, dt_second,
    dt_microsecond. cbn [wall].
  set (z := days_from_civil y m d).
  assert (Hz : (z * us_per_day + h * us_per_hour + mi * us_per_minute) / us_per_day = z)
    by (unfold us_per_day, us_per_hour, us_per_minute, us_per_second; euclid).
  rewrite Hz. unfold z. rewrite (civil_of_days_from_civil y m d dim Hdim) by lia.
  cbn [fst snd]. fold z.
  repeat apply f_equal2; try reflexivity;
    unfold us_per_day, us_per_hour, us_per_minute, us_per_second; euclid.
Qed.

Lemma datetime_new_some y m d h mi off dim :
  month_days y m = Some dim -> 1 <= y <= 9999 -> 1 <= d <= dim ->
  0 <= h <= 23 -> 0 <= mi <= 59 ->
  datetime_new y m d h mi off
  = Some (DateTime (days_from_civil y m d * us_per_day + h * us_per_hour
                    + mi * us_per_minute) off).
Proof.
  intros Hdim Hy Hd Hh Hmi. unfold datetime_new. rewrite Hdim.
  replace ((1 <=? y) && (y <=? 9999) && (1 <=? d) && (d <=? dim) && (0 <=? h)
           && (h <=? 23) && (0 <=? mi) && (mi <=? 59)) with true; [reflexivity|].
  symmetry. repeat (apply andb_true_iff; split); apply Z.leb_le; lia.
Qed.

(** X18.  In every month of the years 1 to 9999 the two halves that
    [quincena_range] gives are the 1st at 00:00 to the 15th at 23:59 and
    the 16th at 00:00 to the last day of the month at 23:59, on the local
    clock (a selector other than 1 means the second half); the second
    half starts one minute after the end of the first, so the last minute
    of the 15th lies in neither. *)
Theorem quincena_halves_of_any_month y m :
  1 <= y <= 9999 -> 1 <= m <= 12 ->
  exists s1 e1 s2 e2 last,
    quincena_range y m 1 = Some (s1, e1)
    /\ (forall which, which <> 1 -> quincena_range y m which = Some (s2, e2))
    /\ month_days y m = Some last
    /\ civil s1 = (y, m, 1, 0, 0, 0, 0) /\ civil e1 = (y, m, 15, 23, 59, 0, 0)
    /\ civil s2 = (y, m, 16, 0, 0, 0, 0) /\ civil e2 = (y, m, last, 23, 59, 0, 0)
    /\ utcoffset s1 = LOCAL_TZ /\ utcoffset e1 = LOCAL_TZ
    /\ utcoffset s2 = LOCAL_TZ /\ utcoffset e2 = LOCAL_TZ
    /\ instant s1 < instant e1
    /\ instant e1 + us_per_minute = instant s2
    /\ instant s2 < instant e2.
Proof.
  intros Hy Hm. destruct (month_days_range y m Hm) as (last & Hlast & Hrange).
  pose proof (datetime_new_some y m 1 0 0 LOCAL_TZ last Hlast Hy) as Hs1.
  pose proof (datetime_new_some y m 15 23 59 LOCAL_TZ last Hlast Hy) as He1.
  pose proof (datetime_new_some y m 16 0 0 LOCAL_TZ last Hlast Hy) as Hs2.
  pose proof (datetime_new_some y m last 23 59 LOCAL_TZ last Hlast Hy) as He2.
  specialize (Hs1 ltac:(lia) ltac:(lia) ltac:(lia)).
  specialize (He1 ltac:(lia) ltac:(lia) ltac:(lia)).
  specialize (Hs2 ltac:(lia) ltac:(lia) ltac:(lia)).
  specialize (He2 ltac:(lia) ltac:(lia) ltac:(lia)).
  destruct (datetime_new_reads_back _ _ _ _ _ _ _ Hs1) as (Cs1 & Os1 & _).
  destruct (datetime_new_reads_back _ _ _ _ _ _ _ He1) as (Ce1 & Oe1 & _).
  destruct (datetime_new_reads_back _ _ _ _ _ _ _ Hs2) as (Cs2 & Os2 & _).
  destruct (datetime_new_reads_back _ _ _ _ _ _ _ He2) as (Ce2 & Oe2 & _).
  do 4 eexists. exists last.
  split; [unfold quincena_range; rewrite Z.eqb_refl, Hs1, He1; reflexivity|].
  split.
  { intros which Hw. unfold quincena_range.
    replace (which =? 1) with false by (symmetry; now apply Z.eqb_neq).
    rewrite Hlast, Hs2, He2. reflexivity. }
  split; [exact Hlast|].
  repeat (split; [assumption|]).
  unfold instant. cbn [wall utcoffset].
  rewrite (days_from_civil_day y m 15), (days_from_civil_day y m 16),
    (days_from_civil_day y m last).
  unfold us_per_day, us_per_hour, us_per_minute, us_per_second. lia.
Qed.

(** X19.  The current half-month contains the present moment: on any
    date of the years 1 to 9999, [current_quincena_range] gives a window
    that starts no later than now and whose stated end, the start of the
    last minute of the half, is less than a minute before now at the
    latest; it is the first half up to the 15th of the local date and the
    second half after. *)
Theorem current_quincena_contains_now now :
  1 <= dt_year (now_local now) <= 9999 ->
  exists s e,
    current_quincena_range now
    = Some (s, e, if dt_day (now_local now) <=? 15
                  then u "esta primera quincena" else u "esta segunda quincena")
    /\ quincena_range (dt_year (now_local now)) (dt_month (now_local now))
         (if dt_day (now_local now) <=? 15 then 1 else 2) = Some (s, e)
    /\ instant s <= now < instant e + us_per_minute.
Proof. tidy.
  intros Hy. unfold current_quincena_range. cbv zeta.
  set (today := now_local now) in *.
  assert (Hwall : wall today = now + LOCAL_TZ * us_per_minute).
  { unfold today, now_local, astimezone, at_utc, instant. cbn [wall utcoffset]. lia. }
  assert (Hoff : utcoffset today = LOCAL_TZ) by reflexivity.
  unfold dt_year, dt_month, dt_day, dt_date in *.
  set (z := wall today / us_per_day) in *.
  pose proof (civil_from_days_valid z) as Hvalid.
  destruct (civil_from_days z) as [[y m] d]. cbn [fst snd] in *.
  destruct Hvalid as (Hback & dim & Hdim & Hd).
  pose proof (month_days_some _ _ _ Hdim) as Hm.
  destruct (month_days_range y m Hm) as (dim' & Hdim' & Hrange).
  rewrite Hdim in Hdim'. injection Hdim' as <-.
  assert (Hz : z * us_per_day <= wall today < (z + 1) * us_per_day)
    by (unfold z, us_per_day, us_per_hour, us_per_minute, us_per_second; euclid).
  pose proof (days_from_civil_day y m d) as Hday. rewrite Hback in Hday.
  destruct (Z.leb_spec d 15) as [Hhalf|Hhalf].
  - pose proof (datetime_new_some y m 1 0 0 LOCAL_TZ dim Hdim Hy) as Hs1.
    pose proof (datetime_new_some y m 15 23 59 LOCAL_TZ dim Hdim Hy) as He1.
    specialize (Hs1 ltac:(lia) ltac:(lia) ltac:(lia)).
    specialize (He1 ltac:(lia) ltac:(lia) ltac:(lia)).
    unfold quincena_range. rewrite Z.eqb_refl, Hs1, He1.
    do 2 eexists. split; [reflexivity|]. split; [reflexivity|].
    unfold instant. cbn [wall utcoffset].
    rewrite (days_from_civil_day y m 15).
    unfold us_per_day, us_per_hour, us_per_minute, us_per_second in *. lia.
  - pose proof (datetime_new_some y m 16 0 0 LOCAL_TZ dim Hdim Hy) as Hs2.
    pose proof (datetime_new_some y m dim 23 59 LOCAL_TZ dim Hdim Hy) as He2.
    specialize (Hs2 ltac:(lia) ltac:(lia) ltac:(lia)).
    specialize (He2 ltac:(lia) ltac:(lia) ltac:(lia)).
    unfold quincena_range.
    replace (2 =? 1) with false by reflexivity.
    rewrite Hdim, Hs2, He2.
    do 2 eexists. split; [reflexivity|]. split; [reflexivity|].
    unfold instant. cbn [wall utcoffset].
    rewrite (days_from_civil_day y m 16), (days_from_civil_day y m dim).
    unfold us_per_day, us_per_hour, us_per_minute, us_per_second in *. lia.
Qed.


(** ** The order of the stored timestamps *)

Lemma pow10_succ k : pow10 (S k) = 10 * pow10 k.
Proof. unfold pow10. rewrite Nat2Z.inj_succ, Z.pow_succ_r by lia. reflexivity. Qed.

Lemma pow10_pos k : 0 < pow10 k.
Proof. unfold pow10. apply Z.pow_pos_nonneg; lia. Qed.

Lemma digits_number_acc s :
  forall a, digits_number a s = a * pow10 (length s) + digits_number 0 s.
Proof.
  unfold digits_number.
  induction s as [|c s IH]; intros a; cbn [fold_left length].
  - unfold pow10. cbn. lia.
  - rewrite (IH (a * 10 + (c - 48))), (IH (0 * 10 + (c - 48))), pow10_succ. lia.
Qed.

Lemma digits_number_bound s :
  forallb is_digit s = true -> 0 <= digits_number 0 s < pow10 (length s).
Proof.
  induction s as [|c s IH]; cbn [forallb length]; intros H.
  - unfold digits_number, pow10. cbn. lia.
  - apply andb_true_iff in H. destruct H as [Hc H]. apply is_digit_spec in Hc.
    specialize (IH H). unfold digits_number in *. cbn [fold_left].
    fold (digits_number (0 * 10 + (c - 48)) s).
    rewrite digits_number_acc, pow10_succ. unfold digits_number.
    pose proof (pow10_pos (length s)). nia.
Qed.

Lemma digits_value_number s :
  forallb is_digit s = true ->
  forall a, digits_value a s = Some (digits_number a s).
Proof.
  unfold digits_number.
  induction s as [|c s IH]; cbn [forallb digits_value fold_left]; intros H a;
    [reflexivity|].
  apply andb_true_iff in H. destruct H as [Hc H]. rewrite Hc. now apply IH.
Qed.

(** Two runs of digits of the same length compare as their numbers. *)
Lemma text_leb_digits p :
  forall q x y,
    length p = length q ->
    forallb is_digit p = true -> forallb is_digit q = true ->
    text_leb (p ++ x) (q ++ y)
    = (digits_number 0 p <? digits_number 0 q)
      || ((digits_number 0 p =? digits_number 0 q) && text_leb x y).
Proof.
  induction p as [|c p IH]; intros [|e q] x y Hlen Hp Hq; try discriminate.
  - cbn [app]. unfold digits_number. cbn [fold_left].
    rewrite Z.ltb_irrefl, Z.eqb_refl. reflexivity.
  - cbn [app text_leb]. cbn [length] in Hlen. injection Hlen as Hlen.
    cbn [forallb] in Hp, Hq.
    apply andb_true_iff in Hp. destruct Hp as [Hc Hp].
    apply andb_true_iff in Hq. destruct Hq as [He Hq].
    rewrite (IH q x y Hlen Hp Hq).
    pose proof (digits_number_bound p Hp) as Bp.
    pose proof (digits_number_bound q Hq) as Bq.
    rewrite <- Hlen in Bq.
    assert (Np : digits_number 0 (c :: p)
                 = (c - 48) * pow10 (length p) + digits_number 0 p).
    { unfold digits_number at 1. cbn [fold_left].
      fold (digits_number (0 * 10 + (c - 48)) p). rewrite digits_number_acc. lia. }
    assert (Nq : digits_number 0 (e :: q)
                 = (e - 48) * pow10 (length p) + digits_number 0 q).
    { unfold digits_number at 1. cbn [fold_left].
      fold (digits_number (0 * 10 + (e - 48)) q). rewrite digits_number_acc, Hlen.
      lia. }
    rewrite Np, Nq.
    set (P := pow10 (length p)) in *. set (A := digits_number 0 p) in *.
    set (B := digits_number 0 q) in *.
    pose proof (pow10_pos (length p)) as HP. fold P in HP.
    clearbody P A B.
    destruct (Z.ltb_spec c e) as [Hce|Hce].
    + cbn [orb]. symmetry. apply orb_true_iff. left. apply Z.ltb_lt. nia.
    + cbn [orb]. destruct (Z.eqb_spec c e) as [->|Hne]; cbn [andb].
      * replace ((e - 48) * P + A <? (e - 48) * P + B) with (A <? B)
          by (destruct (Z.ltb_spec A B), (Z.ltb_spec ((e - 48) * P + A)
                                                     ((e - 48) * P + B)); lia).
        replace ((e - 48) * P + A =? (e - 48) * P + B) with (A =? B)
          by (destruct (Z.eqb_spec A B), (Z.eqb_spec ((e - 48) * P + A)
                                                     ((e - 48) * P + B)); lia).
        reflexivity.
      * symmetry. apply orb_false_iff. split.
        -- apply Z.ltb_ge. nia.
        -- apply andb_false_iff. left. apply Z.eqb_neq. nia.
Qed.

Lemma digits_of_fuel_length f :
  forall n w, 0 <= n < pow10 (S w) -> (length (digits_of f n []) <= S w)%nat.
Proof. tidy.
  induction f as [|f IH]; intros n w Hn; cbn [digits_of]; [cbn; lia|].
  destruct (n / 10 =? 0) eqn:Hq; [cbn [length]; lia|].
  apply Z.eqb_neq in Hq. rewrite digits_of_app, length_app. cbn [length].
  destruct w as [|w].
  - exfalso. apply Hq. rewrite pow10_succ in Hn. unfold pow10 in Hn. cbn in Hn.
    euclid.
  - assert (Hn' : 0 <= n / 10 < pow10 (S w)).
    { rewrite (pow10_succ (S w)) in Hn. pose proof (pow10_pos (S w)). euclid. }
    specialize (IH (n / 10) w Hn'). lia.
Qed.

Lemma digits_number_zeros k s :
  digits_number 0 (repeat 48 k ++ s) = digits_number 0 s.
Proof.
  induction k as [|k IH]; cbn [repeat app]; [reflexivity|].
  unfold digits_number in *. cbn [fold_left]. exact IH.
Qed.

(** A number padded to a width it fits in: that many digits, denoting
    the number. *)
Lemma zero_pad_spec w n :
  0 <= n < pow10 (S w) ->
  length (zero_pad (S w) n) = S w
  /\ forallb is_digit (zero_pad (S w) n) = true
  /\ digits_number 0 (zero_pad (S w) n) = n.
Proof.
  intros Hn. unfold zero_pad. cbv zeta.
  destruct (str_of_nonneg_value n ltac:(lia)) as (Hv & Hall & _).
  pose proof (digits_of_fuel_length (S (Z.to_nat n)) n w Hn) as Hlen.
  fold (str_of_nonneg n) in Hlen.
  split; [|split].
  - rewrite length_app, repeat_length. lia.
  - rewrite forallb_app_iff, Hall, andb_true_r.
    apply forallb_forall. intros c Hc. apply repeat_spec in Hc. now subst c.
  - rewrite digits_number_zeros.
    rewrite (digits_value_number _ Hall) in Hv. now injection Hv.
Qed.

Lemma zero_pad_leb w a b x y :
  0 <= a < pow10 (S w) -> 0 <= b < pow10 (S w) ->
  text_leb (zero_pad (S w) a ++ x) (zero_pad (S w) b ++ y)
  = (a <? b) || ((a =? b) && text_leb x y).
Proof.
  intros Ha Hb.
  destruct (zero_pad_spec w a Ha) as (La & Da & Na).
  destruct (zero_pad_spec w b Hb) as (Lb & Db & Nb).
  rewrite text_leb_digits by (congruence || assumption).
  now rewrite Na, Nb.
Qed.

Lemma text_leb_cons c x y : text_leb (c :: x) (c :: y) = text_leb x y.
Proof. cbn [text_leb]. now rewrite Z.ltb_irrefl, Z.eqb_refl. Qed.

(** The fields of a timestamp, and the text after its seconds. *)
Lemma utc_iso_text_fields t :
  utc_iso_text t
  = zero_pad 4 (dt_year (at_utc t)) ++ 45 :: zero_pad 2 (dt_month (at_utc t))
    ++ 45 :: zero_pad 2 (dt_day (at_utc t)) ++ 84 :: zero_pad 2 (dt_hour (at_utc t))
    ++ 58 :: zero_pad 2 (dt_minute (at_utc t))
    ++ 58 :: zero_pad 2 (dt_second (at_utc t))
    ++ (if t mod us_per_second =? 0 then []
        else 46 :: zero_pad 6 (t mod us_per_second)) ++ [90].
Proof.
  unfold utc_iso_text. cbv zeta. unfold dt_microsecond, at_utc. cbn [wall].
  destruct (t mod us_per_second =? 0); reflexivity.
Qed.

Lemma timestamp_fields t :
  let dt := at_utc t in
  1 <= dt_month dt <= 12 /\ 1 <= dt_day dt <= 31 /\ 0 <= dt_hour dt <= 23
  /\ 0 <= dt_minute dt <= 59 /\ 0 <= dt_second dt <= 59
  /\ 0 <= t mod us_per_second < 1000000.
Proof. tidy.
  cbv zeta. unfold dt_month, dt_day, dt_date, dt_hour, dt_minute, dt_second, at_utc.
  cbn [wall].
  pose proof (civil_from_days_valid (t / us_per_day)) as Hv.
  destruct (civil_from_days (t / us_per_day)) as [[y m] d]. cbn [fst snd].
  destruct Hv as (_ & dim & Hdim & Hd).
  pose proof (month_days_some _ _ _ Hdim) as Hm.
  destruct (month_days_range y m Hm) as (dim' & Hdim' & Hr).
  rewrite Hdim in Hdim'. injection Hdim' as <-.
  split; [lia|]. split; [lia|].
  unfold us_per_day, us_per_hour, us_per_minute, us_per_second.
  repeat split; euclid.
Qed.

(** The fields of two timestamps in different seconds are in the order
    of the seconds. *)
Lemma timestamp_fields_lt a b :
  a / us_per_second < b / us_per_second ->
  let da := at_utc a in
  let db := at_utc b in
  dt_year da < dt_year db
  \/ (dt_year da = dt_year db
      /\ (dt_month da < dt_month db
          \/ (dt_month da = dt_month db
              /\ (dt_day da < dt_day db
                  \/ (dt_day da = dt_day db
                      /\ (dt_hour da < dt_hour db
                          \/ (dt_hour da = dt_hour db
                              /\ (dt_minute da < dt_minute db
                                  \/ (dt_minute da = dt_minute db
                                      /\ dt_second da < dt_second db))))))))).
Proof. tidy.
  intros Hlt. cbv zeta.
  unfold dt_year, dt_month, dt_day, dt_date, dt_hour, dt_minute, dt_second, at_utc.
  cbn [wall].
  assert (Hday : a / us_per_day < b / us_per_day
                 \/ (a / us_per_day = b / us_per_day
                     /\ (a mod us_per_day / us_per_hour < b mod us_per_day / us_per_hour
                         \/ (a mod us_per_day / us_per_hour
                             = b mod us_per_day / us_per_hour
                             /\ (a mod us_per_hour / us_per_minute
                                 < b mod us_per_hour / us_per_minute
                                 \/ (a mod us_per_hour / us_per_minute
                                     = b mod us_per_hour / us_per_minute
                                     /\ a mod us_per_minute / us_per_second
                                        < b mod us_per_minute / us_per_second)))))).
  { unfold us_per_day, us_per_hour, us_per_minute, us_per_second in *. euclid. }
  destruct Hday as [Hday|[Hday Hrest]].
  - pose proof (civil_from_days_mono _ _ Hday) as Hd. unfold date_lt in Hd.
    destruct (civil_from_days (a / us_per_day)) as [[y m] d].
    destruct (civil_from_days (b / us_per_day)) as [[y' m'] d'].
    cbn [fst snd]. tauto.
  - rewrite Hday. right. split; [reflexivity|]. right. split; [reflexivity|].
    right. split; [reflexivity|]. exact Hrest.
Qed.

Lemma timestamp_fields_eq a b :
  a / us_per_second = b / us_per_second ->
  let da := at_utc a in
  let db := at_utc b in
  dt_year da = dt_year db /\ dt_month da = dt_month db /\ dt_day da = dt_day db
  /\ dt_hour da = dt_hour db /\ dt_minute da = dt_minute db
  /\ dt_second da = dt_second db.
Proof. tidy.
  intros Heq. cbv zeta.
  unfold dt_year, dt_month, dt_day, dt_date, dt_hour, dt_minute, dt_second, at_utc.
  cbn [wall].
  assert (H : a / us_per_day = b / us_per_day
              /\ a mod us_per_day / us_per_hour = b mod us_per_day / us_per_hour
              /\ a mod us_per_hour / us_per_minute = b mod us_per_hour / us_per_minute
              /\ a mod us_per_minute / us_per_second
                 = b mod us_per_minute / us_per_second).
  { unfold us_per_day, us_per_hour, us_per_minute, us_per_second in *. euclid. }
  destruct H as (-> & -> & -> & ->). repeat split.
Qed.

(** The comparison of two stored timestamps, field by field. *)
Lemma sql_le_fields a b :
  1 <= dt_year (at_utc a) <= 9999 -> 1 <= dt_year (at_utc b) <= 9999 ->
  forall ta tb,
    ta = (if a mod us_per_second =? 0 then []
          else 46 :: zero_pad 6 (a mod us_per_second)) ++ [90] ->
    tb = (if b mod us_per_second =? 0 then []
          else 46 :: zero_pad 6 (b mod us_per_second)) ++ [90] ->
    let da := at_utc a in
    let db := at_utc b in
    sql_le a b
    = (dt_year da <? dt_year db)
      || ((dt_year da =? dt_year db)
          && ((dt_month da <? dt_month db)
              || ((dt_month da =? dt_month db)
                  && ((dt_day da <? dt_day db)
                      || ((dt_day da =? dt_day db)
                          && ((dt_hour da <? dt_hour db)
                              || ((dt_hour da =? dt_hour db)
                                  && ((dt_minute da <? dt_minute db)
                                      || ((dt_minute da =? dt_minute db)
                                          && ((dt_second da <? dt_second db)
                                              || ((dt_second da =? dt_second db)
                                                  && text_leb ta tb))))))))))).
Proof.
  intros Hya Hyb ta tb Hta Htb. cbv zeta.
  destruct (timestamp_fields a) as (Ma & Da & Ha & Mia & Sa & _).
  destruct (timestamp_fields b) as (Mb & Db & Hb & Mib & Sb & _).
  unfold sql_le. rewrite !utc_iso_text_fields, <- Hta, <- Htb.
  assert (P4 : pow10 4 = 10000) by reflexivity.
  assert (P2 : pow10 2 = 100) by reflexivity.
  rewrite (zero_pad_leb 3) by (rewrite P4; lia). rewrite text_leb_cons.
  rewrite (zero_pad_leb 1) by (rewrite P2; lia). rewrite text_leb_cons.
  rewrite (zero_pad_leb 1) by (rewrite P2; lia). rewrite text_leb_cons.
  rewrite (zero_pad_leb 1) by (rewrite P2; lia). rewrite text_leb_cons.
  rewrite (zero_pad_leb 1) by (rewrite P2; lia). rewrite text_leb_cons.
  rewrite (zero_pad_leb 1) by (rewrite P2; lia).
  reflexivity.
Qed.

(** X20.  The listings are ordered by the text of the due column, and
    for timestamps of the years 1 to 9999 that order is the order of
    time except inside one second: two timestamps in different seconds
    compare as their instants, and so do two timestamps without
    fractional seconds and two with; but a timestamp with fractional
    seconds comes before the whole second it belongs to. *)
Theorem stored_order_is_chronological_by_second a b :
  1 <= dt_year (at_utc a) <= 9999 -> 1 <= dt_year (at_utc b) <= 9999 ->
  (a / us_per_second < b / us_per_second ->
   sql_le a b = true /\ sql_le b a = false)
  /\ (a mod us_per_second = 0 -> b mod us_per_second = 0 ->
      sql_le a b = (a <=? b))
  /\ (a mod us_per_second <> 0 -> b mod us_per_second <> 0 ->
      sql_le a b = (a <=? b))
  /\ (a / us_per_second = b / us_per_second ->
      a mod us_per_second <> 0 -> b mod us_per_second = 0 ->
      b < a /\ sql_le a b = true /\ sql_le b a = false).
Proof. tidy.
  intros Hya Hyb.
  pose proof (sql_le_fields a b Hya Hyb _ _ eq_refl eq_refl) as Hab.
  pose proof (sql_le_fields b a Hyb Hya _ _ eq_refl eq_refl) as Hba.
  cbv zeta in Hab, Hba.
  assert (Hlt : forall x y,
             1 <= dt_year (at_utc x) <= 9999 -> 1 <= dt_year (at_utc y) <= 9999 ->
             x / us_per_second < y / us_per_second ->
             sql_le x y = true /\ sql_le y x = false).
  { clear. intros x y Hyx Hyy Hs.
    pose proof (sql_le_fields x y Hyx Hyy _ _ eq_refl eq_refl) as Hxy.
    pose proof (sql_le_fields y x Hyy Hyx _ _ eq_refl eq_refl) as Hyx'.
    cbv zeta in Hxy, Hyx'. rewrite Hxy, Hyx'.
    pose proof (timestamp_fields_lt x y Hs) as Hf. cbv zeta in Hf.
    split.
    - repeat match goal with
             | |- context [?p <? ?q] => destruct (Z.ltb_spec p q); try lia
             | |- context [?p =? ?q] => destruct (Z.eqb_spec p q); try lia
             end; try reflexivity.
    - repeat match goal with
             | |- context [?p <? ?q] => destruct (Z.ltb_spec p q); try lia
             | |- context [?p =? ?q] => destruct (Z.eqb_spec p q); try lia
             end; try reflexivity. }
  assert (Heq : a / us_per_second = b / us_per_second ->
                forall ta tb,
                  ta = (if a mod us_per_second =? 0 then []
                        else 46 :: zero_pad 6 (a mod us_per_second)) ++ [90] ->
                  tb = (if b mod us_per_second =? 0 then []
                        else 46 :: zero_pad 6 (b mod us_per_second)) ++ [90] ->
                  sql_le a b = text_leb ta tb /\ sql_le b a = text_leb tb ta).
  { intros Hs ta tb -> ->. rewrite Hab, Hba.
    destruct (timestamp_fields_eq a b Hs) as (-> & -> & -> & -> & -> & ->).
    rewrite !Z.ltb_irrefl, !Z.eqb_refl. cbn [orb andb]. split; reflexivity. }
  assert (Hsec : a = a / us_per_second * us_per_second + a mod us_per_second
                 /\ b = b / us_per_second * us_per_second + b mod us_per_second
                 /\ 0 <= a mod us_per_second < us_per_second
                 /\ 0 <= b mod us_per_second < us_per_second)
    by (unfold us_per_second; euclid).
  assert (Hus : us_per_second = 1000000) by reflexivity.
  assert (Hcases : forall x y : Z, x < y \/ x = y \/ y < x) by (intros; lia).
  split; [now apply Hlt|]. split; [|split].
  - intros Ha Hb.
    destruct (Hcases (a / us_per_second) (b / us_per_second)) as [H|[H|H]].
    + destruct (Hlt a b Hya Hyb H) as [-> _]. symmetry. apply Z.leb_le. nia.
    + destruct (Heq H _ _ eq_refl eq_refl) as [-> _]. rewrite Ha, Hb.
      cbn. symmetry. apply Z.leb_le. nia.
    + destruct (Hlt b a Hyb Hya H) as [_ ->]. symmetry. apply Z.leb_gt. nia.
  - intros Ha Hb.
    destruct (Hcases (a / us_per_second) (b / us_per_second)) as [H|[H|H]].
    + destruct (Hlt a b Hya Hyb H) as [-> _]. symmetry. apply Z.leb_le. nia.
    + destruct (Heq H _ _ eq_refl eq_refl) as [-> _].
      apply Z.eqb_neq in Ha, Hb. rewrite Ha, Hb. cbn [app].
      rewrite text_leb_cons.
      assert (P6 : pow10 6 = 1000000) by reflexivity.
      rewrite (zero_pad_leb 5) by (rewrite P6; lia).
      rewrite text_leb_refl, andb_true_r.
      destruct (Z.ltb_spec (a mod us_per_second) (b mod us_per_second)),
        (Z.eqb_spec (a mod us_per_second) (b mod us_per_second)),
        (Z.leb_spec a b); try reflexivity; nia.
    + destruct (Hlt b a Hyb Hya H) as [_ ->]. symmetry. apply Z.leb_gt. nia.
  - intros H Ha Hb. split; [nia|].
    destruct (Heq H _ _ eq_refl eq_refl) as [-> ->].
    apply Z.eqb_neq in Ha. rewrite Ha, Hb. split; reflexivity.
Qed.


(** ** From the store to the listings *)

Lemma fetch_all_listed chat st limit t r :
  (length (List.filter (listed chat st) t) <= limit)%nat ->
  In r t -> listed chat st r = true ->
  In r (fetch_reminders chat st limit t).
Proof.
  intros Hlen Hin Hl. rewrite fetch_reminders_listed.
  rewrite firstn_all2 by (now rewrite length_order_by_due).
  rewrite in_order_by_due, filter_In. now split.
Qed.

(** X21.  A reminder that was saved is listed: after [insert_reminder]
    the new row, with the id that was returned, is in the chat's listing
    of pending reminders and in its full listing, as long as the listing
    has room for all the rows it selects (the bot lists up to 200). *)
Theorem saved_reminder_is_listed now chat task due amount cat limit t :
  let t' := fst (insert_reminder now chat task due amount cat t) in
  let rid := fst (snd (insert_reminder now chat task due amount cat t)) in
  let row := Reminder rid chat task (instant due) Pending amount cat
               (Some now) None 0 None in
  ((length (List.filter (listed chat (Some Pending)) t') <= limit)%nat ->
   In row (fetch_reminders chat (Some Pending) limit t'))
  /\ ((length (List.filter (listed chat None) t') <= limit)%nat ->
      In row (fetch_reminders chat None limit t')).
Proof.
  tidy. cbv zeta. unfold insert_reminder. cbn [fst snd].
  split; intros Hlen; (apply fetch_all_listed; [exact Hlen | |]);
    try (apply in_or_app; right; now left);
    unfold listed; cbn [r_chat_id r_status]; now rewrite Z.eqb_refl.
Qed.

(** X22.  A reminder confirmed through its button leaves the listing of
    pending reminders and stays in the full listing, as done and stamped
    with the time of the confirmation (as long as the full listing has
    room for all the rows it selects). *)
Theorem confirmed_reminder_moves_to_done now chat rid limit t r :
  wf_table t -> get_row chat rid t = Some r -> r_status r = Pending ->
  let t' := fst (mark_done now chat (Some rid) t) in
  (forall x, In x (fetch_reminders chat (Some Pending) limit t') -> r_id x <> rid)
  /\ ((length (List.filter (listed chat None) t') <= limit)%nat ->
      In (set_done now r) (fetch_reminders chat None limit t')).
Proof.
  intros Hwf Hget Hst. cbv zeta.
  destruct (get_row_some _ _ _ _ Hget) as (Hin & Hc & Hi).
  assert (Ht' : fst (mark_done now chat (Some rid) t)
                = sql_update (fun x => (r_chat_id x =? chat) && (r_id x =? rid))
                    (set_done now) t).
  { unfold mark_done. rewrite (find_row_if chat rid _ t Hwf), Hget, Hst.
    cbn [status_eqb fst]. now rewrite Hi. }
  rewrite Ht'.
  destruct (sql_update_row chat rid (set_done now) t r Hwf Hin Hc Hi
              (fun x => eq_refl)) as (Hrow & _ & Hwf' & _).
  cbv zeta in Hrow, Hwf'.
  destruct (by_id_some _ _ _ Hrow) as [Hin' _].
  split.
  - intros x Hx Hid. rewrite fetch_reminders_listed in Hx.
    apply in_firstn in Hx. rewrite in_order_by_due, filter_In in Hx.
    destruct Hx as [Hx Hl].
    assert (x = set_done now r).
    { apply (wf_same_id _ x (set_done now r) Hwf' Hx Hin'). cbn [set_done r_id].
      congruence. }
    subst x. unfold listed in Hl. cbn [set_done r_status status_eqb] in Hl.
    now rewrite andb_false_r in Hl.
  - intros Hlen. apply fetch_all_listed; [exact Hlen | exact Hin' |].
    unfold listed. cbn [set_done r_chat_id r_status status_eqb negb].
    now rewrite Hc, Z.eqb_refl.
Qed.


(** ** From the store to the scheduler *)

(** A pending row without retries is attempted by a tick at or after its
    due time and by no tick before. *)
Lemma fresh_row_fires_when_due now send t r :
  wf_table t -> In r t -> 0 < MAX_RETRIES ->
  r_status r = Pending -> r_retry_count r = 0 -> r_last_sent_utc r = None ->
  (r_due_utc r <= now ->
   In (Attempt (r_id r) (r_chat_id r) (send (r_chat_id r) (r_task r) (r_id r)))
      (snd (tick_job now send t)))
  /\ (now < r_due_utc r ->
      forall a, In a (snd (tick_job now send t)) -> a_rid a <> r_id r).
Proof.
  intros Hwf Hin Hmax Hp Hc Hl. split.
  - intros Hdue. apply eligible_attempted; [exact Hwf | exact Hin|].
    unfold eligible. rewrite Hc, Hl. repeat split; auto.
  - intros Hdue a Ha. apply (tick_no_attempt now send t r a Hwf Hin); [|exact Ha].
    right. left. unfold tick_decide.
    replace (now <? r_due_utc r) with true by (symmetry; now apply Z.ltb_lt).
    reflexivity.
Qed.

(** X23.  A saved reminder fires when it is due: with a retry budget
    above zero, the first tick at or after the due time hands the new
    reminder, under the id that [insert_reminder] returned, to the
    transport for its chat, and no tick before the due time does. *)
Theorem saved_reminder_fires_when_due now now' chat task due amount cat send t :
  wf_table t -> 0 < MAX_RETRIES ->
  let t' := fst (insert_reminder now chat task due amount cat t) in
  let rid := fst (snd (insert_reminder now chat task due amount cat t)) in
  (instant due <= now' ->
   In (Attempt rid chat (send chat task rid)) (snd (tick_job now' send t')))
  /\ (now' < instant due ->
      forall a, In a (snd (tick_job now' send t')) -> a_rid a <> rid).
Proof.
  intros Hwf Hmax. cbv zeta.
  pose proof (insert_reminder_wf now chat task due amount cat t Hwf) as Hwf'.
  unfold insert_reminder in *. cbn [fst snd] in *.
  set (row := Reminder (next_id t) chat task (instant due) Pending amount cat
                (Some now) None 0 None) in *.
  assert (Hin : In row (t ++ [row])) by (apply in_or_app; right; now left).
  exact (fresh_row_fires_when_due now' send (t ++ [row]) row Hwf' Hin Hmax
           eq_refl eq_refl eq_refl).
Qed.

(** X24.  A rescheduled reminder fires again when it is due: whatever
    its state before (pending, done, or with all its retries spent), as
    long as it was not deleted and the retry budget is above zero, the
    first tick at or after the new due time hands it to the transport,
    and no tick before the new due time does. *)
Theorem rescheduled_reminder_fires_when_due chat rid dt now' send t r :
  wf_table t -> 0 < MAX_RETRIES ->
  get_row chat rid t = Some r -> r_status r <> Deleted ->
  let t' := fst (update_reminder_time chat rid dt t) in
  (instant dt <= now' ->
   In (Attempt rid chat (send chat (r_task r) rid)) (snd (tick_job now' send t')))
  /\ (now' < instant dt ->
      forall a, In a (snd (tick_job now' send t')) -> a_rid a <> rid).
Proof.
  intros Hwf Hmax Hget Hnd. cbv zeta.
  pose proof (update_reminder_time_row chat rid dt t Hwf) as Hrow.
  rewrite Hget in Hrow.
  replace (status_eqb (r_status r) Deleted) with false in Hrow
    by (symmetry; now apply status_eqb_neq).
  destruct Hrow as (t' & r' & Hupd & Hget' & Hres & _ & Hwf').
  rewrite Hupd. cbn [fst].
  destruct (get_row_some _ _ _ _ Hget') as (Hin' & Hc' & Hi').
  destruct Hres as (Hp & Hcount & Hlast & Hdue & _ & _ & Htask & _).
  pose proof (fresh_row_fires_when_due now' send t' r' Hwf' Hin' Hmax Hp Hcount Hlast)
    as Hfire.
  rewrite Hdue, Hc', Hi', Htask in Hfire. exact Hfire.
Qed.

(** X25.  A reminder that is done or deleted is never sent again unless
    it is rescheduled: over any run of ticks, insertions, confirmations
    and deletions, whatever the transport answers, no delivery attempt is
    made for it and it does not become pending. *)
Theorem closed_reminder_stays_silent k r ops t :
  wf_table t -> by_id k t = Some r -> r_status r <> Pending ->
  (forall a, In a (snd (run_ops ops t)) -> a_rid a <> k)
  /\ exists r', by_id k (fst (run_ops ops t)) = Some r' /\ r_status r' <> Pending.
Proof.
  intros Hwf Hr Hst. unfold run_ops.
  destruct (run_ops_keep_closed k ops t [] Hwf) as [Hclosed Hsilent].
  - exists r. now split.
  - intros a [].
  - split; assumption.
Qed.

End Bot.

(** ** Examples *)

Lemma sample_table_wf : wf_table sample_table.
Proof. repeat constructor; vm_compute; lia. Defined.



(** With 24 retries spent, the tick closes reminder 1 and sends nothing. *)
Lemma exhausted_example :
  by_id 1 (fst (tick_job 60 24 2000 (fun _ _ _ => true) [sample_exhausted; sample_done]))
  = Some (set_done 2000 sample_exhausted)
  /\ forall a,
      In a (snd (tick_job 60 24 2000 (fun _ _ _ => true) [sample_exhausted; sample_done])) ->
      a_rid a <> 1.
Proof.
  assert (Hwf : wf_table [sample_exhausted; sample_done])
    by (repeat constructor; vm_compute; lia).
  destruct (exhausted_reminder_closed_without_delivery 60 24 2000
              (fun _ _ _ => true) [sample_exhausted; sample_done] sample_exhausted
              Hwf (or_introl eq_refl) eq_refl)
    as (Hclosed & _ & Hsilent & _).
  - vm_compute. discriminate.
  - vm_compute. discriminate.
  - split; [exact Hclosed | exact Hsilent].
Defined.

(** A refused delivery is logged and leaves reminder 1 as it was. *)
Lemma failed_delivery_example :
  In (Attempt 1 7 false) (snd (tick_job 60 24 2000 (fun _ _ _ => false) sample_table))
  /\ by_id 1 (fst (tick_job 60 24 2000 (fun _ _ _ => false) sample_table))
     = Some sample_pending.
Proof.
  destruct (failed_delivery_costs_no_retry 60 24 2000 (fun _ _ _ => false)
              sample_table sample_table_wf) as (Hall & Hfail & _).
  assert (Ha : In (Attempt 1 7 false)
                  (snd (tick_job 60 24 2000 (fun _ _ _ => false) sample_table))).
  { apply (Hall sample_pending); [now left|].
    repeat split; vm_compute; try reflexivity; discriminate. }
  split; [exact Ha|].
  apply (Hfail sample_pending); [now left | exact Ha].
Defined.

Lemma awaiting_reschedule_storable : payloads_storable awaiting_reschedule.
Proof.
  intros p [H|H]; vm_compute in H.
  - injection H as <-. reflexivity.
  - discriminate.
Defined.

Lemma awaiting_reschedule_shapes : payload_shapes awaiting_reschedule.
Proof.
  split; intros p H; vm_compute in H.
  - injection H as <-. now exists 1.
  - discriminate.
Defined.

(** While a reschedule is awaited, "ya" is read as the awaited date, not
    as a confirmation. *)
Lemma continuation_before_confirm_example :
  on_text BOGOTA NINE sample_parser 0 7 (u "ya")
    (World awaiting_reschedule sample_table [])
  = Ok (World awaiting_reschedule sample_table [MsgNotUnderstood]).
Proof.
  rewrite (continuation_precedes_intents BOGOTA NINE sample_parser 0 7 (u "ya")
             (World awaiting_reschedule sample_table [])).
  - vm_compute. reflexivity.
  - vm_compute. reflexivity.
  - exact awaiting_reschedule_storable.
  - vm_compute. reflexivity.
  - exact awaiting_reschedule_shapes.
  - left. vm_compute. reflexivity.
Defined.

(** A reply that is not a date keeps the awaited reschedule. *)
Lemma unparsed_reply_example :
  on_text BOGOTA NINE never_parses 0 7 (u "no sé")
    (World awaiting_reschedule sample_table [])
  = Ok (World awaiting_reschedule sample_table [MsgNotUnderstood]).
Proof.
  apply (unparsed_reply_keeps_continuation BOGOTA NINE never_parses 0 7 (u "no sé")
           (World awaiting_reschedule sample_table [])).
  - vm_compute. reflexivity.
  - vm_compute. reflexivity.
  - exact awaiting_reschedule_shapes.
  - left. vm_compute. reflexivity.
  - reflexivity.
Defined.

(** "primera quincena de febrero 2026" is 2026-02-01 00:00 to 2026-02-15
    23:59 in the local zone. *)
Lemma febrero_2026_example :
  exists s e label,
    parse_quincena_query BOGOTA noon_2026_11_03 (u "primera quincena de febrero 2026")
    = QPeriod (s, e, label)
    /\ civil s = (2026, 2, 1, 0, 0, 0, 0) /\ utcoffset s = BOGOTA
    /\ civil e = (2026, 2, 15, 23, 59, 0, 0) /\ utcoffset e = BOGOTA.
Proof.
  assert (Hin : In ("febrero"%string, 2) MONTHS_ES) by (right; left; reflexivity).
  assert (H2 : 0 <= 2 <= 9) by lia.
  assert (H6 : 0 <= 6 <= 9) by lia.
  exact (proj1 (explicit_quincena_window BOGOTA noon_2026_11_03 "febrero" 2 2 6
                  Hin H2 H6)).
Defined.


(** ** Examples of the further properties *)

Lemma two_pending_wf : wf_table two_pending.
Proof. repeat constructor; vm_compute; lia. Defined.


(** "ya" with two reminders pending confirms the one that is due first,
    although the other was saved first. *)
Lemma confirm_first_due_example :
  exists t' r,
    mark_done 2000 7 None two_pending = (t', Some (1, u "pagar luz"))
    /\ In r two_pending /\ r_id r = 1
    /\ (forall r', In r' two_pending -> r_chat_id r' = 7 ->
                   r_status r' = Pending -> due_le r r')
    /\ by_id 1 t' = Some (set_done 2000 r).
Proof.
  pose proof (confirm_without_id_takes_first_due 2000 7 two_pending two_pending_wf)
    as H.
  destruct (mark_done 2000 7 None two_pending) as [t' [[rid task]|]] eqn:Hm.
  - destruct H as (r & Hin & Hid & Htask & _ & _ & Hmin & Hrow & _).
    assert (Hres : Some (rid, task) = Some (1, u "pagar luz")).
    { change (Some (rid, task)) with (snd (t', Some (rid, task))).
      rewrite <- Hm. vm_compute. reflexivity. }
    injection Hres as -> ->.
    exists t', r. repeat split; assumption.
  - exfalso. vm_compute in Hm. discriminate.
Defined.

(** Deleting reminder 2 of chat 7. *)
Lemma delete_example :
  exists t',
    delete_reminder 7 2 sample_table = (t', Some (2, u "botar basura"))
    /\ by_id 2 t' = Some (set_deleted sample_done)
    /\ (forall k, k <> 2 -> by_id k t' = by_id k sample_table)
    /\ wf_table t' /\ map r_id t' = map r_id sample_table
    /\ delete_reminder 7 2 t' = (t', None)
    /\ (forall now, mark_done now 7 (Some 2) t' = (t', None))
    /\ (forall dt, update_reminder_time 7 2 dt t' = (t', None)).
Proof.
  exact (delete_is_soft_and_final 7 2 sample_table sample_table_wf).
Defined.

(** A reminder saved in a table whose largest id is 3 gets an id above 3. *)
Lemma insert_example :
  exists t' rid,
    insert_reminder 0 7 (u "comprar pan") (DateTime 5000 0) None General sample_table
    = (t', (rid, 5000))
    /\ (forall r, In r sample_table -> r_id r < rid)
    /\ by_id rid sample_table = None
    /\ by_id rid t'
       = Some (Reminder rid 7 (u "comprar pan") 5000 Pending None General
                        (Some 0) None 0 None)
    /\ (forall k, k <> rid -> by_id k t' = by_id k sample_table)
    /\ wf_table t'.
Proof.
  exact (insert_takes_fresh_id 0 7 (u "comprar pan") (DateTime 5000 0) None General
           sample_table sample_table_wf).
Defined.

(** A tick over the sample table attempts each reminder at most once. *)
Lemma tick_attempts_example :
  List.NoDup (map a_rid (snd (tick_job 60 24 2000 accepting sample_table))).
Proof.
  exact (proj2 (tick_attempts_only_eligible 60 24 2000 accepting sample_table
                  sample_table_wf)).
Defined.

(** A tick over the sample table keeps its three rows. *)
Lemma tick_bookkeeping_example :
  map r_id (fst (tick_job 60 24 2000 accepting sample_table)) = map r_id sample_table.
Proof.
  exact (proj1 (tick_changes_only_bookkeeping 60 24 2000 accepting sample_table
                  sample_table_wf)).
Defined.

(** Reminder 1, delivered at 2000, is not attempted again at 2500. *)
Lemma cooldown_example :
  by_id 1 (fst (tick_job 60 24 2000 accepting sample_table))
  = Some (set_sent 2000 sample_pending)
  /\ forall a,
      In a (snd (tick_job 60 24 2500 accepting
                   (fst (tick_job 60 24 2000 accepting sample_table)))) ->
      a_rid a <> 1.
Proof.
  apply (delivered_reminder_rests 60 24 2000 2500 accepting accepting sample_table
           sample_pending sample_table_wf).
  - now left.
  - vm_compute. now left.
  - vm_compute. reflexivity.
Defined.

(** Two ticks an hour apart deliver reminder 1 twice, and its counter
    says so. *)
Lemma budget_example :
  (exists r',
      by_id 1 (fst (run_ops 60 24 [OpTick 2000 accepting;
                                   OpTick 3600002000 accepting] sample_table))
      = Some r'
      /\ r_retry_count r'
         = r_retry_count sample_pending
           + deliveries 1 (snd (run_ops 60 24 [OpTick 2000 accepting;
                                               OpTick 3600002000 accepting]
                                  sample_table)))
  /\ deliveries 1 (snd (run_ops 60 24 [OpTick 2000 accepting;
                                       OpTick 3600002000 accepting] sample_table))
     <= 24 - r_retry_count sample_pending.
Proof.
  apply (deliveries_stay_within_budget 60 24 1 sample_pending
           [OpTick 2000 accepting; OpTick 3600002000 accepting] sample_table
           sample_table_wf).
  - reflexivity.
  - vm_compute. discriminate.
Defined.

(** "borrar 1" in chat 7 leaves the rows of the table in their places. *)
Lemma text_handler_example :
  exists w',
    on_text BOGOTA NINE sample_parser 0 7 (u "borrar 1")
      (World no_continuation sample_table []) = Ok w'
    /\ wf_table (db w') /\ extends_for 7 sample_table (db w')
    /\ exists m, outbox w' = [m].
Proof.
  destruct (on_text BOGOTA NINE sample_parser 0 7 (u "borrar 1")
              (World no_continuation sample_table [])) as [w'|] eqn:H.
  - exists w'. split; [reflexivity|].
    exact (text_handler_stays_in_its_chat BOGOTA NINE sample_parser 0 7
             (u "borrar 1") (World no_continuation sample_table []) w'
             sample_table_wf H).
  - exfalso. vm_compute in H. discriminate.
Defined.

(** The button "done:1" pressed in chat 8 changes no row of chat 7. *)
Lemma callback_handler_example :
  exists w',
    on_callback BOGOTA 0 8 (u "done:1") (World no_continuation sample_table [])
    = Ok w'
    /\ wf_table (db w') /\ Forall2 (touched_by 8) sample_table (db w').
Proof.
  destruct (on_callback BOGOTA 0 8 (u "done:1")
              (World no_continuation sample_table [])) as [w'|] eqn:H.
  - exists w'. split; [reflexivity|].
    exact (callback_handler_stays_in_its_chat BOGOTA 0 8 (u "done:1")
             (World no_continuation sample_table []) w' sample_table_wf H).
  - exfalso. vm_compute in H. discriminate.
Defined.


(** A reminder asked for without a date, then the date. *)
Lemma creation_flow_example :
  exists w1,
    on_text BOGOTA NINE sample_parser 0 7 (u "recuérdame comprar pan")
      (World no_continuation sample_table []) = Ok w1
    /\ db w1 = sample_table
    /\ outbox w1 = [MsgAskWhen (u "comprar pan") None]
    /\ on_text BOGOTA NINE sample_parser 0 7 (u "mañana 09:00") w1
       = Ok (World no_continuation
               (sample_table
                ++ [Reminder 4 7 (u "comprar pan") 50400000000 Pending None General
                             (Some 0) None 0 None])
               [MsgAskWhen (u "comprar pan") None;
                MsgSaved 4 (DateTime 32400000000 BOGOTA) (u "comprar pan") None]).
Proof.
  exact (creation_waits_for_its_date BOGOTA NINE sample_parser 0 0 7
           (u "recuérdame comprar pan") (u "mañana 09:00")
           (MkParsedCreate (u "comprar pan") None None General)
           (DateTime 32400000000 BOGOTA)
           (World no_continuation sample_table [])
           eq_refl eq_refl eq_refl
           eq_refl eq_refl eq_refl eq_refl eq_refl eq_refl eq_refl eq_refl eq_refl).
Defined.

(** "playa" holds "ya": the message confirms reminder 1 and creates
    nothing. *)
Lemma playa_example :
  on_text BOGOTA NINE sample_parser 2000 7 (u "recuérdame ir a la playa mañana")
    (World no_continuation sample_table [])
  = Ok (World no_continuation
          [set_done 2000 sample_pending; sample_done; sample_deleted]
          [MsgDone 1 (u "pagar luz")]).
Proof.
  rewrite (confirmation_word_anywhere_confirms BOGOTA NINE sample_parser 2000 7
             (u "recuérdame ir a la playa mañana") (u "ya")
             (World no_continuation sample_table [])).
  - vm_compute. reflexivity.
  - vm_compute. reflexivity.
  - now left.
  - vm_compute. reflexivity.
  - vm_compute. reflexivity.
  - reflexivity.
  - reflexivity.
Defined.

(** "borrar 1, 3 y 9": reminder 1 is deleted; 3 was deleted before and 9
    does not exist. *)
Lemma delete_request_example :
  on_text BOGOTA NINE sample_parser 0 7 (u "borrar 1, 3 y 9, 1")
    (World awaiting_new sample_table [])
  = Ok (World awaiting_new
          [set_deleted sample_pending; sample_done; sample_deleted]
          [MsgDeleteReport [1] [3; 9]]).
Proof.
  destruct (delete_request_deletes_the_named BOGOTA NINE sample_parser 0 7
              (u "borrar 1, 3 y 9, 1") [1; 3; 9]
              (World awaiting_new sample_table [])) as (_ & _ & H).
  - vm_compute. reflexivity.
  - vm_compute. reflexivity.
  - vm_compute. reflexivity.
  - rewrite H. vm_compute. reflexivity.
Defined.

(** February 2024 has 29 days. *)
Lemma febrero_2024_example :
  exists s1 e1 s2 e2,
    quincena_range BOGOTA 2024 2 1 = Some (s1, e1)
    /\ quincena_range BOGOTA 2024 2 2 = Some (s2, e2)
    /\ civil s1 = (2024, 2, 1, 0, 0, 0, 0) /\ civil e1 = (2024, 2, 15, 23, 59, 0, 0)
    /\ civil s2 = (2024, 2, 16, 0, 0, 0, 0) /\ civil e2 = (2024, 2, 29, 23, 59, 0, 0)
    /\ instant e1 + us_per_minute = instant s2.
Proof.
  assert (Hy : 1 <= 2024 <= 9999) by lia.
  assert (Hm : 1 <= 2 <= 12) by lia.
  destruct (quincena_halves_of_any_month BOGOTA 2024 2 Hy Hm)
    as (s1 & e1 & s2 & e2 & last & H1 & H2 & Hlast & C1 & C2 & C3 & C4 & _ & _ & _
        & _ & _ & Hgap & _).
  assert (last = 29) by (vm_compute in Hlast; congruence). subst last.
  exists s1, e1, s2, e2. repeat split; try assumption.
  apply H2. discriminate.
Defined.

(** At noon of 2026-11-03 the current half is the first half of
    November. *)
Lemma current_quincena_example :
  exists s e,
    current_quincena_range BOGOTA noon_2026_11_03
    = Some (s, e, u "esta primera quincena")
    /\ instant s <= noon_2026_11_03 < instant e + us_per_minute.
Proof.
  destruct (current_quincena_contains_now BOGOTA noon_2026_11_03)
    as (s & e & H & _ & Hnow).
  - vm_compute. split; discriminate.
  - exists s, e. split; [|exact Hnow]. rewrite H. reflexivity.
Defined.

(** Half a second past a whole second sorts before that second. *)
Lemma fraction_sorts_first_example :
  1000000 < 1500000 /\ sql_le 1500000 1000000 = true /\ sql_le 1000000 1500000 = false.
Proof.
  assert (Hy : forall t, t = 1000000 \/ t = 1500000 -> 1 <= dt_year (at_utc t) <= 9999)
    by (intros t [->| ->]; vm_compute; split; discriminate).
  apply (proj2 (proj2 (proj2
           (stored_order_is_chronological_by_second 1500000 1000000
              (Hy _ (or_intror eq_refl)) (Hy _ (or_introl eq_refl)))))).
  - reflexivity.
  - vm_compute. discriminate.
  - reflexivity.
Defined.

(** Reminder 1, confirmed, is listed as done. *)
Lemma confirmed_is_listed_example :
  (forall x,
      In x (fetch_reminders 7 (Some Pending) 200
              (fst (mark_done 2000 7 (Some 1) sample_table))) -> r_id x <> 1)
  /\ In (set_done 2000 sample_pending)
        (fetch_reminders 7 None 200 (fst (mark_done 2000 7 (Some 1) sample_table))).
Proof.
  destruct (confirmed_reminder_moves_to_done 2000 7 1 200 sample_table sample_pending
              sample_table_wf eq_refl eq_refl) as [H1 H2].
  split; [exact H1|]. apply H2. vm_compute. lia.
Defined.

(** A reminder saved for 5000 is not sent at 4000 and is sent at 6000. *)
Lemma saved_fires_example :
  (forall a,
      In a (snd (tick_job 60 24 4000 accepting
                   (fst (insert_reminder 0 7 (u "comprar pan") (DateTime 5000 0)
                           None General sample_table)))) -> a_rid a <> 4)
  /\ In (Attempt 4 7 true)
        (snd (tick_job 60 24 6000 accepting
                (fst (insert_reminder 0 7 (u "comprar pan") (DateTime 5000 0)
                        None General sample_table)))).
Proof.
  assert (Hmax : 0 < 24) by lia.
  destruct (saved_reminder_fires_when_due 60 24 0 4000 7 (u "comprar pan")
              (DateTime 5000 0) None General accepting sample_table
              sample_table_wf Hmax) as [_ Hbefore].
  destruct (saved_reminder_fires_when_due 60 24 0 6000 7 (u "comprar pan")
              (DateTime 5000 0) None General accepting sample_table
              sample_table_wf Hmax) as [Hafter _].
  split.
  - apply Hbefore. vm_compute. reflexivity.
  - apply Hafter. vm_compute. discriminate.
Defined.

(** Reminder 2, which is done, is sent again once rescheduled. *)
Lemma rescheduled_fires_example :
  In (Attempt 2 7 true)
     (snd (tick_job 60 24 6000 accepting
             (fst (update_reminder_time 7 2 (DateTime 5000 0) sample_table)))).
Proof.
  assert (Hmax : 0 < 24) by lia.
  assert (Hnd : r_status sample_done <> Deleted) by discriminate.
  apply (proj1 (rescheduled_reminder_fires_when_due 60 24 7 2 (DateTime 5000 0) 6000
                  accepting sample_table sample_done sample_table_wf Hmax
                  eq_refl Hnd)).
  vm_compute. discriminate.
Defined.

(** Reminder 3, which is deleted, is not sent by a tick and cannot be
    confirmed back to life. *)
Lemma closed_stays_silent_example :
  (forall a,
      In a (snd (run_ops 60 24 [OpMarkDone 1500 7 (Some 3); OpTick 2000 accepting]
                   sample_table)) -> a_rid a <> 3)
  /\ exists r',
      by_id 3 (fst (run_ops 60 24 [OpMarkDone 1500 7 (Some 3); OpTick 2000 accepting]
                      sample_table)) = Some r'
      /\ r_status r' <> Pending.
Proof.
  assert (Hst : r_status sample_deleted <> Pending) by discriminate.
  exact (closed_reminder_stays_silent 60 24 3 sample_deleted
           [OpMarkDone 1500 7 (Some 3); OpTick 2000 accepting] sample_table
           sample_table_wf eq_refl Hst).
Defined.

(** ** Where the specification and the code part *)


(** C2. While a new reminder awaits its date, "lista" is served as the
    fixed phrase: the list is sent and the payload stays, whereas the
    continuation would have stored the reminder. *)
Lemma fixed_phrase_precedes_continuation :
  awaiting awaiting_new
  /\ on_text BOGOTA NINE always_parses 0 7 (u "lista")
       (World awaiting_new sample_table [])
     = Ok (World awaiting_new sample_table
             [MsgList (u "🗓️ Pendientes:") [sample_pending]])
  /\ on_text BOGOTA NINE always_parses 0 7 (u "lista")
       (World awaiting_new sample_table [])
     <> on_text_continuation BOGOTA NINE always_parses 0 7 (u "lista")
          (World awaiting_new sample_table []).
Proof.
  split; [right; vm_compute; reflexivity|].
  split; [vm_compute; reflexivity|].
  intros H. vm_compute in H. discriminate.
Qed.

(** C3. "pagar 0000" has a money keyword and a four-digit candidate
    without colon; the specification's wording yields 0, the code none. *)
Lemma zero_amount_is_dropped :
  parse_amount_cop_strict (u "pagar 0000") = None
  /\ extract_amount_spec (u "pagar 0000") = Some 0.
Proof. split; vm_compute; reflexivity. Qed.

(** C7. With a continuation pending and a parser that understands
    nothing, "borrar 1" still deletes reminder 1 and reports it, and
    "lista" sends the list: neither is answered by the prompt. *)
Lemma unparsed_delete_request_mutates_store :
  awaiting awaiting_new
  /\ parse_date_time_from_text BOGOTA NINE never_parses 0 (strip (u "borrar 1")) = None
  /\ on_text BOGOTA NINE never_parses 0 7 (u "borrar 1")
       (World awaiting_new sample_table [])
     = Ok (World awaiting_new [set_deleted sample_pending; sample_done; sample_deleted]
             [MsgDeleteReport [1] []])
  /\ on_text BOGOTA NINE never_parses 0 7 (u "borrar 1")
       (World awaiting_new sample_table [])
     <> Ok (World awaiting_new sample_table [MsgNotUnderstood])
  /\ on_text BOGOTA NINE never_parses 0 7 (u "lista")
       (World awaiting_new sample_table [])
     <> Ok (World awaiting_new sample_table [MsgNotUnderstood]).
Proof.
  split; [right; vm_compute; reflexivity|].
  split; [reflexivity|].
  split; [vm_compute; reflexivity|].
  split; intros H; vm_compute in H; discriminate.
Qed.

(** C5. The tick at 2000 closes the exhausted reminder 1 and sends
    nothing.  The chat then presses "in one hour" under it, which
    reschedules and so reopens it, and the tick an hour later delivers
    it: a later tick does attempt the reminder once it is rescheduled. *)
Lemma snooze_reopens_closed_reminder :
  tick_job 60 24 2000 accepting [sample_exhausted; sample_done]
  = ([set_done 2000 sample_exhausted; sample_done], [])
  /\ exists t,
      on_callback BOGOTA 3000 7 (u "snooze1h:1")
        (World no_continuation [set_done 2000 sample_exhausted; sample_done] [])
      = Ok (World no_continuation t [MsgSnoozed 1 (DateTime (3600003000 - 18000000000) BOGOTA)])
      /\ In (Attempt 1 7 true) (snd (tick_job 60 24 3600003000 accepting t)).
Proof.
  split; [vm_compute; reflexivity|].
  eexists. split; [vm_compute; reflexivity|].
  vm_compute. left. reflexivity.
Qed.

(** C8. Asked for the status deleted, the list operation returns the
    deleted reminder. *)
Lemma deleted_status_lists_deleted :
  fetch_reminders 7 (Some Deleted) 200 sample_table = [sample_deleted]
  /\ r_status sample_deleted = Deleted.
Proof. split; vm_compute; reflexivity. Qed.

(** C9. In November 2026, "primera quincena de febrero 1999" resolves to
    February 2026: the year 1999 is not read. *)
Lemma year_1999_is_not_read :
  match parse_quincena_query BOGOTA noon_2026_11_03
          (u "primera quincena de febrero 1999") with
  | QPeriod (s, e, _) =>
      civil s = (2026, 2, 1, 0, 0, 0, 0) /\ civil e = (2026, 2, 15, 23, 59, 0, 0)
  | _ => False
  end.
Proof. vm_compute. split; reflexivity. Qed.
